(** * Quiz Master: attempt engine, answer storage and statistics

    A shallow embedding of [models.py] and of the attempt and statistics
    code of [routes.py], with the Python built-ins they call ([int], [str],
    [round], [sum], [json.dumps], [json.loads], [list.sort]) modelled next
    to them. *)

From Stdlib Require Import ZArith NArith List Bool Lia String Ascii.
From Stdlib Require Import DecimalString DecimalZ SpecFloat Sorted Permutation.
Import ListNotations.
Local Open Scope Z_scope.

(** ** Python text

    A Python [str] is a sequence of code points. *)

Definition pystr := list N.

Definition pystr_of_string (s : string) : pystr :=
  map N_of_ascii (list_ascii_of_string s).

Definition pystr_eqb (a b : pystr) : bool :=
  if list_eq_dec N.eq_dec a b then true else false.

(** [str(n)] for an [int]: the decimal digits, with a minus sign for a
    negative number. *)
Definition py_str_int (n : Z) : pystr :=
  pystr_of_string (NilEmpty.string_of_int (Z.to_int n)).

(** ** [int(s)] for a [str], base 10

    CPython first replaces every non-ASCII white-space character by a space
    and every non-ASCII decimal digit by its ASCII digit (any other non-ASCII
    character makes the text invalid); it then skips leading white space,
    reads an optional sign, then digits in which single underscores may
    separate digits, then trailing white space, and raises [ValueError] on
    anything else, and also when there are more than 4300 digits (the default
    limit of CPython 3.11).  [None] stands for the [ValueError].  The tables
    are those of Unicode 14.0, the version of CPython 3.11: the decimal
    digits of a script are ten consecutive code points from its zero. *)
Module PyInt.

Definition decimal_zeros : list N :=
  [
    1632; 1776; 1984; 2406; 2534; 2662; 2790; 2918; 3046; 3174; 3302; 3430;
    3558; 3664; 3792; 3872; 4160; 4240; 6112; 6160; 6470; 6608; 6784; 6800;
    6992; 7088; 7232; 7248; 42528; 43216; 43264; 43472; 43504; 43600; 44016;
    65296; 66720; 68912; 69734; 69872; 69942; 70096; 70384; 70736; 70864;
    71248; 71360; 71472; 71904; 72016; 72784; 73040; 73120; 92768; 92864;
    93008; 120782; 120792; 120802; 120812; 120822; 123200; 123632; 125264;
    130032
  ]%N.

Definition unicode_spaces : list N :=
  [
    133; 160; 5760; 8192; 8193; 8194; 8195; 8196; 8197; 8198; 8199; 8200;
    8201; 8202; 8232; 8233; 8239; 8287; 12288
  ]%N.

Definition unicode_decimal (c : N) : option N :=
  match find (fun z => (z <=? c) && (c <=? z + 9))%N decimal_zeros with
  | Some z => Some (c - z)%N
  | None => None
  end.

(** The ASCII stand-in of a character; [?] for what is neither a space nor
    a decimal digit. *)
Definition to_ascii (c : N) : N :=
  (if c <=? 127 then c
   else if existsb (N.eqb c) unicode_spaces then 32
   else
     match unicode_decimal c with
     | Some d => 48 + d
     | None => 63
     end)%N.

Definition is_space (c : N) : bool :=
  (((9 <=? c) && (c <=? 13)) || (c =? 32))%N.

Definition digit_val (c : N) : option Z :=
  if ((48 <=? c) && (c <=? 57))%N then Some (Z.of_N (c - 48)) else None.

Fixpoint lstrip (s : pystr) : pystr :=
  match s with
  | c :: t => if is_space c then lstrip t else s
  | [] => []
  end.

(** The digits after the first one: the value and the number of digits
    read so far, and whether the previous character was an underscore. *)
Fixpoint scan_digits (acc digits : Z) (prev_us : bool) (s : pystr)
    : option (Z * Z * pystr) :=
  match s with
  | [] => if prev_us then None else Some (acc, digits, [])
  | c :: t =>
      match digit_val c with
      | Some d => scan_digits (10 * acc + d) (digits + 1) false t
      | None =>
          if (c =? 95)%N then
            if prev_us then None else scan_digits acc digits true t
          else if prev_us then None else Some (acc, digits, s)
      end
  end.

Definition max_str_digits : Z := 4300.

Definition parse_ascii (s : pystr) : option Z :=
  let s1 := lstrip s in
  let '(sign, s2) :=
    match s1 with
    | [] => (1, s1)
    | c :: t =>
        if (c =? 43)%N then (1, t)
        else if (c =? 45)%N then (-1, t)
        else (1, s1)
    end in
  match s2 with
  | [] => None
  | c :: t =>
      match digit_val c with
      | None => None
      | Some d =>
          match scan_digits d 1 false t with
          | None => None
          | Some (v, digits, rest) =>
              match lstrip rest with
              | [] => if digits >? max_str_digits then None else Some (sign * v)
              | _ :: _ => None
              end
          end
      end
  end.

Definition parse (s : pystr) : option Z := parse_ascii (map to_ascii s).

End PyInt.

Definition py_int (s : pystr) : option Z := PyInt.parse s.

(** ** Python dictionaries

    A [dict] keeps its keys in insertion order; assigning to a key that is
    present replaces the value in place. *)
Section Dict.
Context {V : Type}.

Definition pydict := list (pystr * V).

Fixpoint dict_get (d : pydict) (k : pystr) : option V :=
  match d with
  | [] => None
  | (k', v) :: t => if pystr_eqb k' k then Some v else dict_get t k
  end.

Fixpoint dict_set (d : pydict) (k : pystr) (v : V) : pydict :=
  match d with
  | [] => [(k, v)]
  | (k', v') :: t =>
      if pystr_eqb k' k then (k, v) :: t else (k', v') :: dict_set t k v
  end.

Definition dict_keys (d : pydict) : list pystr := map fst d.

End Dict.
Arguments pydict : clear implicits.

(** ** models.py *)

Record Quiz := {
  quiz_id : Z;
  quiz_chapter_id : Z;
  date_of_quiz : Z;          (* a [date], as its day number *)
  time_duration : Z
}.

Record Question := {
  question_id : Z;
  question_quiz_id : Z;
  correct_option : Z
}.

Record Score := {
  score_id : Z;
  score_quiz_id : Z;
  score_user_id : Z;
  time_stamp : Z;
  total_scored : Z;
  total_questions : Z;
  answers : option pystr     (* the Text column, NULL when never set *)
}.

Record Chapter := {
  chapter_id : Z;
  chapter_subject_id : Z
}.

Record Subject := {
  subject_id : Z;
  subject_name : pystr
}.

(** The tables the modelled code reads and writes, each in row order. *)
Record Store := {
  users : list Z;
  subjects : list Subject;
  chapters : list Chapter;
  quizzes : list Quiz;
  questions : list Question;
  scores : list Score
}.

Definition with_scores (s : Store) (l : list Score) : Store :=
  {| users := users s; subjects := subjects s; chapters := chapters s;
     quizzes := quizzes s; questions := questions s; scores := l |}.

(** ** Queries *)

Definition quiz_get (s : Store) (id : Z) : option Quiz :=
  find (fun q => quiz_id q =? id) (quizzes s).

Definition score_for (qid uid : Z) (sc : Score) : bool :=
  (score_quiz_id sc =? qid) && (score_user_id sc =? uid).

(** [Score.query.filter_by(quiz_id=..., user_id=...).first()] *)
Definition existing_score (s : Store) (qid uid : Z) : option Score :=
  find (score_for qid uid) (scores s).

(** [Question.query.filter_by(quiz_id=...).all()] *)
Definition questions_of (s : Store) (qid : Z) : list Question :=
  filter (fun q => question_quiz_id q =? qid) (questions s).

(** The integer primary key given to a new row: one more than the largest
    key in the table. *)
Definition next_score_id (s : Store) : Z :=
  1 + fold_right Z.max 0 (map score_id (scores s)).

(** ** Exceptions

    A computation either returns or raises.  The exceptions the modelled
    code can meet: the [ValueError] of [int], the [JSONDecodeError] of
    [json.loads], the [AttributeError] of an attribute read on [None], and
    the [ZeroDivisionError] of [/]. *)
Inductive exn := ValueError | JSONDecodeError | AttributeError | ZeroDivisionError.

Inductive outcome (A : Type) :=
| Return (a : A)
| Raise (e : exn).
Arguments Return {A} a.
Arguments Raise {A} e.

Definition bind {A B} (m : outcome A) (k : A -> outcome B) : outcome B :=
  match m with
  | Return a => k a
  | Raise e => Raise e
  end.

Notation "x <- m ;; k" := (bind m (fun x => k))
  (at level 61, m at next level, right associativity).

(** ** routes.py: [attempt_quiz] *)

(** What the handler needs of a request: whether [form.validate_on_submit()]
    holds (a POST with a valid CSRF token), and the posted fields. *)
Record Request := {
  validate_on_submit : bool;
  form : list (pystr * pystr)
}.

(** [request.form.get(key)]: the first value posted under [key], or [None]. *)
Fixpoint form_get (f : list (pystr * pystr)) (key : pystr) : option pystr :=
  match f with
  | [] => None
  | (k, v) :: t => if pystr_eqb k key then Some v else form_get t key
  end.

(** The truth value of [None] and of the empty string is false. *)
Definition truthy (a : option pystr) : bool :=
  match a with
  | Some (_ :: _) => true
  | _ => false
  end.

Definition field_name (question_id : pystr) : pystr :=
  pystr_of_string "question_" ++ question_id.

(** [user_answer and int(user_answer) == question.correct_option] *)
Definition is_correct (question : Question) (user_answer : option pystr) : outcome bool :=
  if truthy user_answer then
    match user_answer with
    | Some text =>
        match py_int text with
        | Some n => Return (n =? correct_option question)
        | None => Raise ValueError
        end
    | None => Return false
    end
  else Return false.

(** The loop over the questions, lines 491-498. *)
Fixpoint grade (f : list (pystr * pystr)) (qs : list Question)
    (total_scored : Z) (user_answers : pydict (option pystr))
    : outcome (Z * pydict (option pystr)) :=
  match qs with
  | [] => Return (total_scored, user_answers)
  | question :: rest =>
      let question_id := py_str_int (question_id question) in
      let user_answer := form_get f (field_name question_id) in
      hit <- is_correct question user_answer ;;
      grade f rest (if hit : bool then total_scored + 1 else total_scored)
            (dict_set user_answers question_id user_answer)
  end.

Inductive response :=
| NotFound                      (* [get_or_404] *)
| NotAvailable                  (* 'This quiz is not yet available.' *)
| AlreadyAttempted (id : Z)     (* redirect to the results of Score [id] *)
| NoQuestions                   (* 'This quiz has no questions yet.' *)
| RenderForm                    (* the attempt page *)
| Submitted (id : Z)            (* 'Quiz submitted successfully!' *)
| ServerError (e : exn).        (* an exception left the handler *)

(** ** [json.dumps] and [json.loads]

    The answers column holds the JSON text of a [dict] from [str] to [str]
    or [None].  The encoder is the default one ([ensure_ascii=True],
    separators [", "] and [": "]); the decoder is the default decoder for
    documents of that shape: an object whose values are strings or [null].
    [None] stands for a [JSONDecodeError], or for a document with other
    values, which this model does not cover. *)
Module Json.

Definition hex_digit (n : N) : N :=
  (if n <? 10 then 48 + n else 87 + n)%N.

(** ['{0:04x}'.format(n)] for [n < 0x10000] *)
Definition hex4 (n : N) : pystr :=
  [hex_digit (N.land (N.shiftr n 12) 15); hex_digit (N.land (N.shiftr n 8) 15);
   hex_digit (N.land (N.shiftr n 4) 15); hex_digit (N.land n 15)].

Definition u_escape (n : N) : pystr := 92%N :: 117%N :: hex4 n.

(** One character of [encode_basestring_ascii]. *)
Definition encode_char (c : N) : pystr :=
  (if c =? 34 then [92; 34]
   else if c =? 92 then [92; 92]
   else if c =? 8 then [92; 98]
   else if c =? 12 then [92; 102]
   else if c =? 10 then [92; 110]
   else if c =? 13 then [92; 114]
   else if c =? 9 then [92; 116]
   else if (32 <=? c) && (c <=? 126) then [c]
   else if c <? 65536 then u_escape c
   else
     let n := c - 65536 in
     u_escape (N.lor 55296 (N.land (N.shiftr n 10) 1023))
       ++ u_escape (N.lor 56320 (N.land n 1023)))%N.

Definition encode_string (s : pystr) : pystr :=
  34%N :: flat_map encode_char s ++ [34%N].

Definition encode_value (v : option pystr) : pystr :=
  match v with
  | None => pystr_of_string "null"
  | Some s => encode_string s
  end.

Definition encode_item (kv : pystr * option pystr) : pystr :=
  encode_string (fst kv) ++ [58%N; 32%N] ++ encode_value (snd kv).

Fixpoint encode_items (d : pydict (option pystr)) : pystr :=
  match d with
  | [] => []
  | [kv] => encode_item kv
  | kv :: rest => encode_item kv ++ [44%N; 32%N] ++ encode_items rest
  end.

Definition dumps (d : pydict (option pystr)) : pystr :=
  123%N :: encode_items d ++ [125%N].

(** *** Decoding *)

Definition is_ws (c : N) : bool :=
  ((c =? 32) || (c =? 9) || (c =? 10) || (c =? 13))%N.

Fixpoint skip_ws (s : pystr) : pystr :=
  match s with
  | c :: t => if is_ws c then skip_ws t else s
  | [] => []
  end.

Definition hex_val (c : N) : option N :=
  (if (48 <=? c) && (c <=? 57) then Some (c - 48)
   else if (97 <=? c) && (c <=? 102) then Some (c - 87)
   else if (65 <=? c) && (c <=? 70) then Some (c - 55)
   else None)%N.

(** [_decode_uXXXX]: the value of four hexadecimal digits. *)
Definition decode_hex4 (a b c d : N) : option N :=
  match hex_val a, hex_val b, hex_val c, hex_val d with
  | Some a, Some b, Some c, Some d => Some (4096 * a + 256 * b + 16 * c + d)%N
  | _, _, _, _ => None
  end.

(** [BACKSLASH]: the one-letter escapes. *)
Definition backslash (c : N) : option N :=
  (if c =? 34 then Some 34
   else if c =? 92 then Some 92
   else if c =? 47 then Some 47
   else if c =? 98 then Some 8
   else if c =? 102 then Some 12
   else if c =? 110 then Some 10
   else if c =? 114 then Some 13
   else if c =? 116 then Some 9
   else None)%N.

Definition is_high_surrogate (u : N) : bool := ((55296 <=? u) && (u <=? 56319))%N.
Definition is_low_surrogate (u : N) : bool := ((56320 <=? u) && (u <=? 57343))%N.

Definition join_surrogates (uni uni2 : N) : N :=
  (65536 + N.lor (N.shiftl (uni - 55296) 10) (uni2 - 56320))%N.

Definition cons_char (c : N) (r : option (pystr * pystr)) : option (pystr * pystr) :=
  match r with
  | Some (str, rest) => Some (c :: str, rest)
  | None => None
  end.

(** [scanstring], strict: reads the text after an opening quote up to the
    closing one; returns the decoded string and what follows the quote. *)
Fixpoint scanstring (s : pystr) : option (pystr * pystr) :=
  match s with
  | [] => None
  | c :: t =>
      if (c =? 34)%N then Some ([], t)
      else if (c <? 32)%N then None
      else if (c =? 92)%N then
        match t with
        | [] => None
        | esc :: t' =>
            if (esc =? 117)%N then
              match t' with
              | h1 :: h2 :: h3 :: h4 :: t1 =>
                  match decode_hex4 h1 h2 h3 h4 with
                  | None => None
                  | Some uni =>
                      let single := cons_char uni (scanstring t1) in
                      if is_high_surrogate uni then
                        match t1 with
                        | b :: u :: t2 =>
                            if ((b =? 92) && (u =? 117))%N then
                              match t2 with
                              | k1 :: k2 :: k3 :: k4 :: t3 =>
                                  match decode_hex4 k1 k2 k3 k4 with
                                  | None => None
                                  | Some uni2 =>
                                      if is_low_surrogate uni2 then
                                        cons_char (join_surrogates uni uni2) (scanstring t3)
                                      else single
                                  end
                              | _ => None
                              end
                            else single
                        | _ => single
                        end
                      else single
                  end
              | _ => None
              end
            else
              match backslash esc with
              | None => None
              | Some ch => cons_char ch (scanstring t')
              end
        end
      else cons_char c (scanstring t)
  end.

(** A value: a string or [null]. *)
Definition scan_value (s : pystr) : option (option pystr * pystr) :=
  match s with
  | c :: t =>
      if (c =? 34)%N then
        match scanstring t with
        | Some (str, rest) => Some (Some str, rest)
        | None => None
        end
      else if (c =? 110)%N then
        match t with
        | u :: l1 :: l2 :: rest =>
            if ((u =? 117) && (l1 =? 108) && (l2 =? 108))%N
            then Some (None, rest) else None
        | _ => None
        end
      else None
  | [] => None
  end.

(** The next character, after optional white space. *)
Definition next_token (s : pystr) : option (N * pystr) :=
  match skip_ws s with
  | c :: t => Some (c, t)
  | [] => None
  end.

(** The loop of [JSONObject], entered after the opening quote of a key;
    returns the pairs in the order read and what follows the closing
    brace.  Each round reads at least one character, which the fuel
    counts. *)
Fixpoint members (fuel : nat) (s : pystr)
    : option (list (pystr * option pystr) * pystr) :=
  match fuel with
  | O => None
  | S fuel =>
      match scanstring s with
      | None => None
      | Some (key, s1) =>
          match next_token s1 with
          | Some (colon, s2) =>
              if (colon =? 58)%N then
                match scan_value (skip_ws s2) with
                | None => None
                | Some (value, s3) =>
                    match next_token s3 with
                    | Some (sep, s4) =>
                        if (sep =? 125)%N then Some ([(key, value)], s4)
                        else if (sep =? 44)%N then
                          match next_token s4 with
                          | Some (quote, s5) =>
                              if (quote =? 34)%N then
                                match members fuel s5 with
                                | Some (pairs, rest) => Some ((key, value) :: pairs, rest)
                                | None => None
                                end
                              else None
                          | None => None
                          end
                        else None
                    | None => None
                    end
                end
              else None
          | None => None
          end
      end
  end.

(** [JSONObject], entered after the opening brace. *)
Definition object (s : pystr) : option (list (pystr * option pystr) * pystr) :=
  match next_token s with
  | Some (c, s1) =>
      if (c =? 125)%N then Some ([], s1)
      else if (c =? 34)%N then members (List.length s1) s1
      else None
  | None => None
  end.

(** [dict(pairs)]: later pairs win. *)
Definition dict_of_pairs (pairs : list (pystr * option pystr)) : pydict (option pystr) :=
  fold_left (fun d kv => dict_set d (fst kv) (snd kv)) pairs [].

Definition starts_with_bom (s : pystr) : bool :=
  match s with
  | c :: _ => (c =? 65279)%N
  | [] => false
  end.

Definition loads (s : pystr) : option (pydict (option pystr)) :=
  if starts_with_bom s then None
  else
    match next_token s with
    | Some (c, s1) =>
        if (c =? 123)%N then
          match object s1 with
          | Some (pairs, rest) =>
              match skip_ws rest with
              | [] => Some (dict_of_pairs pairs)
              | _ :: _ => None
              end
          | None => None
          end
        else None
    | None => None
    end.

End Json.

(** ** models.py: [Score.get_answers] and [Score.set_answers] *)

Definition with_answers (sc : Score) (a : option pystr) : Score :=
  {| score_id := score_id sc; score_quiz_id := score_quiz_id sc;
     score_user_id := score_user_id sc; time_stamp := time_stamp sc;
     total_scored := total_scored sc; total_questions := total_questions sc;
     answers := a |}.

Definition set_answers (sc : Score) (answers_dict : pydict (option pystr)) : Score :=
  with_answers sc (Some (Json.dumps answers_dict)).

Definition get_answers (sc : Score) : outcome (pydict (option pystr)) :=
  if truthy (answers sc) then
    match answers sc with
    | Some text =>
        match Json.loads text with
        | Some d => Return d
        | None => Raise JSONDecodeError
        end
    | None => Return []
    end
  else Return [].

(** ** routes.py: [attempt_quiz], continued

    The handler first reads (lines 465-482): the quiz, the availability
    check, the earlier Score of this user, the questions.  When the form
    validates it then grades and writes (lines 486-509). *)
Inductive checked :=
| Refused (r : response)
| Cleared (qs : list Question).

Definition attempt_check (s : Store) (today : Z) (current_user quiz : Z) : checked :=
  match quiz_get s quiz with
  | None => Refused NotFound
  | Some q =>
      if date_of_quiz q >? today then Refused NotAvailable
      else
        match existing_score s quiz current_user with
        | Some sc => Refused (AlreadyAttempted (score_id sc))
        | None =>
            match questions_of s quiz with
            | [] => Refused NoQuestions
            | qs => Cleared qs
            end
        end
  end.

(** [db.session.add(score); db.session.commit()] *)
Definition add_score (s : Store) (sc : Score) : Store :=
  with_scores s (scores s ++ [sc]).

Definition attempt_submit (s : Store) (now : Z) (current_user quiz : Z)
    (req : Request) (qs : list Question) : Store * response :=
  if validate_on_submit req then
    match grade (form req) qs 0 [] with
    | Raise e => (s, ServerError e)
    | Return (total_scored, user_answers) =>
        let score :=
          set_answers
            {| score_id := next_score_id s; score_quiz_id := quiz;
               score_user_id := current_user; time_stamp := now;
               total_scored := total_scored;
               total_questions := Z.of_nat (List.length qs);
               answers := None |}
            user_answers in
        (add_score s score, Submitted (score_id score))
    end
  else (s, RenderForm).

(** One request served alone: the reads and the write see the same store. *)
Definition attempt_quiz (s : Store) (today now : Z) (current_user quiz : Z)
    (req : Request) : Store * response :=
  match attempt_check s today current_user quiz with
  | Refused r => (s, r)
  | Cleared qs => attempt_submit s now current_user quiz req qs
  end.

(** ** Python numbers

    An [int] is unbounded; a [float] is an IEEE 754 binary64 number, here
    the executable specification of the Standard Library with 53 bits of
    precision. *)
Definition prec : Z := 53.
Definition emax : Z := 1024.

Definition float := spec_float.

Definition float_of_int (n : Z) : float := binary_normalize prec emax n 0 false.
Definition float_mul : float -> float -> float := SFmul prec emax.
Definition float_add : float -> float -> float := SFadd prec emax.
Definition float_div : float -> float -> float := SFdiv prec emax.

(** The quotient of two integers rounded once, to the nearest [float]. *)
Definition int_quotient (a b : Z) : float :=
  match a, b with
  | Z0, _ => S754_zero (b <? 0)
  | _, Z0 => S754_nan
  | _, _ =>
      float_div (S754_finite (a <? 0) (Z.to_pos (Z.abs a)) 0)
                (S754_finite (b <? 0) (Z.to_pos (Z.abs b)) 0)
  end.

Inductive pynum :=
| PyInt (n : Z)
| PyFloat (x : float).

Definition is_zero (x : float) : bool :=
  match x with
  | S754_zero _ => true
  | _ => false
  end.

(** [a / b] *)
Definition py_truediv (a b : pynum) : outcome pynum :=
  match a, b with
  | PyInt a, PyInt b =>
      if b =? 0 then Raise ZeroDivisionError else Return (PyFloat (int_quotient a b))
  | PyFloat x, PyInt b =>
      if b =? 0 then Raise ZeroDivisionError
      else Return (PyFloat (float_div x (float_of_int b)))
  | PyInt a, PyFloat y =>
      if is_zero y then Raise ZeroDivisionError
      else Return (PyFloat (float_div (float_of_int a) y))
  | PyFloat x, PyFloat y =>
      if is_zero y then Raise ZeroDivisionError else Return (PyFloat (float_div x y))
  end.

(** [a * b] *)
Definition py_mul (a b : pynum) : pynum :=
  match a, b with
  | PyInt a, PyInt b => PyInt (a * b)
  | PyFloat x, PyInt b => PyFloat (float_mul x (float_of_int b))
  | PyInt a, PyFloat y => PyFloat (float_mul (float_of_int a) y)
  | PyFloat x, PyFloat y => PyFloat (float_mul x y)
  end.

(** [a + b] *)
Definition py_add (a b : pynum) : pynum :=
  match a, b with
  | PyInt a, PyInt b => PyInt (a + b)
  | PyFloat x, PyInt b => PyFloat (float_add x (float_of_int b))
  | PyInt a, PyFloat y => PyFloat (float_add (float_of_int a) y)
  | PyFloat x, PyFloat y => PyFloat (float_add x y)
  end.

(** [sum(xs)]: the items added from the left, starting from the integer 0
    (CPython up to 3.11; from 3.12 on [sum] adds floats with a compensated
    summation, which can differ in the last bit.  The properties below are
    stated over [py_sum] and do not depend on which). *)
Definition py_sum (xs : list pynum) : pynum := fold_left py_add xs (PyInt 0).

(** The integer nearest to [n / d], for [0 <= n] and [0 < d]; of two
    equally near integers the even one. *)
Definition div_half_even (n d : Z) : Z :=
  let q := n / d in
  let r := n mod d in
  match 2 * r ?= d with
  | Lt => q
  | Gt => q + 1
  | Eq => if Z.even q then q else q + 1
  end.

(** The number of hundredths nearest to the magnitude [m * 2^e]. *)
Definition hundredths (m : positive) (e : Z) : Z :=
  match e with
  | Zneg p => div_half_even (100 * Zpos m) (2 ^ Zpos p)
  | _ => 100 * Zpos m * 2 ^ e
  end.

(** [round(x, 2)] for a [float]: the exact value of [x] is rounded to two
    decimals, ties to the even hundredth, and the decimal obtained is read
    back as the nearest [float].  Infinities and NaN round to themselves. *)
Definition float_of_hundredths (s : bool) (k : Z) : float :=
  match k with
  | Zpos k => float_div (S754_finite s k 0) (S754_finite false 100 0)
  | _ => S754_zero s
  end.

Definition float_round2 (x : float) : float :=
  match x with
  | S754_finite s m e => float_of_hundredths s (hundredths m e)
  | _ => x
  end.

(** [round(v, 2)]: an [int] is returned as it is. *)
Definition py_round2 (v : pynum) : pynum :=
  match v with
  | PyInt n => PyInt n
  | PyFloat x => PyFloat (float_round2 x)
  end.

(** ** models.py: [Score.percentage] *)
Definition percentage (sc : Score) : outcome pynum :=
  if total_questions sc =? 0 then Return (PyInt 0)
  else
    ratio <- py_truediv (PyInt (total_scored sc)) (PyInt (total_questions sc)) ;;
    Return (py_round2 (py_mul ratio (PyInt 100))).

(** ** Python lists *)

(** [xs.sort(key=key, reverse=True)]: descending by key; the sort is
    stable, so items with equal keys keep their order. *)
Section SortDesc.
Context {A : Type} (key : A -> Z).

Fixpoint insert_desc (x : A) (l : list A) : list A :=
  match l with
  | [] => [x]
  | y :: t => if key x <? key y then y :: insert_desc x t else x :: l
  end.

Fixpoint sort_desc (l : list A) : list A :=
  match l with
  | [] => []
  | x :: t => insert_desc x (sort_desc t)
  end.
End SortDesc.

(** Running a computation that may raise over a list, left to right. *)
Fixpoint map_outcome {A B} (f : A -> outcome B) (l : list A) : outcome (list B) :=
  match l with
  | [] => Return []
  | x :: t => y <- f x ;; ys <- map_outcome f t ;; Return (y :: ys)
  end.

(** ** routes.py: [get_dashboard_stats] *)

Record QuizStat := {
  stat_quiz : Quiz;
  avg_score : pynum;
  attempts : Z
}.

(** What [get_dashboard_stats] returns, but for the two lists of recent
    rows, which no property below reads. *)
Record DashboardStats := {
  total_users : Z;
  total_subjects : Z;
  total_quizzes : Z;
  dash_total_questions : Z;
  quiz_stats : list QuizStat
}.

(** [Score.query.filter_by(quiz_id=quiz.id).all()] *)
Definition scores_of_quiz (s : Store) (qid : Z) : list Score :=
  filter (fun sc => score_quiz_id sc =? qid) (scores s).

(** The body of the loop over the quizzes, lines 49-61. *)
Definition quiz_stat (s : Store) (quiz : Quiz) : outcome QuizStat :=
  let scs := scores_of_quiz s (quiz_id quiz) in
  match scs with
  | [] =>
      Return {| stat_quiz := quiz; avg_score := py_round2 (PyInt 0); attempts := 0 |}
  | _ :: _ =>
      ps <- map_outcome percentage scs ;;
      avg <- py_truediv (py_sum ps) (PyInt (Z.of_nat (List.length scs))) ;;
      Return {| stat_quiz := quiz; avg_score := py_round2 avg;
                attempts := Z.of_nat (List.length scs) |}
  end.

Definition get_dashboard_stats (s : Store) : outcome DashboardStats :=
  stats <- map_outcome (quiz_stat s) (quizzes s) ;;
  Return {| total_users := Z.of_nat (List.length (users s));
            total_subjects := Z.of_nat (List.length (subjects s));
            total_quizzes := Z.of_nat (List.length (quizzes s));
            dash_total_questions := Z.of_nat (List.length (questions s));
            quiz_stats := firstn 5 (sort_desc attempts stats) |}.

(** ** routes.py: [get_user_stats] *)

(** The per-subject accumulator: the ['total'] and ['count'] entries of
    [subject_scores[name]] (the ['scores'] list is never read). *)
Record SubjectData := {
  data_total : pynum;
  data_count : Z
}.

Definition chapter_get (s : Store) (id : Z) : option Chapter :=
  find (fun c => chapter_id c =? id) (chapters s).

Definition subject_get (s : Store) (id : Z) : option Subject :=
  find (fun c => subject_id c =? id) (subjects s).

(** Attribute access on the result of [query.get]: [None] has none. *)
Definition attr {A} (o : option A) : outcome A :=
  match o with
  | Some a => Return a
  | None => Raise AttributeError
  end.

(** The loop over the user's scores, lines 101-115. *)
Fixpoint subject_loop (s : Store) (user_scores : list Score)
    (subject_scores : pydict SubjectData) : outcome (pydict SubjectData) :=
  match user_scores with
  | [] => Return subject_scores
  | score :: rest =>
      quiz <- attr (quiz_get s (score_quiz_id score)) ;;
      chapter <- attr (chapter_get s (quiz_chapter_id quiz)) ;;
      subject <- attr (subject_get s (chapter_subject_id chapter)) ;;
      let name := subject_name subject in
      let data :=
        match dict_get subject_scores name with
        | Some d => d
        | None => {| data_total := PyInt 0; data_count := 0 |}
        end in
      p <- percentage score ;;
      subject_loop s rest
        (dict_set subject_scores name
           {| data_total := py_add (data_total data) p;
              data_count := data_count data + 1 |})
  end.

(** [round(data['total'] / data['count'], 2) if data['count'] > 0 else 0] *)
Definition subject_average (data : SubjectData) : outcome pynum :=
  if data_count data >? 0 then
    avg <- py_truediv (data_total data) (PyInt (data_count data)) ;;
    Return (py_round2 avg)
  else Return (PyInt 0).

Record UserStats := {
  avg_percentage : pynum;
  completed_quizzes : Z;
  completion_rate : pynum;
  subject_avg : pydict pynum
}.

Definition scores_of_user (s : Store) (uid : Z) : list Score :=
  filter (fun sc => score_user_id sc =? uid) (scores s).

Definition get_user_stats (s : Store) (user_id : Z) : outcome UserStats :=
  let user_scores := scores_of_user s user_id in
  avg <- match user_scores with
         | [] => Return (PyInt 0)
         | _ :: _ =>
             ps <- map_outcome percentage user_scores ;;
             py_truediv (py_sum ps) (PyInt (Z.of_nat (List.length user_scores)))
         end ;;
  let completed := Z.of_nat (List.length user_scores) in
  let total := Z.of_nat (List.length (quizzes s)) in
  subject_scores <- subject_loop s user_scores [] ;;
  averages <- map_outcome
                (fun kv => a <- subject_average (snd kv) ;; Return (fst kv, a))
                subject_scores ;;
  rate <- (if total >? 0 then
             ratio <- py_truediv (PyInt completed) (PyInt total) ;;
             Return (py_round2 (py_mul ratio (PyInt 100)))
           else Return (PyInt 0)) ;;
  Return {| avg_percentage := py_round2 avg;
            completed_quizzes := completed;
            completion_rate := rate;
            subject_avg := averages |}.

(** The key of a question in the answer map: [str(question.id)]. *)
Definition answer_key (q : Question) : pystr := py_str_int (question_id q).

(** What grading records for a question: the text posted under the field
    of the question, or [None]. *)
Definition posted_answer (f : list (pystr * pystr)) (q : Question) : option pystr :=
  form_get f (field_name (answer_key q)).

Definition record_answer (f : list (pystr * pystr)) (d : pydict (option pystr))
    (q : Question) : pydict (option pystr) :=
  dict_set d (answer_key q) (posted_answer f q).

(** ** Serving requests

    A call of the attempt route: the day and time it is served, the
    logged-in user, the quiz of the URL, and the request. *)
Record Call := {
  call_today : Z;
  call_now : Z;
  call_user : Z;
  call_quiz : Z;
  call_request : Request
}.

Definition serve (s : Store) (c : Call) : Store * response :=
  attempt_quiz s (call_today c) (call_now c) (call_user c) (call_quiz c) (call_request c).

(** Calls served one after the other. *)
Fixpoint run (s : Store) (cs : list Call) : Store * list response :=
  match cs with
  | [] => (s, [])
  | c :: rest =>
      let '(s1, r) := serve s c in
      let '(s2, rs) := run s1 rest in
      (s2, r :: rs)
  end.

(** Calls served at the same time.  The handler holds no lock and the
    Score table has no uniqueness constraint on (user, quiz), so between the
    reads of a call and its write the writes of other calls can land.  A
    call in flight has either just arrived, or has done its reads, or has
    replied; a schedule names which call moves next. *)
Inductive in_flight :=
| Arrived (c : Call)
| HasRead (c : Call) (k : checked)
| Replied (r : response).

Definition advance (s : Store) (t : in_flight) : Store * in_flight :=
  match t with
  | Arrived c =>
      (s, HasRead c (attempt_check s (call_today c) (call_user c) (call_quiz c)))
  | HasRead c (Refused r) => (s, Replied r)
  | HasRead c (Cleared qs) =>
      let '(s', r) :=
        attempt_submit s (call_now c) (call_user c) (call_quiz c) (call_request c) qs in
      (s', Replied r)
  | Replied r => (s, Replied r)
  end.

Fixpoint set_nth {A} (l : list A) (i : nat) (x : A) : list A :=
  match l, i with
  | [], _ => []
  | _ :: t, O => x :: t
  | y :: t, S i => y :: set_nth t i x
  end.

Fixpoint interleave (s : Store) (ts : list in_flight) (schedule : list nat)
    : Store * list in_flight :=
  match schedule with
  | [] => (s, ts)
  | i :: rest =>
      match nth_error ts i with
      | None => interleave s ts rest
      | Some t =>
          let '(s', t') := advance s t in
          interleave s' (set_nth ts i t') rest
      end
  end.

(** ** Stated properties *)

(** At most one Score for every (user, quiz) pair. *)
Definition scores_for (s : Store) (quiz user : Z) : list Score :=
  filter (score_for quiz user) (scores s).

Definition at_most_one_score (s : Store) : Prop :=
  forall user quiz, (List.length (scores_for s quiz user) <= 1)%nat.

(** The user has the Score [id] for a quiz that was available on [day]. *)
Definition taken (s : Store) (quiz user day id : Z) : Prop :=
  (exists sc, existing_score s quiz user = Some sc /\ score_id sc = id)
  /\ exists q, quiz_get s quiz = Some q /\ date_of_quiz q <= day.

(** Text as a form post delivers it: Unicode scalar values, no surrogate
    code points. *)
Definition scalar_value (c : N) : Prop :=
  (c < 55296 \/ (57343 < c /\ c < 1114112))%N.

Definition text (s : pystr) : Prop := Forall scalar_value s.

Definition form_text (f : list (pystr * pystr)) : Prop :=
  Forall (fun kv => text (snd kv)) f.

(** An answer map whose keys and answers are text. *)
Definition entry_text (kv : pystr * option pystr) : Prop :=
  text (fst kv) /\ match snd kv with Some v => text v | None => True end.

Definition dict_text (d : pydict (option pystr)) : Prop := Forall entry_text d.

(** The JSON text of the items of an object from after the opening quote of
    the first key to the end of the document: what the loop of the decoder
    is given. *)
Fixpoint after_quote (kv : pystr * option pystr) (more : pydict (option pystr))
    (rest : pystr) : pystr :=
  flat_map Json.encode_char (fst kv)
    ++ 34%N :: 58%N :: 32%N :: Json.encode_value (snd kv)
    ++ match more with
       | [] => 125%N :: rest
       | kv' :: more' => 44%N :: 32%N :: 34%N :: after_quote kv' more' rest
       end.

(** The bare expression [round(total_scored / total_questions * 100, 2)]. *)
Definition rounded_ratio (total_scored total_questions : Z) : outcome pynum :=
  ratio <- py_truediv (PyInt total_scored) (PyInt total_questions) ;;
  Return (py_round2 (py_mul ratio (PyInt 100))).

(** The mean of a list of numbers: [sum(xs) / len(xs)]. *)
Definition mean (xs : list pynum) : outcome pynum :=
  py_truediv (py_sum xs) (PyInt (Z.of_nat (List.length xs))).

(** Rounding half up to two decimals, as the specification words it: of two
    equally near hundredths the larger in magnitude. *)
Definition div_half_up (n d : Z) : Z :=
  let q := n / d in
  let r := n mod d in
  if 2 * r <? d then q else q + 1.

Definition hundredths_half_up (m : positive) (e : Z) : Z :=
  match e with
  | Zneg p => div_half_up (100 * Zpos m) (2 ^ Zpos p)
  | _ => 100 * Zpos m * 2 ^ e
  end.

Definition float_round2_half_up (x : float) : float :=
  match x with
  | S754_finite s m e => float_of_hundredths s (hundredths_half_up m e)
  | _ => x
  end.

(** [k] is the integer nearest to the hundredths of [m * 2^e], and the
    even one when two are equally near. *)
Definition nearest_hundredth_even (m : positive) (e : Z) (k : Z) : Prop :=
  match e with
  | Zneg p =>
      let d := 2 ^ Zpos p in
      2 * Z.abs (100 * Zpos m - k * d) <= d
      /\ (2 * Z.abs (100 * Zpos m - k * d) = d -> Z.even k = true)
  | _ => k = 100 * Zpos m * 2 ^ e
  end.

(** The value of a percentage before it is rounded:
    [total_scored / total_questions * 100]. *)
Definition ratio_times_100 (total_scored total_questions : Z) : float :=
  float_mul (int_quotient total_scored total_questions) (float_of_int 100).

(** What the dashboard says of one quiz: its number of Scores, and the
    mean of their percentages rounded by [round(_, 2)], or 0 without any. *)
Definition quiz_stat_of (s : Store) (quiz : Quiz) (st : QuizStat) : Prop :=
  stat_quiz st = quiz
  /\ attempts st = Z.of_nat (List.length (scores_of_quiz s (quiz_id quiz)))
  /\ match scores_of_quiz s (quiz_id quiz) with
     | [] => avg_score st = PyInt 0
     | scs =>
         exists ps avg,
           map_outcome percentage scs = Return ps
           /\ mean ps = Return avg
           /\ avg_score st = py_round2 avg
     end.

(** Descending order by a key. *)
Definition descending {A : Type} (key : A -> Z) (a b : A) : Prop := key a >= key b.

Definition more_attempts : QuizStat -> QuizStat -> Prop := descending attempts.

(** A percentage as the code reports it: the integer 0 of an empty
    case, or a [float] that [round(_, 2)] produced. *)
Definition rounded2 (v : pynum) : Prop :=
  v = PyInt 0 \/ exists x, v = PyFloat (float_round2 x).

(** [v] is [round(q, 2)] for the quantity [q], which is a [float]. *)
Definition round2_of (q : outcome pynum) (v : pynum) : Prop :=
  exists x, q = Return (PyFloat x) /\ v = PyFloat (float_round2 x).

(** [v] is the percentage of [a] in [b] as the code reports it: the integer 0
    when [b] is 0, and [round(a / b * 100, 2)] otherwise. *)
Definition ratio_rounded (a b : Z) (v : pynum) : Prop :=
  if b =? 0 then v = PyInt 0
  else v = PyFloat (float_round2 (ratio_times_100 a b)).

(** [v] is the average of the Scores [scs] as the code reports it: the
    integer 0 when there is none, and otherwise [round(_, 2)] of the sum of
    their percentages divided by their number. *)
Definition mean_rounded (scs : list Score) (v : pynum) : Prop :=
  match scs with
  | [] => v = PyInt 0
  | _ :: _ => exists ps, map_outcome percentage scs = Return ps /\ round2_of (mean ps) v
  end.

(** ** routes.py: [results] *)

(** Who sends the request: nobody logged in, or a user with its
    [is_admin] flag. *)
Inductive visitor :=
| Anonymous
| Member (id : Z) (is_admin : bool).

(** [Score.query.get(id)] *)
Definition score_get (s : Store) (id : Z) : option Score :=
  find (fun sc => score_id sc =? id) (scores s).

Inductive results_response :=
| ResultsLogin                  (* [login_required] sends to the login page *)
| ResultsNotFound               (* [get_or_404] *)
| ResultsForbidden              (* [abort(403)] *)
| ResultsPage (score : Score) (quiz : Quiz) (questions : list Question)
              (user_answers : pydict (option pystr))
| ResultsError (e : exn).       (* an exception left the handler *)

Definition results (s : Store) (v : visitor) (id : Z) : results_response :=
  match v with
  | Anonymous => ResultsLogin
  | Member current_user is_admin =>
      match score_get s id with
      | None => ResultsNotFound
      | Some score =>
          if negb (score_user_id score =? current_user) && negb is_admin
          then ResultsForbidden
          else
            match quiz_get s (score_quiz_id score) with
            | None => ResultsError AttributeError
            | Some quiz =>
                let questions := questions_of s (quiz_id quiz) in
                match get_answers score with
                | Raise e => ResultsError e
                | Return user_answers => ResultsPage score quiz questions user_answers
                end
            end
      end
  end.

(** ** The subject of a Score *)

(** The chain [Quiz.query.get], [Chapter.query.get], [Subject.query.get] of
    [get_user_stats]. *)
Definition subject_of (s : Store) (score : Score) : outcome Subject :=
  quiz <- attr (quiz_get s (score_quiz_id score)) ;;
  chapter <- attr (chapter_get s (quiz_chapter_id quiz)) ;;
  attr (subject_get s (chapter_subject_id chapter)).

(** The Score leads to a quiz, a chapter and a subject that exist. *)
Definition linked (s : Store) (score : Score) : bool :=
  match subject_of s score with
  | Return _ => true
  | Raise _ => false
  end.

(** The Score leads to a subject of the given name. *)
Definition in_subject (s : Store) (name : pystr) (score : Score) : bool :=
  match subject_of s score with
  | Return subject => pystr_eqb (subject_name subject) name
  | Raise _ => false
  end.

(** The percentage of a Score, which [percentage] always returns. *)
Definition percent (score : Score) : pynum :=
  match percentage score with
  | Return v => v
  | Raise _ => PyInt 0
  end.

(** What the loop over the scores of a user has accumulated for a subject
    name after the scores [done]. *)
Definition subject_data (s : Store) (done : list Score) (name : pystr)
    : option SubjectData :=
  match filter (in_subject s name) done with
  | [] => None
  | l => Some {| data_total := py_sum (map percent l);
                 data_count := Z.of_nat (List.length l) |}
  end.

(** ** routes.py: the administrator's delete routes

    [login_required] sends a visitor who is not logged in to the login page;
    [admin_required] (lines 21-29) refuses a user who is not an
    administrator. *)
Inductive admin_response :=
| AdminLogin                    (* [login_required]: to the login page *)
| AdminDenied                   (* 'You do not have permission ...' *)
| AdminNotFound                 (* [get_or_404] *)
| AdminDone                     (* the change is committed *)
| AdminPage                     (* the page with the form *)
| AdminError (e : exn).         (* an exception left the handler *)

Definition login_required (v : visitor) (s : Store) (view : Store * admin_response)
    : Store * admin_response :=
  match v with
  | Anonymous => (s, AdminLogin)
  | Member _ _ => view
  end.

Definition admin_required (v : visitor) (s : Store) (view : Store * admin_response)
    : Store * admin_response :=
  match v with
  | Member _ true => view
  | _ => (s, AdminDenied)
  end.

Definition question_get (s : Store) (id : Z) : option Question :=
  find (fun q => question_id q =? id) (questions s).

(** [db.session.delete] of a question. *)
Definition drop_question (s : Store) (id : Z) : Store :=
  {| users := users s; subjects := subjects s; chapters := chapters s;
     quizzes := quizzes s;
     questions := filter (fun q => negb (question_id q =? id)) (questions s);
     scores := scores s |}.

(** [db.session.delete] of a quiz: the relationships [questions] and
    [scores] of [Quiz] cascade, so its questions and its Scores go with it. *)
Definition drop_quiz (s : Store) (id : Z) : Store :=
  {| users := users s; subjects := subjects s; chapters := chapters s;
     quizzes := filter (fun q => negb (quiz_id q =? id)) (quizzes s);
     questions := filter (fun q => negb (question_quiz_id q =? id)) (questions s);
     scores := filter (fun sc => negb (score_quiz_id sc =? id)) (scores s) |}.

(** [db.session.delete] of a chapter: the relationship [quizzes] of
    [Chapter] cascades to each quiz of the chapter. *)
Definition drop_chapter (s : Store) (id : Z) : Store :=
  let s1 :=
    fold_left drop_quiz
      (map quiz_id (filter (fun q => quiz_chapter_id q =? id) (quizzes s))) s in
  {| users := users s1; subjects := subjects s1;
     chapters := filter (fun c => negb (chapter_id c =? id)) (chapters s1);
     quizzes := quizzes s1; questions := questions s1; scores := scores s1 |}.

(** [db.session.delete] of a subject: the relationship [chapters] of
    [Subject] cascades to each chapter of the subject. *)
Definition drop_subject (s : Store) (id : Z) : Store :=
  let s1 :=
    fold_left drop_chapter
      (map chapter_id (filter (fun c => chapter_subject_id c =? id) (chapters s))) s in
  {| users := users s1;
     subjects := filter (fun x => negb (subject_id x =? id)) (subjects s1);
     chapters := chapters s1; quizzes := quizzes s1; questions := questions s1;
     scores := scores s1 |}.

Definition delete_question (s : Store) (v : visitor) (id : Z) : Store * admin_response :=
  login_required v s (admin_required v s
    match question_get s id with
    | None => (s, AdminNotFound)
    | Some question => (drop_question s (question_id question), AdminDone)
    end).

Definition delete_quiz (s : Store) (v : visitor) (id : Z) : Store * admin_response :=
  login_required v s (admin_required v s
    match quiz_get s id with
    | None => (s, AdminNotFound)
    | Some quiz => (drop_quiz s (quiz_id quiz), AdminDone)
    end).

Definition delete_chapter (s : Store) (v : visitor) (id : Z) : Store * admin_response :=
  login_required v s (admin_required v s
    match chapter_get s id with
    | None => (s, AdminNotFound)
    | Some chapter => (drop_chapter s (chapter_id chapter), AdminDone)
    end).

Definition delete_subject (s : Store) (v : visitor) (id : Z) : Store * admin_response :=
  login_required v s (admin_required v s
    match subject_get s id with
    | None => (s, AdminNotFound)
    | Some subject => (drop_subject s (subject_id subject), AdminDone)
    end).

(** Every row refers to a row that exists: a question and a Score to a
    quiz, a quiz to a chapter, a chapter to a subject. *)
Definition well_linked (s : Store) : Prop :=
  Forall (fun q => quiz_get s (question_quiz_id q) <> None) (questions s)
  /\ Forall (fun sc => quiz_get s (score_quiz_id sc) <> None) (scores s)
  /\ Forall (fun q => chapter_get s (quiz_chapter_id q) <> None) (quizzes s)
  /\ Forall (fun c => subject_get s (chapter_subject_id c) <> None) (chapters s).

(** Membership in a list of identifiers. *)
Definition among (ids : list Z) (id : Z) : bool := existsb (Z.eqb id) ids.

(** ** forms.py: [QuizForm]; routes.py: [quizzes] and [edit_quiz]

    Of a posted [QuizForm]: whether it was submitted with a valid CSRF token,
    whether the validators of the library pass ([DataRequired], [Length]),
    and the chapter, date and duration it carries.  The title and the remarks
    are not modelled. *)
Record QuizForm := {
  quiz_form_submitted : bool;
  quiz_form_fields_ok : bool;
  quiz_form_chapter_id : Z;
  quiz_form_date : Z;
  quiz_form_duration : Z
}.

(** [validate_date_of_quiz]: [true] when no [ValidationError] is raised. *)
Definition validate_date_of_quiz (today date_of_quiz : Z) : bool :=
  if date_of_quiz <? today then false else true.

(** [validate_time_duration] *)
Definition validate_time_duration (time_duration : Z) : bool :=
  if time_duration <? 1 then false
  else if time_duration >? 180 then false
  else true.

(** The identifiers of [form.chapter_id.choices]; building the label of a
    chapter reads the name of its subject. *)
Definition chapter_choices (s : Store) : outcome (list Z) :=
  map_outcome
    (fun c => subject <- attr (subject_get s (chapter_subject_id c)) ;;
              Return (chapter_id c))
    (chapters s).

(** [form.validate_on_submit()]: every field must pass; a [SelectField]
    accepts only one of its choices. *)
Definition quiz_form_validate (today : Z) (choices : list Z) (f : QuizForm) : bool :=
  quiz_form_submitted f && quiz_form_fields_ok f
  && among choices (quiz_form_chapter_id f)
  && validate_date_of_quiz today (quiz_form_date f)
  && validate_time_duration (quiz_form_duration f).

Definition next_quiz_id (s : Store) : Z :=
  1 + fold_right Z.max 0 (map quiz_id (quizzes s)).

Definition with_quizzes (s : Store) (l : list Quiz) : Store :=
  {| users := users s; subjects := subjects s; chapters := chapters s;
     quizzes := l; questions := questions s; scores := scores s |}.

Definition quiz_of_form (id : Z) (f : QuizForm) : Quiz :=
  {| quiz_id := id; quiz_chapter_id := quiz_form_chapter_id f;
     date_of_quiz := quiz_form_date f; time_duration := quiz_form_duration f |}.

(** [quizzes], lines 297-319. *)
Definition quizzes_route (s : Store) (v : visitor) (today : Z) (f : QuizForm)
    : Store * admin_response :=
  login_required v s (admin_required v s
    match chapter_choices s with
    | Raise e => (s, AdminError e)
    | Return choices =>
        if quiz_form_validate today choices f
        then (with_quizzes s (quizzes s ++ [quiz_of_form (next_quiz_id s) f]), AdminDone)
        else (s, AdminPage)
    end).

(** [edit_quiz], lines 321-347: the row of the quiz takes the values of the
    form. *)
Definition edit_quiz (s : Store) (v : visitor) (today : Z) (id : Z) (f : QuizForm)
    : Store * admin_response :=
  login_required v s (admin_required v s
    match quiz_get s id with
    | None => (s, AdminNotFound)
    | Some quiz =>
        match chapter_choices s with
        | Raise e => (s, AdminError e)
        | Return choices =>
            if quiz_form_validate today choices f
            then (with_quizzes s
                    (map (fun q => if quiz_id q =? quiz_id quiz
                                   then quiz_of_form (quiz_id q) f else q)
                         (quizzes s)),
                  AdminDone)
            else (s, AdminPage)
        end
    end).

(** The duration of every quiz is between 1 and 180 minutes. *)
Definition durations_in_range (s : Store) : Prop :=
  Forall (fun q => 1 <= time_duration q <= 180) (quizzes s).

(** ** forms.py: [QuestionForm]; routes.py: [questions] and [edit_question]

    Of a posted [QuestionForm]: whether it was submitted with a valid CSRF
    token, whether the validators of the library pass, and the option it
    marks as correct.  The texts are not modelled. *)
Record QuestionForm := {
  question_form_submitted : bool;
  question_form_fields_ok : bool;
  question_form_correct_option : Z
}.

(** The values of the choices of the [RadioField]. *)
Definition correct_option_choices : list Z := [1; 2; 3; 4].

Definition question_form_validate (f : QuestionForm) : bool :=
  question_form_submitted f && question_form_fields_ok f
  && among correct_option_choices (question_form_correct_option f).

Definition next_question_id (s : Store) : Z :=
  1 + fold_right Z.max 0 (map question_id (questions s)).

Definition with_questions (s : Store) (l : list Question) : Store :=
  {| users := users s; subjects := subjects s; chapters := chapters s;
     quizzes := quizzes s; questions := l; scores := scores s |}.

(** [questions], lines 359-383. *)
Definition questions_route (s : Store) (v : visitor) (id : Z) (f : QuestionForm)
    : Store * admin_response :=
  login_required v s (admin_required v s
    match quiz_get s id with
    | None => (s, AdminNotFound)
    | Some quiz =>
        if question_form_validate f
        then (with_questions s
                (questions s ++
                 [{| question_id := next_question_id s;
                     question_quiz_id := quiz_id quiz;
                     correct_option := question_form_correct_option f |}]),
              AdminDone)
        else (s, AdminPage)
    end).

(** [edit_question], lines 385-411. *)
Definition edit_question (s : Store) (v : visitor) (id : Z) (f : QuestionForm)
    : Store * admin_response :=
  login_required v s (admin_required v s
    match question_get s id with
    | None => (s, AdminNotFound)
    | Some question =>
        if question_form_validate f
        then (with_questions s
                (map (fun q => if question_id q =? question_id question
                               then {| question_id := question_id q;
                                       question_quiz_id := question_quiz_id q;
                                       correct_option := question_form_correct_option f |}
                               else q)
                     (questions s)),
              AdminDone)
        else (s, AdminPage)
    end).

(** The correct option of every question is one of the four. *)
Definition options_in_range (s : Store) : Prop :=
  Forall (fun q => 1 <= correct_option q <= 4) (questions s).

(** ** forms.py: [SubjectForm] and [ChapterForm]; routes.py: [subjects],
    [edit_subject], [chapters] and [edit_chapter]

    The descriptions are not modelled, and of a chapter not its name. *)
Record SubjectForm := {
  subject_form_submitted : bool;
  subject_form_fields_ok : bool;
  subject_form_name : pystr
}.

Definition subject_form_validate (f : SubjectForm) : bool :=
  subject_form_submitted f && subject_form_fields_ok f.

Definition next_subject_id (s : Store) : Z :=
  1 + fold_right Z.max 0 (map subject_id (subjects s)).

Definition with_subjects (s : Store) (l : list Subject) : Store :=
  {| users := users s; subjects := l; chapters := chapters s;
     quizzes := quizzes s; questions := questions s; scores := scores s |}.

(** [subjects], lines 198-211. *)
Definition subjects_route (s : Store) (v : visitor) (f : SubjectForm)
    : Store * admin_response :=
  login_required v s (admin_required v s
    (if subject_form_validate f
     then (with_subjects s
             (subjects s ++
              [{| subject_id := next_subject_id s; subject_name := subject_form_name f |}]),
           AdminDone)
     else (s, AdminPage))).

(** [edit_subject], lines 213-231. *)
Definition edit_subject (s : Store) (v : visitor) (id : Z) (f : SubjectForm)
    : Store * admin_response :=
  login_required v s (admin_required v s
    match subject_get s id with
    | None => (s, AdminNotFound)
    | Some subject =>
        if subject_form_validate f
        then (with_subjects s
                (map (fun x => if subject_id x =? subject_id subject
                               then {| subject_id := subject_id x;
                                       subject_name := subject_form_name f |}
                               else x)
                     (subjects s)),
              AdminDone)
        else (s, AdminPage)
    end).

Record ChapterForm := {
  chapter_form_submitted : bool;
  chapter_form_fields_ok : bool;
  chapter_form_subject_id : Z
}.

(** The identifiers of [form.subject_id.choices]. *)
Definition subject_choices (s : Store) : list Z := map subject_id (subjects s).

Definition chapter_form_validate (choices : list Z) (f : ChapterForm) : bool :=
  chapter_form_submitted f && chapter_form_fields_ok f
  && among choices (chapter_form_subject_id f).

Definition next_chapter_id (s : Store) : Z :=
  1 + fold_right Z.max 0 (map chapter_id (chapters s)).

Definition with_chapters (s : Store) (l : list Chapter) : Store :=
  {| users := users s; subjects := subjects s; chapters := l;
     quizzes := quizzes s; questions := questions s; scores := scores s |}.

(** [chapters], lines 243-262. *)
Definition chapters_route (s : Store) (v : visitor) (f : ChapterForm)
    : Store * admin_response :=
  login_required v s (admin_required v s
    (if chapter_form_validate (subject_choices s) f
     then (with_chapters s
             (chapters s ++
              [{| chapter_id := next_chapter_id s;
                  chapter_subject_id := chapter_form_subject_id f |}]),
           AdminDone)
     else (s, AdminPage))).

(** [edit_chapter], lines 264-285. *)
Definition edit_chapter (s : Store) (v : visitor) (id : Z) (f : ChapterForm)
    : Store * admin_response :=
  login_required v s (admin_required v s
    match chapter_get s id with
    | None => (s, AdminNotFound)
    | Some chapter =>
        if chapter_form_validate (subject_choices s) f
        then (with_chapters s
                (map (fun c => if chapter_id c =? chapter_id chapter
                               then {| chapter_id := chapter_id c;
                                       chapter_subject_id := chapter_form_subject_id f |}
                               else c)
                     (chapters s)),
              AdminDone)
        else (s, AdminPage)
    end).

(** ** Requests that write

    The requests of the modelled routes that can change the store, each with
    what it is served with, and the store after serving them one after the
    other. *)
Inductive action :=
| Attempt (c : Call)
| PostSubject (v : visitor) (f : SubjectForm)
| EditSubject (v : visitor) (id : Z) (f : SubjectForm)
| DeleteSubject (v : visitor) (id : Z)
| PostChapter (v : visitor) (f : ChapterForm)
| EditChapter (v : visitor) (id : Z) (f : ChapterForm)
| DeleteChapter (v : visitor) (id : Z)
| PostQuiz (v : visitor) (today : Z) (f : QuizForm)
| EditQuiz (v : visitor) (today : Z) (id : Z) (f : QuizForm)
| DeleteQuiz (v : visitor) (id : Z)
| PostQuestion (v : visitor) (id : Z) (f : QuestionForm)
| EditQuestion (v : visitor) (id : Z) (f : QuestionForm)
| DeleteQuestion (v : visitor) (id : Z).

Definition perform (s : Store) (a : action) : Store :=
  match a with
  | Attempt c => fst (serve s c)
  | PostSubject v f => fst (subjects_route s v f)
  | EditSubject v id f => fst (edit_subject s v id f)
  | DeleteSubject v id => fst (delete_subject s v id)
  | PostChapter v f => fst (chapters_route s v f)
  | EditChapter v id f => fst (edit_chapter s v id f)
  | DeleteChapter v id => fst (delete_chapter s v id)
  | PostQuiz v today f => fst (quizzes_route s v today f)
  | EditQuiz v today id f => fst (edit_quiz s v today id f)
  | DeleteQuiz v id => fst (delete_quiz s v id)
  | PostQuestion v id f => fst (questions_route s v id f)
  | EditQuestion v id f => fst (edit_question s v id f)
  | DeleteQuestion v id => fst (delete_question s v id)
  end.

Definition perform_all (s : Store) (l : list action) : Store := fold_left perform l s.

(** The store of a new installation, with the given users. *)
Definition new_store (us : list Z) : Store :=
  {| users := us; subjects := []; chapters := []; quizzes := []; questions := [];
     scores := [] |}.

(** ** forms.py: [RegistrationForm]; routes.py: [register]

    A [date] with its year, month and day. *)
Record date := {
  year : Z;
  month : Z;
  day : Z
}.

(** [(a, b) < (c, d)] on pairs of integers. *)
Definition tuple_lt (a b : Z * Z) : bool :=
  (fst a <? fst b) || ((fst a =? fst b) && (snd a <? snd b)).

(** A [bool] as a number. *)
Definition int_of_bool (b : bool) : Z := if b then 1 else 0.

(** The age computed by [validate_dob]. *)
Definition age (today dob : date) : Z :=
  year today - year dob
  - int_of_bool (tuple_lt (month today, day today) (month dob, day dob)).

(** [validate_dob]: [true] when no [ValidationError] is raised; the field is
    optional. *)
Definition validate_dob (today : date) (dob : option date) : bool :=
  match dob with
  | None => true
  | Some d =>
      if age today d <? 16 then false
      else if age today d >? 100 then false
      else true
  end.

(** The User table, of each row the identifier, the email address, the
    username and whether the user is an administrator. *)
Record User := {
  user_id : Z;
  user_email : pystr;
  user_username : pystr;
  user_is_admin : bool
}.

(** [validate_email] and [validate_username] *)
Definition validate_email (accounts : list User) (email : pystr) : bool :=
  match find (fun u => pystr_eqb (user_email u) email) accounts with
  | Some _ => false
  | None => true
  end.

Definition validate_username (accounts : list User) (username : pystr) : bool :=
  match find (fun u => pystr_eqb (user_username u) username) accounts with
  | Some _ => false
  | None => true
  end.

(** Of a posted [RegistrationForm]: whether it was submitted with a valid
    CSRF token, whether the validators of the library pass, and the email
    address, username and date of birth it carries. *)
Record RegistrationForm := {
  registration_submitted : bool;
  registration_fields_ok : bool;
  registration_email : pystr;
  registration_username : pystr;
  registration_dob : option date
}.

Definition registration_validate (today : date) (accounts : list User)
    (f : RegistrationForm) : bool :=
  registration_submitted f && registration_fields_ok f
  && validate_email accounts (registration_email f)
  && validate_username accounts (registration_username f)
  && validate_dob today (registration_dob f).

Definition next_user_id (accounts : list User) : Z :=
  1 + fold_right Z.max 0 (map user_id accounts).

Inductive register_response :=
| RegisterIndex      (* a logged-in visitor is sent to the index page *)
| RegisterLogin      (* the account was created *)
| RegisterPage.      (* the form is shown *)

(** [register], lines 159-181. *)
Definition register (accounts : list User) (is_authenticated : bool) (today : date)
    (f : RegistrationForm) : list User * register_response :=
  if is_authenticated then (accounts, RegisterIndex)
  else if registration_validate today accounts f
  then (accounts ++
        [{| user_id := next_user_id accounts; user_email := registration_email f;
            user_username := registration_username f; user_is_admin := false |}],
        RegisterLogin)
  else (accounts, RegisterPage).

(** ** app.py: the administrator created at start-up, lines 139-150

    The columns [email] and [username] are declared unique, so the insert
    fails when a row has the same email address or username. *)
Inductive startup :=
| Started (accounts : list User)
| IntegrityError.

Definition admin_account (id : Z) : User :=
  {| user_id := id; user_email := pystr_of_string "admin@quizmaster.com";
     user_username := pystr_of_string "admin"; user_is_admin := true |}.

Definition violates_unique (accounts : list User) (u : User) : bool :=
  existsb (fun a => pystr_eqb (user_email a) (user_email u)
                    || pystr_eqb (user_username a) (user_username u)) accounts.

Definition create_admin (accounts : list User) : startup :=
  match find user_is_admin accounts with
  | Some _ => Started accounts
  | None =>
      if violates_unique accounts (admin_account (next_user_id accounts))
      then IntegrityError
      else Started (accounts ++ [admin_account (next_user_id accounts)])
  end.

(** Registration requests served one after the other, each with whether the
    visitor is logged in, the day, and the form. *)
Definition register_all (accounts : list User)
    (l : list (bool * date * RegistrationForm)) : list User :=
  fold_left (fun acc r => fst (register acc (fst (fst r)) (snd (fst r)) (snd r))) l accounts.

(** The date of the birthday [n] years after [d], and the order of dates. *)
Definition years_later (n : Z) (d : date) : date :=
  {| year := year d + n; month := month d; day := day d |}.

Definition date_le (a b : date) : Prop :=
  year a < year b
  \/ (year a = year b
      /\ (month a < month b \/ (month a = month b /\ day a <= day b))).

(** The [float]s 0.0 and 100.0. *)
Definition float_zero : float := S754_zero false.
Definition float_hundred : float := S754_finite false 7036874417766400 (-46).

(** ** Grading, question by question *)

(** The posted answer of a question is read as its correct option. *)
Definition answered_correctly (f : list (pystr * pystr)) (q : Question) : bool :=
  match posted_answer f q with
  | Some (c :: t) =>
      match py_int (c :: t) with
      | Some n => n =? correct_option q
      | None => false
      end
  | _ => false
  end.

(** The posted answer of a question is not empty and [int] refuses it. *)
Definition unreadable (f : list (pystr * pystr)) (q : Question) : bool :=
  match posted_answer f q with
  | Some (c :: t) =>
      match py_int (c :: t) with
      | Some _ => false
      | None => true
      end
  | _ => false
  end.

(** What a page of radio buttons posts for a question: the decimal text of
    the option chosen, or nothing. *)
Definition posts_choice (f : list (pystr * pystr)) (choice : Question -> option Z)
    (q : Question) : Prop :=
  match choice q with
  | Some k => 1 <= k <= 4 /\ posted_answer f q = Some (py_str_int k)
  | None => posted_answer f q = None
  end.

Definition chose_correct (choice : Question -> option Z) (q : Question) : bool :=
  match choice q with
  | Some k => k =? correct_option q
  | None => false
  end.

(** The primary keys of the Score table are distinct. *)
Definition score_ids_distinct (s : Store) : Prop := NoDup (map score_id (scores s)).

(** What every store reached by such requests satisfies. *)
Definition sound (s : Store) : Prop :=
  well_linked s /\ at_most_one_score s /\ score_ids_distinct s
  /\ options_in_range s /\ durations_in_range s.

(** A table after a request that only deletes from it, or leaves it alone. *)
Definition thinned {A} (before after : list A) : Prop :=
  exists keep, after = filter keep before.

(** The answers column of every Score can be read. *)
Definition answers_readable (s : Store) : Prop :=
  Forall (fun sc => exists d, get_answers sc = Return d) (scores s).

(** The form an attempt posts holds text: no value has a code point that is
    not a Unicode scalar value. *)
Definition posts_text (a : action) : Prop :=
  match a with
  | Attempt c => form_text (form (call_request c))
  | _ => True
  end.

(** ** Example stores and requests *)
Definition quiz_on (id day : Z) : Quiz :=
  {| quiz_id := id; quiz_chapter_id := 1; date_of_quiz := day; time_duration := 30 |}.

Definition question_of (id quiz option : Z) : Question :=
  {| question_id := id; question_quiz_id := quiz; correct_option := option |}.

Definition store0 : Store :=
  {| users := [7; 8]; subjects := [{| subject_id := 1; subject_name := pystr_of_string "Maths" |}];
     chapters := [{| chapter_id := 1; chapter_subject_id := 1 |}];
     quizzes := [quiz_on 1 10];
     questions := [question_of 1 1 1; question_of 2 1 3];
     scores := [] |}.

Definition post (fields : list (string * string)) : Request :=
  {| validate_on_submit := true;
     form := map (fun kv => (pystr_of_string (fst kv), pystr_of_string (snd kv))) fields |}.

Definition get_request : Request := {| validate_on_submit := false; form := [] |}.

(** The store after user 7 took quiz 1 and the quiz was then moved to a
    later day. *)
Definition score_of (id quiz user scored total : Z) : Score :=
  {| score_id := id; score_quiz_id := quiz; score_user_id := user; time_stamp := 0;
     total_scored := scored; total_questions := total; answers := None |}.

Definition store_taken : Store := with_scores store0 [score_of 1 1 7 1 2].

Definition call (today user quiz : Z) (req : Request) : Call :=
  {| call_today := today; call_now := 0; call_user := user; call_quiz := quiz;
     call_request := req |}.

(** User 7 posts answers to quiz 1 on the day of the quiz. *)
Definition call_a : Call :=
  call 10 7 1 (post [("question_1", "1"); ("question_2", "2")]%string).

(** Quiz 1 with four questions taken by eight users: one scored 1 of 4, the
    others 0 of 4. *)
Definition store_eight : Store :=
  with_scores store0
    (map (fun i => score_of i 1 i (if i =? 1 then 1 else 0) 4) [1; 2; 3; 4; 5; 6; 7; 8]).

(** Four quizzes; quizzes 2 and 4 were taken twice each, 1 and 3 never. *)
Definition store_four : Store :=
  {| users := [7; 8]; subjects := subjects store0; chapters := chapters store0;
     quizzes := [quiz_on 1 10; quiz_on 2 10; quiz_on 3 10; quiz_on 4 10];
     questions := [question_of 1 2 1; question_of 2 4 1];
     scores := [score_of 1 4 7 1 1; score_of 2 2 7 0 1; score_of 3 2 8 1 1;
                score_of 4 4 8 1 1] |}.

(** An administrator, and forms that validate: quiz 1 moved to day 20 with
    45 minutes, and a question whose correct option is the second. *)
Definition admin : visitor := Member 1 true.

Definition quiz_form_20 : QuizForm :=
  {| quiz_form_submitted := true; quiz_form_fields_ok := true;
     quiz_form_chapter_id := 1; quiz_form_date := 20; quiz_form_duration := 45 |}.

Definition question_form_2 : QuestionForm :=
  {| question_form_submitted := true; question_form_fields_ok := true;
     question_form_correct_option := 2 |}.

(** A subject, a chapter, a quiz and a question are created and a user takes
    the quiz on its day; then the subject is deleted. *)
Definition subject_form_maths : SubjectForm :=
  {| subject_form_submitted := true; subject_form_fields_ok := true;
     subject_form_name := pystr_of_string "Maths" |}.

Definition chapter_form_1 : ChapterForm :=
  {| chapter_form_submitted := true; chapter_form_fields_ok := true;
     chapter_form_subject_id := 1 |}.

Definition session : list action :=
  [PostSubject admin subject_form_maths; PostChapter admin chapter_form_1;
   PostQuiz admin 10 quiz_form_20; PostQuestion admin 1 question_form_2;
   Attempt (call 20 7 1 (post [("question_1", "2")]%string))].

Definition session_end : list action := session ++ [DeleteSubject admin 1].

(** Registrations on 3 November 2026, by a visitor born on 4 November
    2010 and by one born a day earlier. *)
Definition registration_day : date := {| year := 2026; month := 11; day := 3 |}.

Definition registration_of (name : string) (dob : date) : RegistrationForm :=
  {| registration_submitted := true; registration_fields_ok := true;
     registration_email := pystr_of_string name; registration_username := pystr_of_string name;
     registration_dob := Some dob |}.

(** * Properties *)

(** ** Text and dictionaries *)

Lemma pystr_eqb_eq a b : pystr_eqb a b = true <-> a = b.
Proof. unfold pystr_eqb. destruct (list_eq_dec N.eq_dec a b); intuition congruence. Qed.

Lemma pystr_eqb_refl a : pystr_eqb a a = true.
Proof. now apply pystr_eqb_eq. Qed.


(** ** The attempt route *)

Lemma attempt_check_not_available s today user quiz q :
  quiz_get s quiz = Some q ->
  (attempt_check s today user quiz = Refused NotAvailable <-> date_of_quiz q > today).
Proof.
  intros Hq. unfold attempt_check. rewrite Hq.
  destruct (date_of_quiz q >? today) eqn:Hd.
  - apply Z.gtb_lt in Hd. split; [lia | reflexivity].
  - assert (date_of_quiz q <= today) by (rewrite Z.gtb_ltb in Hd; apply Z.ltb_ge in Hd; lia).
    split; [| lia].
    destruct (existing_score s quiz user); [discriminate |].
    destruct (questions_of s quiz); discriminate.
Qed.

Lemma attempt_submit_not_refusal s now user quiz req qs :
  snd (attempt_submit s now user quiz req qs) <> NotAvailable.
Proof.
  unfold attempt_submit. destruct (validate_on_submit req); [| discriminate].
  destruct (grade _ _ _ _) as [[ts d] | e]; discriminate.
Qed.

(** C7: for a quiz that exists, the attempt route answers "not yet
    available" exactly when the quiz's date is strictly after today; a quiz
    dated today or earlier passes this check. *)
Theorem not_available_iff_future s today now user quiz req q :
  quiz_get s quiz = Some q ->
  (snd (attempt_quiz s today now user quiz req) = NotAvailable
   <-> date_of_quiz q > today).
Proof.
  intros Hq. pose proof (attempt_check_not_available s today user quiz q Hq) as Hc.
  unfold attempt_quiz. destruct (attempt_check s today user quiz) as [r | qs] eqn:Hk.
  - simpl. split.
    + intros ->. now apply Hc.
    + intros Hd. apply Hc in Hd. congruence.
  - split.
    + intros Hn. now apply attempt_submit_not_refusal in Hn.
    + intros Hd. apply Hc in Hd. discriminate.
Qed.

Lemma not_available_iff_future_witness :
  (snd (attempt_quiz store0 9 0 7 1 get_request) = NotAvailable <-> 10 > 9)
  /\ (snd (attempt_quiz store0 10 0 7 1 get_request) = NotAvailable <-> 10 > 10).
Proof.
  split.
  - apply (not_available_iff_future store0 9 0 7 1 get_request (quiz_on 1 10)). reflexivity.
  - apply (not_available_iff_future store0 10 0 7 1 get_request (quiz_on 1 10)). reflexivity.
Defined.

(** *** A second attempt *)

Lemma attempt_quiz_appends s today now user quiz req :
  exists new, scores (fst (attempt_quiz s today now user quiz req)) = scores s ++ new.
Proof.
  unfold attempt_quiz.
  destruct (attempt_check s today user quiz) as [r | qs].
  - exists []. simpl. now rewrite app_nil_r.
  - unfold attempt_submit. destruct (validate_on_submit req).
    + destruct (grade _ _ _ _) as [[ts d] | e].
      * eexists. reflexivity.
      * exists []. simpl. now rewrite app_nil_r.
    + exists []. simpl. now rewrite app_nil_r.
Qed.

Lemma existing_score_in s quiz user sc :
  existing_score s quiz user = Some sc ->
  In sc (scores s) /\ score_quiz_id sc = quiz /\ score_user_id sc = user.
Proof.
  unfold existing_score. intros H. apply find_some in H as [Hin Hf].
  unfold score_for in Hf. apply andb_true_iff in Hf as [H1 H2].
  apply Z.eqb_eq in H1, H2. auto.
Qed.

Lemma attempt_quiz_existing s today now user quiz req q sc :
  quiz_get s quiz = Some q ->
  date_of_quiz q <= today ->
  existing_score s quiz user = Some sc ->
  attempt_quiz s today now user quiz req = (s, AlreadyAttempted (score_id sc)).
Proof.
  intros Hq Hd He. unfold attempt_quiz, attempt_check. rewrite Hq.
  replace (date_of_quiz q >? today) with false by (symmetry; rewrite Z.gtb_ltb; apply Z.ltb_ge; lia).
  now rewrite He.
Qed.

(** C6, as the code has it: every call of the attempt route only ever
    appends to the Score table, and when the quiz exists, is not dated in
    the future, and the user already has a Score for it, the call is refused
    with "already attempted", names that Score, which is one of this user
    for this quiz, and leaves the store as it was. *)
Theorem second_attempt_refused s today now user quiz req :
  (exists new, scores (fst (attempt_quiz s today now user quiz req)) = scores s ++ new)
  /\ forall q sc,
      quiz_get s quiz = Some q ->
      date_of_quiz q <= today ->
      existing_score s quiz user = Some sc ->
      attempt_quiz s today now user quiz req = (s, AlreadyAttempted (score_id sc))
      /\ In sc (scores s) /\ score_quiz_id sc = quiz /\ score_user_id sc = user.
Proof.
  split; [apply attempt_quiz_appends |].
  intros q sc Hq Hd He. split.
  - now apply attempt_quiz_existing with q.
  - now apply existing_score_in.
Qed.

Lemma second_attempt_refused_witness :
  attempt_quiz store_taken 10 0 7 1 (post [("question_1", "1")]%string)
  = (store_taken, AlreadyAttempted 1).
Proof.
  apply (proj2 (second_attempt_refused store_taken 10 0 7 1 (post [("question_1", "1")]%string))
           (quiz_on 1 10) (score_of 1 1 7 1 2)).
  - reflexivity.
  - simpl. lia.
  - reflexivity.
Defined.

(** C6 as stated fails: the availability check comes first, so when the
    quiz has been moved to a later day after the user took it, a second
    attempt is answered "not yet available", not "already attempted". *)
Lemma second_attempt_of_rescheduled_quiz :
  ~ (forall s today now user quiz req sc,
        existing_score s quiz user = Some sc ->
        snd (attempt_quiz s today now user quiz req) = AlreadyAttempted (score_id sc)).
Proof.
  intros H.
  specialize (H store_taken 9 0 7 1 get_request (score_of 1 1 7 1 2) eq_refl).
  vm_compute in H. discriminate.
Qed.

(** *** One Score for a user and a quiz *)

Lemma attempt_check_cleared s today user quiz qs :
  attempt_check s today user quiz = Cleared qs ->
  (exists q, quiz_get s quiz = Some q /\ date_of_quiz q <= today)
  /\ existing_score s quiz user = None
  /\ qs = questions_of s quiz /\ qs <> [].
Proof.
  unfold attempt_check. destruct (quiz_get s quiz) as [q |]; [| discriminate].
  destruct (date_of_quiz q >? today) eqn:Hd; [discriminate |].
  destruct (existing_score s quiz user); [discriminate |].
  destruct (questions_of s quiz) as [| q0 l] eqn:Hqs; [discriminate |].
  intros [= <-]. repeat split; try discriminate.
  exists q. split; [reflexivity |].
  rewrite Z.gtb_ltb in Hd. apply Z.ltb_ge in Hd. lia.
Qed.

Lemma serve_cases s c :
  (fst (serve s c) = s /\ forall id, snd (serve s c) <> Submitted id)
  \/ (exists sc,
        serve s c = (add_score s sc, Submitted (score_id sc))
        /\ score_quiz_id sc = call_quiz c /\ score_user_id sc = call_user c
        /\ existing_score s (call_quiz c) (call_user c) = None
        /\ exists q, quiz_get s (call_quiz c) = Some q /\ date_of_quiz q <= call_today c).
Proof.
  unfold serve, attempt_quiz.
  destruct (attempt_check s (call_today c) (call_user c) (call_quiz c)) as [r | qs] eqn:Hk.
  - left. split; [reflexivity |]. intros id. simpl.
    unfold attempt_check in Hk.
    destruct (quiz_get s (call_quiz c)) as [q |]; [| inversion Hk; discriminate].
    destruct (date_of_quiz q >? call_today c); [inversion Hk; discriminate |].
    destruct (existing_score s (call_quiz c) (call_user c)); [inversion Hk; discriminate |].
    destruct (questions_of s (call_quiz c)); [inversion Hk; discriminate | discriminate].
  - apply attempt_check_cleared in Hk as (Hq & He & _ & _).
    unfold attempt_submit. destruct (validate_on_submit (call_request c)).
    + destruct (grade _ _ _ _) as [[ts d] | e].
      * right. eexists. split; [reflexivity |]. simpl. auto.
      * left. split; [reflexivity | discriminate].
    + left. split; [reflexivity | discriminate].
Qed.

Lemma find_none_filter {A} (f : A -> bool) l : find f l = None -> filter f l = [].
Proof.
  induction l as [| x l IH]; simpl; [reflexivity |].
  destruct (f x); [discriminate | exact IH].
Qed.

Lemma find_app_some {A} (f : A -> bool) l l' x :
  find f l = Some x -> find f (l ++ l') = Some x.
Proof.
  induction l as [| y l IH]; simpl; [discriminate |].
  destruct (f y); auto.
Qed.

Lemma find_app_none {A} (f : A -> bool) l l' :
  find f l = None -> find f (l ++ l') = find f l'.
Proof.
  induction l as [| y l IH]; simpl; [reflexivity |].
  destruct (f y); [discriminate | auto].
Qed.

Lemma score_for_other sc quiz user :
  (score_quiz_id sc, score_user_id sc) <> (quiz, user) -> score_for quiz user sc = false.
Proof.
  intros H. unfold score_for.
  destruct (score_quiz_id sc =? quiz) eqn:H1; [| reflexivity].
  destruct (score_user_id sc =? user) eqn:H2; [| reflexivity].
  apply Z.eqb_eq in H1, H2. congruence.
Qed.

Lemma serve_keeps_one_score s c :
  at_most_one_score s -> at_most_one_score (fst (serve s c)).
Proof.
  intros Hs. destruct (serve_cases s c) as [[-> _] | (sc & -> & Hq & Hu & He & _)]; [exact Hs |].
  intros user quiz. unfold scores_for, add_score. simpl. rewrite filter_app, length_app. simpl.
  destruct (Z.eq_dec quiz (call_quiz c)) as [-> | Hn].
  - destruct (Z.eq_dec user (call_user c)) as [-> | Hn].
    + unfold existing_score in He. apply find_none_filter in He. rewrite He.
      destruct (score_for _ _ sc); simpl; lia.
    + rewrite score_for_other by congruence. simpl. specialize (Hs user (call_quiz c)).
      unfold scores_for in Hs. lia.
  - rewrite score_for_other by congruence. simpl. specialize (Hs user quiz).
    unfold scores_for in Hs. lia.
Qed.

Lemma run_cons s c cs :
  run s (c :: cs) = (fst (run (fst (serve s c)) cs), snd (serve s c) :: snd (run (fst (serve s c)) cs)).
Proof.
  simpl. destruct (serve s c) as [s1 r]. simpl. now destruct (run s1 cs).
Qed.

Lemma run_keeps_one_score cs : forall s,
  at_most_one_score s -> at_most_one_score (fst (run s cs)).
Proof.
  induction cs as [| c cs IH]; intros s Hs; [exact Hs |].
  rewrite run_cons. simpl. apply IH. now apply serve_keeps_one_score.
Qed.

Lemma serve_keeps_taken s c quiz user day id :
  taken s quiz user day id -> taken (fst (serve s c)) quiz user day id.
Proof.
  intros [(sc & He & Hid) Hq].
  destruct (serve_cases s c) as [[-> _] | (sc' & -> & _)]; [now split; eauto |].
  split; [| exact Hq]. exists sc. split; [| exact Hid].
  unfold existing_score, add_score. simpl. now apply find_app_some.
Qed.

Lemma serve_taken s c day id :
  taken s (call_quiz c) (call_user c) day id ->
  snd (serve s c) = AlreadyAttempted id
  \/ (call_today c < day /\ snd (serve s c) = NotAvailable).
Proof.
  intros [(sc & He & Hid) (q & Hq & Hd)].
  destruct (Z_lt_le_dec (call_today c) (date_of_quiz q)) as [Hlt | Hle].
  - right. split; [lia |].
    unfold serve, attempt_quiz, attempt_check. rewrite Hq.
    replace (date_of_quiz q >? call_today c) with true
      by (symmetry; apply Z.gtb_lt; lia).
    reflexivity.
  - left. unfold serve. rewrite (attempt_quiz_existing _ _ _ _ _ _ q sc Hq Hle He).
    simpl. now rewrite Hid.
Qed.

Lemma run_taken cs : forall s j cj day id,
  taken s (call_quiz cj) (call_user cj) day id ->
  nth_error cs j = Some cj ->
  nth_error (snd (run s cs)) j = Some (AlreadyAttempted id)
  \/ (call_today cj < day /\ nth_error (snd (run s cs)) j = Some NotAvailable).
Proof.
  induction cs as [| c cs IH]; intros s j cj day id Ht Hj.
  - destruct j; discriminate.
  - rewrite run_cons. destruct j as [| j]; simpl in *.
    + injection Hj as ->. destruct (serve_taken s cj day id Ht) as [-> | [Hlt ->]]; auto.
    + apply IH; [| exact Hj]. now apply serve_keeps_taken.
Qed.

Lemma serve_submitted_taken s c id :
  snd (serve s c) = Submitted id ->
  taken (fst (serve s c)) (call_quiz c) (call_user c) (call_today c) id.
Proof.
  intros Hr. destruct (serve_cases s c) as [[_ Hn] | (sc & Hs & Hq & Hu & He & q & Hg & Hd)].
  - now apply Hn in Hr.
  - rewrite Hs in *. simpl in *. injection Hr as <-. split.
    + exists sc. split; [| reflexivity].
      unfold existing_score, add_score in *. simpl.
      rewrite find_app_none by exact He. simpl.
      unfold score_for. rewrite Hq, Hu, !Z.eqb_refl. reflexivity.
    + exists q. auto.
Qed.

Lemma run_after_submitted cs : forall s i j ci cj id,
  (i < j)%nat ->
  nth_error cs i = Some ci -> nth_error cs j = Some cj ->
  call_user cj = call_user ci -> call_quiz cj = call_quiz ci ->
  nth_error (snd (run s cs)) i = Some (Submitted id) ->
  nth_error (snd (run s cs)) j = Some (AlreadyAttempted id)
  \/ (call_today cj < call_today ci /\ nth_error (snd (run s cs)) j = Some NotAvailable).
Proof.
  induction cs as [| c cs IH]; intros s i j ci cj id Hij Hi Hj Hu Hq Hr.
  - destruct i; discriminate.
  - rewrite run_cons in *. destruct j as [| j]; [lia |]. destruct i as [| i]; simpl in *.
    + injection Hi as ->. injection Hr as Hr.
      apply run_taken; [| exact Hj]. rewrite Hu, Hq. now apply serve_submitted_taken.
    + apply (IH _ i j ci cj id); auto. lia.
Qed.

(** For calls served one after the other: from a store with at most
    one Score for every user and quiz, any sequence of calls of the attempt
    route leaves at most one Score for every user and quiz; and once a call
    has been answered with a new Score, every later call of the same user
    for the same quiz is refused with "already attempted" naming that Score
    (or with "not yet available", when it is served with an earlier day),
    and so creates none. *)
Theorem one_score_per_pair_in_sequence s cs :
  at_most_one_score s ->
  at_most_one_score (fst (run s cs))
  /\ forall i j ci cj id,
      (i < j)%nat ->
      nth_error cs i = Some ci -> nth_error cs j = Some cj ->
      call_user cj = call_user ci -> call_quiz cj = call_quiz ci ->
      nth_error (snd (run s cs)) i = Some (Submitted id) ->
      nth_error (snd (run s cs)) j = Some (AlreadyAttempted id)
      \/ (call_today cj < call_today ci
          /\ nth_error (snd (run s cs)) j = Some NotAvailable).
Proof.
  intros Hs. split.
  - now apply run_keeps_one_score.
  - intros. eapply run_after_submitted; eauto.
Qed.

Lemma one_score_per_pair_in_sequence_witness :
  at_most_one_score (fst (run store0 [call_a; call_a]))
  /\ (nth_error (snd (run store0 [call_a; call_a])) 1 = Some (AlreadyAttempted 1)
      \/ (call_today call_a < call_today call_a
          /\ nth_error (snd (run store0 [call_a; call_a])) 1 = Some NotAvailable)).
Proof.
  assert (H0 : at_most_one_score store0) by (intros u q; simpl; lia).
  destruct (one_score_per_pair_in_sequence store0 [call_a; call_a] H0) as [H1 H2].
  split; [exact H1 |].
  apply (H2 0%nat 1%nat call_a call_a 1); try reflexivity. lia.
Defined.

(** A call that is not interleaved with another is served as the handler
    serves it. *)
Lemma interleave_alone s c :
  interleave s [Arrived c] [0; 0]%nat = (fst (serve s c), [Replied (snd (serve s c))]).
Proof.
  unfold serve, attempt_quiz. simpl.
  destruct (attempt_check s (call_today c) (call_user c) (call_quiz c)); simpl;
    [reflexivity |].
  now destruct (attempt_submit _ _ _ _ _ _).
Qed.

(** C1: the handler looks for an earlier Score of the user for the quiz
    before it adds one (lines 472-476), but nothing keeps the look-up and the
    insert together.  Two submissions of user 7 for quiz 1 served at the same
    time: when both do their reads before either writes, both pass the check,
    both are answered with a new Score, and the user has two Scores for the
    quiz, where the claim has the second one refused. *)
Lemma concurrent_attempts_duplicate_score :
  at_most_one_score store0
  /\ snd (interleave store0 [Arrived call_a; Arrived call_a] [0; 1; 0; 1]%nat)
     = [Replied (Submitted 1); Replied (Submitted 2)]
  /\ ~ at_most_one_score
         (fst (interleave store0 [Arrived call_a; Arrived call_a] [0; 1; 0; 1]%nat)).
Proof.
  split; [intros u q; simpl; lia |]. split; [vm_compute; reflexivity |].
  intros H. specialize (H 7 1). vm_compute in H. lia.
Qed.

(** *** Grading *)

Lemma is_correct_unanswered question a :
  truthy a = false -> is_correct question a = Return false.
Proof. unfold is_correct. now intros ->. Qed.

Lemma is_correct_number question c t n :
  py_int (c :: t) = Some n ->
  is_correct question (Some (c :: t)) = Return (n =? correct_option question).
Proof. unfold is_correct. simpl. now intros ->. Qed.

Lemma is_correct_not_a_number question c t :
  py_int (c :: t) = None -> is_correct question (Some (c :: t)) = Raise ValueError.
Proof. unfold is_correct. simpl. now intros ->. Qed.

(** C2: an answer that is not a number is not scored as incorrect: [int]
    raises [ValueError], the exception leaves the handler and no Score is
    written. *)
Theorem non_numeric_answer_raises :
  form_get (form (post [("question_1", "abc")]%string)) (field_name (py_str_int 1))
  = Some (pystr_of_string "abc")
  /\ attempt_quiz store0 10 0 7 1 (post [("question_1", "abc")]%string)
     = (store0, ServerError ValueError).
Proof. split; vm_compute; reflexivity. Qed.

(** *** The Score that a submission creates *)

Lemma pystr_of_string_inj a b : pystr_of_string a = pystr_of_string b -> a = b.
Proof.
  unfold pystr_of_string. intros H.
  rewrite <- (string_of_list_ascii_of_string a), <- (string_of_list_ascii_of_string b).
  f_equal. revert H. generalize (list_ascii_of_string a) (list_ascii_of_string b).
  intros l. induction l as [| x l IH]; intros [| y l'] H; try discriminate; [reflexivity |].
  simpl in H. injection H as Hxy Hl. f_equal; [| now apply IH].
  rewrite <- (ascii_N_embedding x), <- (ascii_N_embedding y). now rewrite Hxy.
Qed.

Lemma py_str_int_inj a b : py_str_int a = py_str_int b -> a = b.
Proof.
  unfold py_str_int. intros H. apply pystr_of_string_inj in H.
  apply DecimalZ.to_int_inj.
  assert (Some (Z.to_int a) = Some (Z.to_int b)) as [= ->]; [| reflexivity].
  rewrite <- !NilEmpty.isi. now rewrite H.
Qed.

Section DictFacts.
Context {V : Type}.
Implicit Types (d : pydict V) (k : pystr) (v : V).

Lemma dict_set_new d k v :
  ~ In k (dict_keys d) -> dict_set d k v = d ++ [(k, v)].
Proof.
  induction d as [| [k' v'] d IH]; simpl; intros Hn; [reflexivity |].
  destruct (pystr_eqb k' k) eqn:He.
  - apply pystr_eqb_eq in He. tauto.
  - now rewrite IH by tauto.
Qed.

Lemma dict_set_keys_in d k v k' :
  In k' (dict_keys (dict_set d k v)) -> k' = k \/ In k' (dict_keys d).
Proof.
  induction d as [| [k2 v2] d IH]; simpl.
  - intros [<- | []]. now left.
  - destruct (pystr_eqb k2 k); simpl; intuition.
Qed.

Lemma dict_set_keys_nodup d k v :
  NoDup (dict_keys d) -> NoDup (dict_keys (dict_set d k v)).
Proof.
  induction d as [| [k' v'] d IH]; simpl; intros Hd.
  - constructor; [tauto | constructor].
  - inversion Hd as [| ? ? Hn Hd']; subst.
    destruct (pystr_eqb k' k) eqn:He.
    + apply pystr_eqb_eq in He. subst. simpl. now constructor.
    + simpl. constructor; [| now apply IH].
      intros Hin. apply dict_set_keys_in in Hin as [-> | Hin]; [| tauto].
      now rewrite pystr_eqb_refl in He.
Qed.
Lemma dict_get_set_same d k v : dict_get (dict_set d k v) k = Some v.
Proof.
  induction d as [| [k' v'] d IH]; simpl; [now rewrite pystr_eqb_refl |].
  destruct (pystr_eqb k' k) eqn:E; simpl; [now rewrite pystr_eqb_refl | now rewrite E].
Qed.

Lemma dict_get_set_other d k v k' :
  k' <> k -> dict_get (dict_set d k v) k' = dict_get d k'.
Proof.
  intros Hn. induction d as [| [k2 v2] d IH]; simpl.
  - destruct (pystr_eqb k k') eqn:E; [apply pystr_eqb_eq in E; congruence | reflexivity].
  - destruct (pystr_eqb k2 k) eqn:E; simpl.
    + apply pystr_eqb_eq in E. subst k2.
      destruct (pystr_eqb k k') eqn:E'; [apply pystr_eqb_eq in E'; congruence | reflexivity].
    + now rewrite IH.
Qed.

End DictFacts.

Lemma grade_returns f qs : forall ts d ts' d',
  grade f qs ts d = Return (ts', d') ->
  ts <= ts' <= ts + Z.of_nat (List.length qs)
  /\ d' = fold_left (record_answer f) qs d.
Proof.
  induction qs as [| q qs IH]; simpl; intros ts d ts' d' H.
  - injection H as <- <-. split; [lia | reflexivity].
  - destruct (is_correct q _) as [hit | e]; [| discriminate]. simpl in H.
    apply IH in H as [Hts ->]. split; [| reflexivity].
    destruct hit; lia.
Qed.

Lemma fold_dict_set_keys {V} (value : Question -> V) qs : forall d,
  NoDup (dict_keys d ++ map answer_key qs) ->
  dict_keys (fold_left (fun d q => dict_set d (answer_key q) (value q)) qs d)
  = dict_keys d ++ map answer_key qs.
Proof.
  induction qs as [| q qs IH]; simpl; intros d Hd; [now rewrite app_nil_r |].
  assert (~ In (answer_key q) (dict_keys d)) as Hn.
  { intros Hin. apply NoDup_remove_2 in Hd. apply Hd. apply in_or_app. now left. }
  rewrite dict_set_new by exact Hn.
  assert (dict_keys (d ++ [(answer_key q, value q)]) = dict_keys d ++ [answer_key q]) as Hk
    by (unfold dict_keys; now rewrite map_app).
  rewrite IH; rewrite Hk, <- app_assoc; simpl; [reflexivity | exact Hd].
Qed.

Lemma NoDup_map_filter {A B} (f : A -> B) (p : A -> bool) l :
  NoDup (map f l) -> NoDup (map f (filter p l)).
Proof.
  induction l as [| x l IH]; simpl; intros H; [constructor |].
  inversion H as [| ? ? Hn Hd]; subst.
  destruct (p x); simpl; [| now apply IH].
  constructor; [| now apply IH].
  intros Hin. apply Hn. apply in_map_iff in Hin as (y & Hy & Hin).
  apply filter_In in Hin as [Hin _]. apply in_map_iff. eauto.
Qed.

Lemma answer_keys_nodup qs :
  NoDup (map question_id qs) -> NoDup (map answer_key qs).
Proof.
  intros H. unfold answer_key. rewrite <- (map_map question_id py_str_int).
  generalize dependent (map question_id qs). intros ids H.
  induction H as [| x l Hn Hd IH]; simpl; constructor; [| exact IH].
  intros Hin. apply in_map_iff in Hin as (y & Hy & Hin).
  apply py_str_int_inj in Hy. now subst.
Qed.

Lemma attempt_quiz_submitted s today now user quiz req s' id :
  attempt_quiz s today now user quiz req = (s', Submitted id) ->
  exists ts d,
    grade (form req) (questions_of s quiz) 0 [] = Return (ts, d)
    /\ id = next_score_id s
    /\ s' = add_score s
              {| score_id := id; score_quiz_id := quiz; score_user_id := user;
                 time_stamp := now; total_scored := ts;
                 total_questions := Z.of_nat (List.length (questions_of s quiz));
                 answers := Some (Json.dumps d) |}.
Proof.
  unfold attempt_quiz.
  destruct (attempt_check s today user quiz) as [r | qs] eqn:Hk.
  - intros [= <- ->]. unfold attempt_check in Hk.
    destruct (quiz_get s quiz) as [q |]; [| discriminate].
    destruct (date_of_quiz q >? today); [discriminate |].
    destruct (existing_score s quiz user); [discriminate |].
    destruct (questions_of s quiz); discriminate.
  - apply attempt_check_cleared in Hk as (_ & _ & -> & _).
    unfold attempt_submit. destruct (validate_on_submit req); [| discriminate].
    destruct (grade _ _ _ _) as [[ts d] | e]; [| discriminate].
    intros [= <- <-]. exists ts, d. auto.
Qed.

(** C9: when the question identifiers are distinct (they are the primary
    key), a submission that succeeds appends one Score, of this user for this
    quiz, with [0 <= total_scored <= total_questions], with
    [total_questions] the number of questions of the quiz, and with the JSON
    text of an answer map whose keys are the questions' identifiers as
    decimal strings, one entry for each question, in the order of the
    questions. *)
Theorem submitted_score_shape s today now user quiz req s' id :
  NoDup (map question_id (questions s)) ->
  attempt_quiz s today now user quiz req = (s', Submitted id) ->
  exists sc d,
    scores s' = scores s ++ [sc]
    /\ score_id sc = id /\ score_quiz_id sc = quiz /\ score_user_id sc = user
    /\ 0 <= total_scored sc <= total_questions sc
    /\ total_questions sc = Z.of_nat (List.length (questions_of s quiz))
    /\ answers sc = Some (Json.dumps d)
    /\ dict_keys d = map answer_key (questions_of s quiz)
    /\ NoDup (dict_keys d)
    /\ List.length d = List.length (questions_of s quiz).
Proof.
  intros Hids H. apply attempt_quiz_submitted in H as (ts & d & Hg & Hid & ->).
  apply grade_returns in Hg as [Hts Hd].
  assert (NoDup (map answer_key (questions_of s quiz))) as Hnd
    by (apply answer_keys_nodup; unfold questions_of; now apply NoDup_map_filter).
  assert (dict_keys d = map answer_key (questions_of s quiz)) as Hk
    by (rewrite Hd; apply (fold_dict_set_keys _ _ []); exact Hnd).
  assert (List.length d = List.length (questions_of s quiz)) as Hl.
  { rewrite <- (length_map fst d). fold (dict_keys d). rewrite Hk. apply length_map. }
  rewrite <- Hk in Hnd.
  eexists. exists d. split; [reflexivity |]. cbn -[questions_of Z.of_nat].
  repeat (split; [reflexivity || lia || assumption |]). exact Hl.
Qed.

Lemma submitted_score_shape_witness :
  exists sc d,
    scores (fst (serve store0 call_a)) = scores store0 ++ [sc]
    /\ score_id sc = 1 /\ score_quiz_id sc = 1 /\ score_user_id sc = 7
    /\ 0 <= total_scored sc <= total_questions sc
    /\ total_questions sc = Z.of_nat (List.length (questions_of store0 1))
    /\ answers sc = Some (Json.dumps d)
    /\ dict_keys d = map answer_key (questions_of store0 1)
    /\ NoDup (dict_keys d)
    /\ List.length d = List.length (questions_of store0 1).
Proof.
  apply (submitted_score_shape store0 10 0 7 1 (call_request call_a)).
  - simpl. repeat constructor; simpl; intuition discriminate.
  - reflexivity.
Defined.

(** ** Stored answers *)

(** C10: a Score whose answers column is NULL or the empty string has the
    empty answer map; reading it does not fail. *)
Theorem get_answers_of_no_answers sc :
  answers sc = None \/ answers sc = Some [] -> get_answers sc = Return [].
Proof. unfold get_answers. now intros [-> | ->]. Qed.

Lemma get_answers_of_no_answers_witness :
  get_answers (score_of 1 1 7 1 2) = Return []
  /\ get_answers (with_answers (score_of 1 1 7 1 2) (Some [])) = Return [].
Proof.
  split.
  - apply (get_answers_of_no_answers (score_of 1 1 7 1 2)). left. reflexivity.
  - apply (get_answers_of_no_answers (with_answers (score_of 1 1 7 1 2) (Some []))).
    right. reflexivity.
Defined.

(** ** Percentages *)

Lemma py_truediv_ints a b :
  b <> 0 -> py_truediv (PyInt a) (PyInt b) = Return (PyFloat (int_quotient a b)).
Proof. intros Hb. simpl. apply Z.eqb_neq in Hb. now rewrite Hb. Qed.

Lemma percentage_nonzero sc :
  total_questions sc <> 0 ->
  percentage sc
  = Return (PyFloat (float_round2
                       (float_mul (int_quotient (total_scored sc) (total_questions sc))
                                  (float_of_int 100)))).
Proof.
  intros Hq. unfold percentage. apply Z.eqb_neq in Hq. rewrite Hq. simpl. now rewrite Hq.
Qed.

(** C3: [percentage] returns the integer 0 when [total_questions] is 0,
    where the bare expression would divide by zero, and otherwise returns
    what [round(total_scored / total_questions * 100, 2)] returns, a
    [float]. *)
Theorem percentage_guards_division sc :
  (total_questions sc = 0 ->
   percentage sc = Return (PyInt 0)
   /\ rounded_ratio (total_scored sc) (total_questions sc) = Raise ZeroDivisionError)
  /\ (total_questions sc <> 0 ->
      percentage sc = rounded_ratio (total_scored sc) (total_questions sc)
      /\ exists x, percentage sc = Return (PyFloat x)).
Proof.
  split.
  - intros Hq. unfold percentage, rounded_ratio. now rewrite Hq.
  - intros Hq. split.
    + unfold percentage. apply Z.eqb_neq in Hq. now rewrite Hq.
    + rewrite percentage_nonzero by exact Hq. eauto.
Qed.

Lemma percentage_guards_division_witness :
  (percentage (score_of 1 1 7 0 0) = Return (PyInt 0)
   /\ rounded_ratio 0 0 = Raise ZeroDivisionError)
  /\ (percentage (score_of 1 1 7 1 2) = rounded_ratio 1 2
      /\ exists x, percentage (score_of 1 1 7 1 2) = Return (PyFloat x)).
Proof.
  split.
  - apply (proj1 (percentage_guards_division (score_of 1 1 7 0 0))). reflexivity.
  - apply (proj2 (percentage_guards_division (score_of 1 1 7 1 2))). simpl. discriminate.
Defined.

(** The scenario of the specification: two questions with correct options
    1 and 3, answers 1 and 2: one of two, 50.0 percent. *)
Example scenario_one_of_two :
  exists sc,
    scores (fst (serve store0 call_a)) = [sc]
    /\ total_scored sc = 1 /\ total_questions sc = 2
    /\ percentage sc = Return (PyFloat (float_of_int 50)).
Proof. eexists. split; [reflexivity |]. repeat split. Qed.

(** ** The sort *)

Section SortDescFacts.
Context {A : Type} (key : A -> Z).

Lemma insert_desc_perm x l : Permutation (insert_desc key x l) (x :: l).
Proof.
  induction l as [| y l IH]; simpl; [reflexivity |].
  destruct (key x <? key y); [| reflexivity].
  rewrite IH. apply perm_swap.
Qed.

Lemma sort_desc_perm l : Permutation (sort_desc key l) l.
Proof.
  induction l as [| x l IH]; simpl; [reflexivity |].
  rewrite insert_desc_perm. now constructor.
Qed.

Lemma insert_desc_sorted x l :
  StronglySorted (descending key) l -> StronglySorted (descending key) (insert_desc key x l).
Proof.
  induction 1 as [| y l Hs IH Hy]; simpl.
  - repeat constructor.
  - destruct (key x <? key y) eqn:Hxy.
    + constructor; [exact IH |].
      apply Z.ltb_lt in Hxy.
      rewrite Forall_forall in *. intros z Hz.
      apply (Permutation_in _ (insert_desc_perm x l)) in Hz.
      destruct Hz as [<- | Hz]; [unfold descending; lia | now apply Hy].
    + apply Z.ltb_ge in Hxy. constructor; [now constructor |].
      constructor; [unfold descending; lia |].
      rewrite Forall_forall in *. intros z Hz. specialize (Hy z Hz). unfold descending in *. lia.
Qed.

Lemma sort_desc_sorted l : StronglySorted (descending key) (sort_desc key l).
Proof.
  induction l as [| x l IH]; simpl; [constructor | now apply insert_desc_sorted].
Qed.

(** Stability: the items of any one key come out in the order they went in. *)
Lemma insert_desc_stable k x l :
  filter (fun a => key a =? k) (insert_desc key x l)
  = filter (fun a => key a =? k) (x :: l).
Proof.
  induction l as [| y l IH]; [reflexivity |].
  cbn [insert_desc]. destruct (key x <? key y) eqn:Hxy; [| reflexivity].
  apply Z.ltb_lt in Hxy. cbn [filter] in *. rewrite IH.
  destruct (key x =? k) eqn:Hx, (key y =? k) eqn:Hy; try reflexivity.
  apply Z.eqb_eq in Hx, Hy. lia.
Qed.

Lemma sort_desc_stable k l :
  filter (fun a => key a =? k) (sort_desc key l) = filter (fun a => key a =? k) l.
Proof.
  induction l as [| x l IH]; [reflexivity |].
  cbn [sort_desc]. rewrite insert_desc_stable. cbn [filter]. now rewrite IH.
Qed.

Lemma firstn_sorted n l : StronglySorted (descending key) l -> StronglySorted (descending key) (firstn n l).
Proof.
  intros H. revert n. induction H as [| y l Hs IH Hy]; intros [| n]; simpl; try constructor.
  - apply IH.
  - rewrite Forall_forall in *. intros z Hz. apply Hy.
    rewrite <- (firstn_skipn n l). apply in_or_app. now left.
Qed.
End SortDescFacts.

(** ** The dashboard *)

Lemma percentage_returns sc : exists v, percentage sc = Return v /\ rounded2 v.
Proof.
  destruct (Z.eq_dec (total_questions sc) 0) as [Hq | Hq].
  - exists (PyInt 0). unfold percentage. rewrite Hq. split; [reflexivity | now left].
  - eexists. split; [now apply percentage_nonzero |]. right. eauto.
Qed.

Lemma map_outcome_returns {A B} (f : A -> outcome B) l :
  (forall x, In x l -> exists y, f x = Return y) ->
  exists ys, map_outcome f l = Return ys.
Proof.
  induction l as [| x l IH]; simpl; intros H; [eauto |].
  destruct (H x) as [y ->]; [now left |].
  destruct IH as [ys ->]; [intros; apply H; now right |].
  simpl. eauto.
Qed.

Lemma map_outcome_each {A B} (f : A -> outcome B) l : forall ys,
  map_outcome f l = Return ys -> Forall2 (fun x y => f x = Return y) l ys.
Proof.
  induction l as [| x l IH]; simpl; intros ys H.
  - injection H as <-. constructor.
  - destruct (f x) as [y | e] eqn:Hx; [| discriminate]. simpl in H.
    destruct (map_outcome f l) as [ys' | e]; [| discriminate]. simpl in H.
    injection H as <-. constructor; auto.
Qed.

Lemma py_truediv_by_int v n :
  n <> 0 -> exists x, py_truediv v (PyInt n) = Return (PyFloat x).
Proof.
  intros Hn. apply Z.eqb_neq in Hn. destruct v; simpl; rewrite Hn; eauto.
Qed.

Lemma mean_returns ps : ps <> [] -> exists x, mean ps = Return (PyFloat x).
Proof.
  intros Hp. apply py_truediv_by_int. destruct ps; [congruence | simpl; lia].
Qed.

Lemma quiz_stat_returns s quiz :
  exists st, quiz_stat s quiz = Return st /\ quiz_stat_of s quiz st.
Proof.
  unfold quiz_stat, quiz_stat_of.
  destruct (scores_of_quiz s (quiz_id quiz)) as [| sc scs] eqn:Hs.
  - eexists. split; [reflexivity |]. simpl. auto.
  - destruct (map_outcome_returns percentage (sc :: scs)) as [ps Hps].
    { intros x _. destruct (percentage_returns x) as (v & -> & _). eauto. }
    assert (List.length ps = List.length (sc :: scs)) as Hl.
    { apply map_outcome_each in Hps. symmetry. revert Hps. apply Forall2_length. }
    destruct (mean_returns ps) as [x Hx]; [destruct ps; [discriminate | congruence] |].
    rewrite Hps. cbn [bind]. unfold mean in Hx. rewrite Hl in Hx. rewrite Hx.
    eexists. split; [reflexivity |]. cbn [stat_quiz attempts avg_score].
    repeat split. exists ps, (PyFloat x). unfold mean. rewrite Hl. auto.
Qed.

Lemma quiz_stats_return s qs :
  exists stats, map_outcome (quiz_stat s) qs = Return stats
                /\ Forall2 (quiz_stat_of s) qs stats.
Proof.
  induction qs as [| q qs (stats & IH & Hall)]; simpl; [eauto |].
  destruct (quiz_stat_returns s q) as (st & -> & Hst). rewrite IH. simpl. eauto.
Qed.

(** C5: [get_dashboard_stats] returns, and its [quiz_stats] are the first
    five of a ranking of the per-quiz statistics, taken in the order of the
    quizzes: the ranking is a rearrangement of them, descending by number of
    attempts, in which the quizzes of any one number of attempts keep their
    original order; so [quiz_stats] is sorted descending by attempts and has
    at most five entries.  Each statistic gives the number of Scores of its
    quiz and the mean of their percentages rounded by [round(_, 2)], or 0
    attempts and average 0 when the quiz has no Score. *)
Theorem dashboard_quiz_stats_ranked s :
  exists d stats ranked,
    get_dashboard_stats s = Return d
    /\ Forall2 (quiz_stat_of s) (quizzes s) stats
    /\ quiz_stats d = firstn 5 ranked
    /\ Permutation ranked stats
    /\ StronglySorted more_attempts ranked
    /\ (forall n, filter (fun st => attempts st =? n) ranked
                  = filter (fun st => attempts st =? n) stats)
    /\ StronglySorted more_attempts (quiz_stats d)
    /\ (List.length (quiz_stats d) <= 5)%nat.
Proof.
  destruct (quiz_stats_return s (quizzes s)) as (stats & Hm & Hall).
  unfold get_dashboard_stats. rewrite Hm. cbn [bind].
  eexists. exists stats, (sort_desc attempts stats).
  split; [reflexivity |]. cbn [quiz_stats].
  split; [exact Hall |]. split; [reflexivity |].
  split; [apply sort_desc_perm |].
  split; [apply sort_desc_sorted |].
  split; [intros n; apply sort_desc_stable |].
  split; [apply firstn_sorted, sort_desc_sorted | apply firstn_le_length].
Qed.

Example dashboard_ranks_ties_in_quiz_order :
  exists d,
    get_dashboard_stats store_four = Return d
    /\ map (fun st => (quiz_id (stat_quiz st), attempts st)) (quiz_stats d)
       = [(2, 2); (4, 2); (1, 0); (3, 0)]
    /\ map avg_score (quiz_stats d)
       = [PyFloat (float_of_int 50); PyFloat (float_of_int 100); PyInt 0; PyInt 0].
Proof. eexists. repeat split; vm_compute; reflexivity. Qed.

(** ** The JSON text of an answer map *)

Section JsonFacts.
Import Json.

Lemma hex_val_digit n : (n < 16)%N -> hex_val (hex_digit n) = Some n.
Proof.
  intros H. unfold hex_digit, hex_val.
  destruct (n <? 10)%N eqn:Hn.
  - apply N.ltb_lt in Hn.
    replace ((48 <=? 48 + n) && (48 + n <=? 57))%N with true
      by (symmetry; apply andb_true_iff; split; apply N.leb_le; lia).
    f_equal. lia.
  - apply N.ltb_ge in Hn.
    replace ((48 <=? 87 + n) && (87 + n <=? 57))%N with false
      by (symmetry; apply andb_false_iff; right; apply N.leb_gt; lia).
    replace ((97 <=? 87 + n) && (87 + n <=? 102))%N with true
      by (symmetry; apply andb_true_iff; split; apply N.leb_le; lia).
    f_equal. lia.
Qed.

Lemma land_15 n : N.land n 15 = (n mod 16)%N.
Proof. change 15%N with (N.ones 4). now rewrite N.land_ones. Qed.

Lemma land_1023 n : N.land n 1023 = (n mod 1024)%N.
Proof. change 1023%N with (N.ones 10). now rewrite N.land_ones. Qed.

Lemma decode_hex4_hex4 n :
  (n < 65536)%N ->
  decode_hex4 (hex_digit (N.land (N.shiftr n 12) 15)) (hex_digit (N.land (N.shiftr n 8) 15))
              (hex_digit (N.land (N.shiftr n 4) 15)) (hex_digit (N.land n 15))
  = Some n.
Proof.
  intros H. unfold decode_hex4.
  rewrite !land_15, !N.shiftr_div_pow2.
  change (2 ^ 12)%N with 4096%N. change (2 ^ 8)%N with 256%N. change (2 ^ 4)%N with 16%N.
  rewrite !hex_val_digit by (apply N.mod_lt; discriminate).
  f_equal.
  replace (n / 256)%N with (n / 16 / 16)%N by (now rewrite N.Div0.div_div).
  replace (n / 4096)%N with (n / 16 / 16 / 16)%N by (now rewrite !N.Div0.div_div).
  assert (forall a, a = 16 * (a / 16) + a mod 16 /\ a mod 16 < 16)%N as Hdm
    by (intros a; split; [apply N.div_mod | apply N.mod_lt]; discriminate).
  destruct (Hdm n) as [E0 L0], (Hdm (n / 16)%N) as [E1 L1],
    (Hdm (n / 16 / 16)%N) as [E2 L2], (Hdm (n / 16 / 16 / 16)%N) as [E3 L3].
  clear Hdm.
  generalize dependent (n / 16 / 16 / 16 / 16)%N.
  generalize dependent ((n / 16 / 16 / 16) mod 16)%N.
  generalize dependent ((n / 16 / 16) mod 16)%N.
  generalize dependent ((n / 16) mod 16)%N.
  generalize dependent (n mod 16)%N.
  generalize dependent (n / 16 / 16 / 16)%N.
  generalize dependent (n / 16 / 16)%N.
  generalize dependent (n / 16)%N.
  intros. lia.
Qed.

Lemma lor_shiftl_low a b k :
  (b < 2 ^ k)%N -> N.lor (N.shiftl a k) b = (a * 2 ^ k + b)%N.
Proof.
  intros Hb.
  assert (N.land (N.shiftl a k) b = 0%N) as Hl.
  { apply N.bits_inj. intros i. rewrite N.land_spec, N.bits_0.
    destruct (N.lt_ge_cases i k) as [Hi | Hi].
    - now rewrite N.shiftl_spec_low.
    - destruct (N.eq_dec b 0) as [-> | Hn]; [now rewrite N.bits_0, andb_false_r |].
      rewrite (N.bits_above_log2 b i), andb_false_r; [reflexivity |].
      apply N.lt_le_trans with k; [| exact Hi].
      apply N.log2_lt_pow2; lia. }
  rewrite <- N.lxor_lor by exact Hl.
  rewrite <- N.add_nocarry_lxor by exact Hl.
  now rewrite N.shiftl_mul_pow2.
Qed.

Lemma scanstring_escape h1 h2 h3 h4 uni X :
  decode_hex4 h1 h2 h3 h4 = Some uni ->
  is_high_surrogate uni = false ->
  scanstring (92 :: 117 :: h1 :: h2 :: h3 :: h4 :: X)%N = cons_char uni (scanstring X).
Proof.
  intros Hd Hs. cbn -[decode_hex4 is_high_surrogate]. rewrite Hd, Hs. reflexivity.
Qed.

Lemma scanstring_escape_pair h1 h2 h3 h4 k1 k2 k3 k4 uni uni2 X :
  decode_hex4 h1 h2 h3 h4 = Some uni ->
  decode_hex4 k1 k2 k3 k4 = Some uni2 ->
  is_high_surrogate uni = true ->
  is_low_surrogate uni2 = true ->
  scanstring (92 :: 117 :: h1 :: h2 :: h3 :: h4 :: 92 :: 117 :: k1 :: k2 :: k3 :: k4 :: X)%N
  = cons_char (join_surrogates uni uni2) (scanstring X).
Proof.
  intros Hd Hd2 Hs Hs2.
  cbn -[decode_hex4 is_high_surrogate is_low_surrogate join_surrogates].
  rewrite Hd, Hs, Hd2, Hs2. reflexivity.
Qed.

Lemma scanstring_plain c X :
  (32 <= c)%N -> c <> 34%N -> c <> 92%N ->
  scanstring (c :: X) = cons_char c (scanstring X).
Proof.
  intros H1 H2 H3. cbn [scanstring].
  apply N.eqb_neq in H2, H3. rewrite H2, H3.
  replace (c <? 32)%N with false by (symmetry; apply N.ltb_ge; lia).
  reflexivity.
Qed.

(** The two escapes of a character beyond the basic plane decode to it. *)
Lemma surrogates_of_char c :
  (65536 <= c < 1114112)%N ->
  let n := (c - 65536)%N in
  let hi := N.lor 55296 (N.land (N.shiftr n 10) 1023) in
  let lo := N.lor 56320 (N.land n 1023) in
  (hi < 65536 /\ lo < 65536)%N
  /\ is_high_surrogate hi = true /\ is_low_surrogate lo = true
  /\ join_surrogates hi lo = c.
Proof.
  intros Hc n hi lo.
  assert (n < 1048576)%N as Hn by (unfold n; lia).
  assert (hi = 55296 + n / 1024)%N as Hhi.
  { unfold hi. rewrite land_1023, N.shiftr_div_pow2. change (2 ^ 10)%N with 1024%N.
    rewrite N.mod_small by (apply N.Div0.div_lt_upper_bound; lia).
    change 55296%N with (N.shiftl 54 10). rewrite lor_shiftl_low.
    - reflexivity.
    - change (2 ^ 10)%N with 1024%N. apply N.Div0.div_lt_upper_bound. lia. }
  assert (lo = 56320 + n mod 1024)%N as Hlo.
  { unfold lo. rewrite land_1023. change 56320%N with (N.shiftl 55 10).
    rewrite lor_shiftl_low; [reflexivity |].
    change (2 ^ 10)%N with 1024%N. apply N.mod_lt. discriminate. }
  assert (n / 1024 < 1024)%N as Hq by (apply N.Div0.div_lt_upper_bound; lia).
  assert (n mod 1024 < 1024)%N as Hr by (apply N.mod_lt; discriminate).
  assert (n = 1024 * (n / 1024) + n mod 1024)%N as Hdm by (apply N.div_mod; discriminate).
  assert (c = 65536 + n)%N as Hcn by (unfold n; lia).
  clearbody n hi lo. subst hi lo.
  generalize dependent (n / 1024)%N. generalize dependent (n mod 1024)%N.
  intros r Hr q Hq Hdm.
  split; [lia |]. split; [| split].
  - unfold is_high_surrogate. apply andb_true_iff. split; apply N.leb_le; lia.
  - unfold is_low_surrogate. apply andb_true_iff. split; apply N.leb_le; lia.
  - unfold join_surrogates.
    replace (55296 + q - 55296)%N with q by lia.
    replace (56320 + r - 56320)%N with r by lia.
    rewrite lor_shiftl_low by exact Hr. change (2 ^ 10)%N with 1024%N. lia.
Qed.

Lemma scanstring_encode_char c X :
  scalar_value c -> scanstring (encode_char c ++ X) = cons_char c (scanstring X).
Proof.
  intros Hc. unfold encode_char.
  destruct (c =? 34)%N eqn:E1; [apply N.eqb_eq in E1; subst; reflexivity |].
  destruct (c =? 92)%N eqn:E2; [apply N.eqb_eq in E2; subst; reflexivity |].
  destruct (c =? 8)%N eqn:E3; [apply N.eqb_eq in E3; subst; reflexivity |].
  destruct (c =? 12)%N eqn:E4; [apply N.eqb_eq in E4; subst; reflexivity |].
  destruct (c =? 10)%N eqn:E5; [apply N.eqb_eq in E5; subst; reflexivity |].
  destruct (c =? 13)%N eqn:E6; [apply N.eqb_eq in E6; subst; reflexivity |].
  destruct (c =? 9)%N eqn:E7; [apply N.eqb_eq in E7; subst; reflexivity |].
  apply N.eqb_neq in E1, E2.
  destruct ((32 <=? c) && (c <=? 126))%N eqn:E8.
  - apply andb_true_iff in E8 as [E8 _]. apply N.leb_le in E8.
    now apply scanstring_plain.
  - destruct (c <? 65536)%N eqn:E9.
    + apply N.ltb_lt in E9. unfold u_escape, hex4. cbn [app].
      apply scanstring_escape; [now apply decode_hex4_hex4 |].
      unfold is_high_surrogate. apply andb_false_iff.
      destruct Hc as [Hc | Hc]; [left; apply N.leb_gt | right; apply N.leb_gt]; lia.
    + apply N.ltb_ge in E9.
      assert (65536 <= c < 1114112)%N as Hr by (destruct Hc; lia).
      destruct (surrogates_of_char c Hr) as ((Hh & Hl) & Hhs & Hls & Hj).
      cbv zeta in *. unfold u_escape, hex4. cbn [app].
      erewrite scanstring_escape_pair;
        [| apply decode_hex4_hex4; exact Hh | apply decode_hex4_hex4; exact Hl
         | exact Hhs | exact Hls].
      now rewrite Hj.
Qed.

Lemma scanstring_encoded s X :
  text s -> scanstring (flat_map encode_char s ++ 34%N :: X) = Some (s, X).
Proof.
  induction 1 as [| c s Hc Hs IH]; [reflexivity |].
  cbn [flat_map]. rewrite <- app_assoc, scanstring_encode_char by exact Hc.
  now rewrite IH.
Qed.
Lemma scan_value_encoded v X :
  match v with Some t => text t | None => True end ->
  scan_value (encode_value v ++ X) = Some (v, X).
Proof.
  destruct v as [t |]; intros Ht; [| reflexivity].
  unfold encode_value, encode_string. cbn [app scan_value]. change (34 =? 34)%N with true.
  cbv iota. rewrite <- app_assoc. cbn [app]. now rewrite scanstring_encoded.
Qed.

Lemma skip_ws_encoded_value v X : skip_ws (encode_value v ++ X) = encode_value v ++ X.
Proof. now destruct v. Qed.

Lemma encode_items_after_quote more : forall kv rest,
  encode_items (kv :: more) ++ 125%N :: rest = 34%N :: after_quote kv more rest.
Proof.
  induction more as [| kv' more IH]; intros kv rest.
  - cbn [encode_items after_quote]. unfold encode_item, encode_string.
    cbn [app]. now rewrite <- !app_assoc.
  - change (encode_items (kv :: kv' :: more))
      with (encode_item kv ++ [44; 32]%N ++ encode_items (kv' :: more)).
    rewrite <- !app_assoc, IH. cbn [after_quote]. unfold encode_item, encode_string.
    cbn [app]. now rewrite <- !app_assoc.
Qed.

Lemma after_quote_length more : forall kv rest,
  (List.length more < List.length (after_quote kv more rest))%nat.
Proof.
  induction more as [| kv' more IH]; intros kv rest; cbn [after_quote];
    rewrite !length_app; cbn [List.length].
  - lia.
  - rewrite length_app. cbn [List.length]. specialize (IH kv' rest). lia.
Qed.

Lemma next_token_here c X : is_ws c = false -> next_token (c :: X) = Some (c, X).
Proof. intros H. unfold next_token. cbn [skip_ws]. now rewrite H. Qed.

Lemma next_token_space X : next_token (32%N :: X) = next_token X.
Proof. reflexivity. Qed.

Lemma members_after_quote more : forall kv fuel rest,
  (List.length more < fuel)%nat ->
  dict_text (kv :: more) ->
  members fuel (after_quote kv more rest) = Some (kv :: more, rest).
Proof.
  induction more as [| kv' more IH]; intros [k v] fuel rest Hf Ht;
    (destruct fuel as [| fuel]; [cbn [List.length] in Hf; lia |]);
    inversion Ht as [| ? ? [Hk Hv] Ht']; subst; cbn [fst snd] in *;
    cbn [members after_quote fst snd];
    rewrite scanstring_encoded by exact Hk;
    rewrite (next_token_here 58) by reflexivity;
    change (58 =? 58)%N with true; cbv iota;
    change (skip_ws (32%N :: ?x)) with (skip_ws x);
    rewrite skip_ws_encoded_value, scan_value_encoded by exact Hv.
  - rewrite (next_token_here 125) by reflexivity. reflexivity.
  - rewrite (next_token_here 44) by reflexivity.
    change (44 =? 125)%N with false. change (44 =? 44)%N with true. cbv iota.
    rewrite next_token_space, (next_token_here 34) by reflexivity.
    change (34 =? 34)%N with true. cbv iota.
    rewrite IH; [reflexivity | | exact Ht'].
    cbn [List.length] in Hf. lia.
Qed.

Lemma dict_of_pairs_nodup l : forall acc : pydict (option pystr),
  NoDup (dict_keys acc ++ dict_keys l) ->
  fold_left (fun d kv => dict_set d (fst kv) (snd kv)) l acc = acc ++ l.
Proof.
  induction l as [| [k v] l IH]; intros acc Hd; cbn [fold_left fst snd].
  - now rewrite app_nil_r.
  - assert (~ In k (dict_keys acc)) as Hn.
    { intros Hin. apply NoDup_remove_2 in Hd. apply Hd. apply in_or_app. now left. }
    rewrite dict_set_new by exact Hn. rewrite IH.
    + now rewrite <- app_assoc.
    + unfold dict_keys in *. rewrite map_app, <- app_assoc. exact Hd.
Qed.

(** Decoding the JSON text of an answer map gives the map back. *)
Lemma loads_dumps d :
  dict_text d -> NoDup (dict_keys d) -> loads (dumps d) = Some d.
Proof.
  intros Ht Hd. unfold dumps.
  destruct d as [| kv more]; [reflexivity |].
  change (encode_items (kv :: more) ++ [125%N])
    with (encode_items (kv :: more) ++ 125%N :: []).
  rewrite encode_items_after_quote.
  unfold loads. cbn [starts_with_bom].
  change (123 =? 65279)%N with false. cbv iota.
  rewrite (next_token_here 123) by reflexivity.
  change (123 =? 123)%N with true. cbv iota.
  unfold object. rewrite (next_token_here 34) by reflexivity.
  change (34 =? 125)%N with false. change (34 =? 34)%N with true. cbv iota.
  rewrite members_after_quote; [| apply after_quote_length | exact Ht].
  cbn [skip_ws]. unfold dict_of_pairs. now rewrite dict_of_pairs_nodup.
Qed.

End JsonFacts.

(** ** Answers written and read back *)

Lemma text_of_string s : text (pystr_of_string s).
Proof.
  unfold text, pystr_of_string. apply Forall_forall. intros c Hc.
  apply in_map_iff in Hc as (a & <- & _). left.
  pose proof (N_ascii_bounded a). lia.
Qed.

Lemma form_get_text f key v : form_text f -> form_get f key = Some v -> text v.
Proof.
  induction 1 as [| [k w] f Hw Hf IH]; simpl; [discriminate |].
  destruct (pystr_eqb k key); [intros [= <-]; exact Hw | exact IH].
Qed.

Lemma dict_set_text d k v :
  dict_text d -> entry_text (k, v) -> dict_text (dict_set d k v).
Proof.
  intros Hd He. induction Hd as [| [k' v'] d Hkv Hd IH]; simpl.
  - constructor; [exact He | constructor].
  - destruct (pystr_eqb k' k); constructor; assumption.
Qed.

Section GradedAnswers.
Variable f : list (pystr * pystr).

Lemma recorded_answer_kept qs : forall d q,
  dict_get d (answer_key q) = Some (posted_answer f q) ->
  dict_get (fold_left (record_answer f) qs d) (answer_key q) = Some (posted_answer f q).
Proof.
  induction qs as [| q0 qs IH]; intros d q Hd; [exact Hd |].
  cbn [fold_left]. apply IH. unfold record_answer.
  destruct (list_eq_dec N.eq_dec (answer_key q) (answer_key q0)) as [E | E].
  - unfold posted_answer. rewrite E. apply dict_get_set_same.
  - now rewrite dict_get_set_other.
Qed.

Lemma recorded_answers_get qs : forall d q,
  In q qs ->
  dict_get (fold_left (record_answer f) qs d) (answer_key q) = Some (posted_answer f q).
Proof.
  induction qs as [| q0 qs IH]; intros d q Hin; [destruct Hin |].
  cbn [fold_left]. destruct Hin as [-> | Hin].
  - apply recorded_answer_kept. apply dict_get_set_same.
  - now apply IH.
Qed.

Lemma recorded_answers_text qs : forall d,
  form_text f -> dict_text d -> NoDup (dict_keys d) ->
  dict_text (fold_left (record_answer f) qs d)
  /\ NoDup (dict_keys (fold_left (record_answer f) qs d)).
Proof.
  induction qs as [| q qs IH]; intros d Hf Hd Hn; [now split |].
  cbn [fold_left]. apply IH; [exact Hf | |].
  - apply dict_set_text; [exact Hd |]. split; [apply text_of_string |].
    cbn [snd]. unfold posted_answer. destruct (form_get f _) eqn:E; [| exact I].
    now apply form_get_text in E.
  - now apply dict_set_keys_nodup.
Qed.

End GradedAnswers.

(** C8: for a form whose values are text, the answer map that grading
    builds is read back by [get_answers] exactly as [set_answers] was given
    it, and it has, for every question, the answer posted for it, or [None]
    when none was posted. *)
Theorem graded_answers_round_trip f qs ts d sc :
  form_text f ->
  grade f qs 0 [] = Return (ts, d) ->
  get_answers (set_answers sc d) = Return d
  /\ forall q, In q qs ->
       dict_get d (answer_key q) = Some (form_get f (field_name (answer_key q))).
Proof.
  intros Hf Hg. apply grade_returns in Hg as [_ ->].
  destruct (recorded_answers_text f qs [] Hf) as [Ht Hn]; [constructor | constructor |].
  split.
  - unfold get_answers, set_answers, with_answers. cbn [answers].
    unfold Json.dumps at 1. cbn [truthy].
    now rewrite loads_dumps.
  - intros q Hq. now apply recorded_answers_get.
Qed.

Lemma graded_answers_round_trip_witness :
  get_answers
    (set_answers (score_of 1 1 7 1 2)
       [(py_str_int 1, Some (pystr_of_string "1")); (py_str_int 2, None)])
  = Return [(py_str_int 1, Some (pystr_of_string "1")); (py_str_int 2, None)]
  /\ forall q, In q (questions store0) ->
       dict_get [(py_str_int 1, Some (pystr_of_string "1")); (py_str_int 2, None)]
                (answer_key q)
       = Some (form_get (form (post [("question_1", "1")]%string))
                        (field_name (answer_key q))).
Proof.
  apply (graded_answers_round_trip (form (post [("question_1", "1")]%string))
           (questions store0) 1).
  - constructor; [apply text_of_string | constructor].
  - reflexivity.
Defined.

(** A submission that succeeds stores a Score whose answers the results
    page reads back as grading built them. *)
Lemma stored_answers_read_back s today now user quiz req s' id :
  form_text (form req) ->
  attempt_quiz s today now user quiz req = (s', Submitted id) ->
  exists sc d,
    scores s' = scores s ++ [sc] /\ score_id sc = id
    /\ get_answers sc = Return d
    /\ forall q, In q (questions_of s quiz) ->
         dict_get d (answer_key q) = Some (form_get (form req) (field_name (answer_key q))).
Proof.
  intros Hf H. apply attempt_quiz_submitted in H as (ts & d & Hg & _ & ->).
  eexists. exists d. split; [reflexivity |]. split; [reflexivity |].
  apply grade_returns in Hg as [_ ->].
  destruct (recorded_answers_text (form req) (questions_of s quiz) [] Hf) as [Ht Hn];
    [constructor | constructor |].
  split.
  - unfold get_answers. cbn [answers]. unfold Json.dumps at 1. cbn [truthy].
    now rewrite loads_dumps.
  - intros q Hq. now apply recorded_answers_get.
Qed.

(** Why the values must be text: a [str] holding the two halves of a
    surrogate pair as separate code points is written as two escapes and
    read back as one character. *)
Example surrogate_halves_are_joined :
  Json.loads (Json.dumps [(py_str_int 1, Some [55357; 56832]%N)])
  = Some [(py_str_int 1, Some [128512%N])].
Proof. vm_compute. reflexivity. Qed.

(** ** Rounding *)

Lemma div_half_even_nearest n d :
  0 <= n -> 0 < d ->
  let k := div_half_even n d in
  2 * Z.abs (n - k * d) <= d /\ (2 * Z.abs (n - k * d) = d -> Z.even k = true).
Proof.
  intros Hn Hd. unfold div_half_even.
  assert (d <> 0) as Hd0 by lia.
  pose proof (Z.div_mod n d Hd0) as Hdm.
  pose proof (Z.mod_pos_bound n d Hd) as Hr.
  generalize dependent (n mod d). generalize dependent (n / d). intros q r Hdm Hr.
  destruct (Z.compare_spec (2 * r) d) as [Hcmp | Hcmp | Hcmp]; cbv zeta.
  - destruct (Z.even q) eqn:He.
    + replace (n - q * d) with r by lia. split; [lia | auto].
    + replace (n - (q + 1) * d) with (r - d) by lia.
      split; [lia |]. intros _. rewrite Z.even_add, He. reflexivity.
  - replace (n - q * d) with r by lia. split; [lia | intros; exfalso; lia].
  - replace (n - (q + 1) * d) with (r - d) by lia. split; [lia | intros; exfalso; lia].
Qed.

Lemma hundredths_nearest m e : nearest_hundredth_even m e (hundredths m e).
Proof.
  destruct e as [| p | p]; unfold nearest_hundredth_even, hundredths; try reflexivity.
  apply div_half_even_nearest; [lia |]. apply Z.pow_pos_nonneg; lia.
Qed.

Lemma py_truediv_float a b v : py_truediv a b = Return v -> exists x, v = PyFloat x.
Proof.
  destruct a as [a | x], b as [b | y]; simpl;
    [destruct (b =? 0) | destruct (is_zero y) | destruct (b =? 0) | destruct (is_zero y)];
    intros [= <-]; eauto.
Qed.

Lemma rounded2_round_float x : rounded2 (py_round2 (PyFloat x)).
Proof. right. simpl. eauto. Qed.

Lemma rounded2_round_quotient a b v :
  py_truediv a b = Return v -> rounded2 (py_round2 v).
Proof. intros H. apply py_truediv_float in H as [x ->]. apply rounded2_round_float. Qed.

Lemma rounded2_round_ratio a b v :
  py_truediv a b = Return v -> rounded2 (py_round2 (py_mul v (PyInt 100))).
Proof. intros H. apply py_truediv_float in H as [x ->]. apply rounded2_round_float. Qed.

Lemma quiz_stat_rounded s quiz st : quiz_stat_of s quiz st -> rounded2 (avg_score st).
Proof.
  intros (_ & _ & H). destruct (scores_of_quiz s (quiz_id quiz)).
  - now left.
  - destruct H as (ps & avg & _ & Hm & ->). eapply rounded2_round_quotient, Hm.
Qed.

Lemma subject_average_rounded data v : subject_average data = Return v -> rounded2 v.
Proof.
  unfold subject_average. destruct (data_count data >? 0).
  - destruct (py_truediv _ _) as [avg | e] eqn:E; simpl; [| discriminate].
    intros [= <-]. eapply rounded2_round_quotient, E.
  - intros [= <-]. now left.
Qed.

Lemma subject_averages_rounded (d : pydict SubjectData) : forall averages,
  map_outcome (fun kv => a <- subject_average (snd kv) ;; Return (fst kv, a)) d
  = Return averages ->
  Forall (fun kv => rounded2 (snd kv)) averages.
Proof.
  intros averages H. apply map_outcome_each in H.
  induction H as [| kv ka d averages Hk _ IH]; constructor; [| exact IH].
  destruct (subject_average (snd kv)) as [a | e] eqn:E; simpl in Hk; [| discriminate].
  injection Hk as <-. simpl. eapply subject_average_rounded, E.
Qed.

Lemma bind_returns {A B} (m : outcome A) (k : A -> outcome B) v :
  bind m k = Return v -> exists a, m = Return a /\ k a = Return v.
Proof. destruct m as [a | e]; simpl; [eauto | discriminate]. Qed.

Lemma user_stats_rounded s user us :
  get_user_stats s user = Return us ->
  rounded2 (avg_percentage us) /\ rounded2 (completion_rate us)
  /\ Forall (fun kv => rounded2 (snd kv)) (subject_avg us).
Proof.
  unfold get_user_stats. intros H.
  apply bind_returns in H as (avg & Ha & H).
  apply bind_returns in H as (subs & _ & H).
  apply bind_returns in H as (averages & Hs & H).
  apply bind_returns in H as (rate & Hr & H).
  injection H as <-. cbn [avg_percentage completion_rate subject_avg].
  split; [| split].
  - destruct (scores_of_user s user).
    + injection Ha as <-. now left.
    + apply bind_returns in Ha as (ps & _ & Ha).
      eapply rounded2_round_quotient, Ha.
  - destruct (Z.of_nat (List.length (quizzes s)) >? 0).
    + apply bind_returns in Hr as (ratio & E & Hr).
      injection Hr as <-. eapply rounded2_round_ratio, E.
    + injection Hr as <-. now left.
  - now apply subject_averages_rounded in Hs.
Qed.

Lemma dashboard_averages_rounded s :
  exists d, get_dashboard_stats s = Return d
            /\ Forall (fun st => rounded2 (avg_score st)) (quiz_stats d).
Proof.
  destruct (quiz_stats_return s (quizzes s)) as (stats & Hm & Hall).
  unfold get_dashboard_stats. rewrite Hm. cbn [bind].
  eexists. split; [reflexivity |]. cbn [quiz_stats].
  assert (Forall (fun st => rounded2 (avg_score st)) stats) as Hs.
  { clear Hm. induction Hall as [| q st qs stats Hq _ IH]; constructor; [| exact IH].
    eapply quiz_stat_rounded, Hq. }
  apply Forall_forall. intros st Hin.
  rewrite Forall_forall in Hs. apply Hs.
  apply (Permutation_in _ (sort_desc_perm attempts stats)).
  rewrite <- (firstn_skipn 5 (sort_desc attempts stats)). apply in_or_app. now left.
Qed.

(** C4 as stated fails: a value that lies exactly between two hundredths
    is rounded to the even one, not up.  One correct answer of 32 is 3.125
    percent exactly; [percentage] returns 3.12 where rounding half up gives
    3.13; and so does the dashboard for a quiz with eight Scores of
    percentages 25, 0, ..., 0, whose mean is 3.125. *)
Lemma percentage_tie_rounds_to_even :
  ~ (forall sc,
        total_questions sc <> 0 ->
        percentage sc
        = Return (PyFloat (float_round2_half_up
                             (ratio_times_100 (total_scored sc) (total_questions sc)))))
  /\ ratio_times_100 1 32 = int_quotient 25 8
  /\ percentage (score_of 1 1 7 1 32) = Return (PyFloat (int_quotient 312 100))
  /\ float_round2_half_up (ratio_times_100 1 32) = int_quotient 313 100
  /\ int_quotient 312 100 <> int_quotient 313 100
  /\ (exists d, get_dashboard_stats store_eight = Return d
                /\ map avg_score (quiz_stats d) = [PyFloat (int_quotient 312 100)]).
Proof.
  split.
  { intros H. specialize (H (score_of 1 1 7 1 32)). vm_compute in H.
    assert (32 = 0 -> False) as Hn by discriminate. apply H in Hn. discriminate. }
  split; [vm_compute; reflexivity |]. split; [vm_compute; reflexivity |].
  split; [vm_compute; reflexivity |]. split; [vm_compute; discriminate |].
  eexists. split; vm_compute; reflexivity.
Qed.

(** * Further properties of the code *)

(** ** Grading *)

Lemma is_correct_cases f q :
  (unreadable f q = true /\ is_correct q (posted_answer f q) = Raise ValueError)
  \/ (unreadable f q = false
      /\ is_correct q (posted_answer f q) = Return (answered_correctly f q)).
Proof.
  unfold unreadable, answered_correctly, is_correct.
  destruct (posted_answer f q) as [[| c t] |]; simpl; auto.
  destruct (py_int (c :: t)); auto.
Qed.

Lemma grade_score f qs : forall ts d ts' d',
  grade f qs ts d = Return (ts', d') ->
  ts' = ts + Z.of_nat (List.length (filter (answered_correctly f) qs)).
Proof.
  induction qs as [| q qs IH]; intros ts d ts' d' H.
  - injection H as <- _. simpl. lia.
  - cbn [grade] in H. fold (answer_key q) in H. fold (posted_answer f q) in H.
    destruct (is_correct_cases f q) as [[_ E] | [_ E]]; rewrite E in H; [discriminate |].
    cbn [bind] in H. apply IH in H. cbn [filter].
    destruct (answered_correctly f q); cbn [List.length] in *; lia.
Qed.



Lemma grade_raises_or_returns f qs : forall ts d,
  (existsb (unreadable f) qs = true /\ grade f qs ts d = Raise ValueError)
  \/ (existsb (unreadable f) qs = false /\ exists ts' d', grade f qs ts d = Return (ts', d')).
Proof.
  induction qs as [| q qs IH]; intros ts d.
  - right. split; [reflexivity | simpl; eauto].
  - cbn [grade existsb]. fold (answer_key q). fold (posted_answer f q).
    destruct (is_correct_cases f q) as [[U E] | [U E]]; rewrite E, U; cbn [bind orb].
    + left. auto.
    + apply IH.
Qed.

(** Grading fails, with [ValueError], exactly when some question of the
    quiz has a posted answer that is not empty and that [int] refuses; in
    every other case it returns a score and an answer map. *)
Theorem grading_fails_iff_unreadable_answer f qs :
  (grade f qs 0 [] = Raise ValueError <-> existsb (unreadable f) qs = true)
  /\ ((exists ts d, grade f qs 0 [] = Return (ts, d)) <-> existsb (unreadable f) qs = false).
Proof.
  destruct (grade_raises_or_returns f qs 0 []) as [[U E] | [U (ts & d & E)]];
    rewrite E, U; split; split; intros H; try discriminate; try reflexivity; eauto.
  destruct H as (? & ? & H). discriminate.
Qed.

(** ** The attempt route: when it writes, and what *)

Lemma attempt_check_table s today user quiz :
  attempt_check s today user quiz
  = match quiz_get s quiz with
    | None => Refused NotFound
    | Some q =>
        if date_of_quiz q >? today then Refused NotAvailable
        else match existing_score s quiz user with
             | Some sc => Refused (AlreadyAttempted (score_id sc))
             | None =>
                 match questions_of s quiz with
                 | [] => Refused NoQuestions
                 | _ :: _ => Cleared (questions_of s quiz)
                 end
             end
    end.
Proof.
  unfold attempt_check. destruct (quiz_get s quiz); [| reflexivity].
  destruct (date_of_quiz _ >? today); [reflexivity |].
  destruct (existing_score s quiz user); [reflexivity |].
  now destruct (questions_of s quiz).
Qed.

Lemma attempt_submitted_iff s today now user quiz req :
  (exists id, snd (attempt_quiz s today now user quiz req) = Submitted id)
  <-> ((exists q, quiz_get s quiz = Some q /\ date_of_quiz q <= today)
       /\ existing_score s quiz user = None
       /\ questions_of s quiz <> []
       /\ validate_on_submit req = true
       /\ existsb (unreadable (form req)) (questions_of s quiz) = false).
Proof.
  unfold attempt_quiz. rewrite attempt_check_table.
  destruct (quiz_get s quiz) as [q |].
  2:{ split; [intros [id H]; discriminate | intros ((q & Hq & _) & _); discriminate]. }
  destruct (date_of_quiz q >? today) eqn:Hd.
  { apply Z.gtb_lt in Hd. split; [intros [id H]; discriminate |].
    intros ((q' & Hq & Hle) & _). inversion Hq; subst. lia. }
  assert (date_of_quiz q <= today) as Hle
    by (rewrite Z.gtb_ltb in Hd; apply Z.ltb_ge in Hd; lia).
  destruct (existing_score s quiz user) as [sc |].
  { split; [intros [id H]; discriminate | intros (_ & H & _); discriminate]. }
  destruct (questions_of s quiz) as [| q0 qs] eqn:Hqs.
  { split; [intros [id H]; discriminate | intros (_ & _ & H & _); congruence]. }
  unfold attempt_submit. destruct (validate_on_submit req).
  2:{ split; [intros [id H]; discriminate | intros (_ & _ & _ & H & _); discriminate]. }
  destruct (grade_raises_or_returns (form req) (q0 :: qs) 0 []) as [[U E] | [U (ts & d & E)]];
    rewrite E, U.
  - split; [intros [id H]; discriminate | intros (_ & _ & _ & _ & H); discriminate].
  - split; [| simpl; eauto]. intros _. repeat split; eauto. discriminate.
Qed.

(** The attempt route creates a Score exactly when the quiz exists, is not
    dated after today, the user has no Score for it, it has a question, the
    form validates, and no posted answer of a question is unreadable: then
    the Score table grows by one Score, of this user and this quiz, and the
    answer names it; in every other case the store is left as it was and the
    answer is another one. *)
Theorem attempt_creates_score_iff s today now user quiz req :
  let allowed :=
    (exists q, quiz_get s quiz = Some q /\ date_of_quiz q <= today)
    /\ existing_score s quiz user = None
    /\ questions_of s quiz <> []
    /\ validate_on_submit req = true
    /\ existsb (unreadable (form req)) (questions_of s quiz) = false in
  ((exists sc,
       attempt_quiz s today now user quiz req = (add_score s sc, Submitted (score_id sc))
       /\ scores (add_score s sc) = scores s ++ [sc]
       /\ score_quiz_id sc = quiz /\ score_user_id sc = user)
   <-> allowed)
  /\ ((exists id, snd (attempt_quiz s today now user quiz req) = Submitted id) <-> allowed)
  /\ (~ allowed -> fst (attempt_quiz s today now user quiz req) = s).
Proof.
  cbv zeta. pose proof (attempt_submitted_iff s today now user quiz req) as Hiff.
  pose proof (serve_cases s {| call_today := today; call_now := now; call_user := user;
                               call_quiz := quiz; call_request := req |}) as Hc.
  unfold serve in Hc. cbn [call_today call_now call_user call_quiz call_request] in Hc.
  split; [| split; [exact Hiff |]].
  - split.
    + intros (sc & E & _). apply Hiff. exists (score_id sc). now rewrite E.
    + intros Ha. apply Hiff in Ha as [id Hid].
      destruct Hc as [[_ Hno] | (sc & E & Hq & Hu & _)]; [now destruct (Hno id) |].
      exists sc. repeat split; assumption.
  - intros Hn. destruct Hc as [[Hs _] | (sc & E & _)]; [exact Hs |].
    exfalso. apply Hn, Hiff. exists (score_id sc). now rewrite E.
Qed.

Lemma attempt_creates_score_iff_witness :
  exists sc,
    attempt_quiz store0 10 0 7 1 (call_request call_a)
    = (add_score store0 sc, Submitted (score_id sc))
    /\ scores (add_score store0 sc) = scores store0 ++ [sc]
    /\ score_quiz_id sc = 1 /\ score_user_id sc = 7.
Proof.
  apply (proj1 (attempt_creates_score_iff store0 10 0 7 1 (call_request call_a))).
  split; [exists (quiz_on 1 10); split; [reflexivity | discriminate] |].
  repeat split; discriminate.
Defined.

(** The attempt route never touches the users, subjects, chapters, quizzes
    and questions; it leaves the Score table as it was unless it answers that
    the quiz was submitted, and so does every request whose form does not
    validate, a GET among them. *)
Theorem attempt_writes_only_a_submitted_score s today now user quiz req :
  let s' := fst (attempt_quiz s today now user quiz req) in
  users s' = users s /\ subjects s' = subjects s /\ chapters s' = chapters s
  /\ quizzes s' = quizzes s /\ questions s' = questions s
  /\ ((forall id, snd (attempt_quiz s today now user quiz req) <> Submitted id) -> s' = s)
  /\ (validate_on_submit req = false -> s' = s).
Proof.
  cbv zeta. unfold attempt_quiz.
  destruct (attempt_check s today user quiz) as [r | qs]; [simpl; auto 10 |].
  unfold attempt_submit. destruct (validate_on_submit req); [| simpl; auto 10].
  destruct (grade _ _ _ _) as [[ts d] | e]; [| simpl; auto 10].
  simpl. repeat split; try reflexivity.
  - intros H. now specialize (H (next_score_id s)).
  - discriminate.
Qed.

Lemma attempt_writes_only_a_submitted_score_witness :
  fst (attempt_quiz store0 10 0 7 1 get_request) = store0.
Proof.
  apply (attempt_writes_only_a_submitted_score store0 10 0 7 1 get_request). reflexivity.
Defined.

Lemma score_id_below_next s sc : In sc (scores s) -> score_id sc < next_score_id s.
Proof.
  unfold next_score_id. intros H. apply (in_map score_id) in H.
  induction (map score_id (scores s)) as [| x l IH]; [destruct H |].
  cbn [fold_right]. destruct H as [-> | H]; [lia | specialize (IH H); lia].
Qed.

Lemma add_score_ids_distinct s sc :
  score_ids_distinct s -> score_id sc = next_score_id s ->
  score_ids_distinct (add_score s sc).
Proof.
  unfold score_ids_distinct, add_score. simpl. intros Hd Hid.
  rewrite map_app. simpl. apply NoDup_app; [exact Hd | repeat constructor; auto |].
  intros x Hx [<- | []]. apply in_map_iff in Hx as (sc' & He & Hin).
  apply score_id_below_next in Hin. lia.
Qed.

(** ** The results page *)

(** The results page shows a Score only to a logged-in user who owns it or
    is an administrator: a page shown is the Score of the given identifier,
    and the visitor is its user or an administrator; a user who is not an
    administrator is refused every Score of another user, and a visitor who
    is not logged in is sent to the login page. *)
Theorem results_only_for_owner_or_admin s v id :
  (forall sc quiz qs answers,
      results s v id = ResultsPage sc quiz qs answers ->
      score_get s id = Some sc
      /\ exists user is_admin,
           v = Member user is_admin /\ (score_user_id sc = user \/ is_admin = true))
  /\ (forall user sc,
         v = Member user false -> score_get s id = Some sc -> score_user_id sc <> user ->
         results s v id = ResultsForbidden)
  /\ (v = Anonymous -> results s v id = ResultsLogin).
Proof.
  split; [| split].
  - intros sc quiz qs ans H. destruct v as [| user adm]; [discriminate |].
    unfold results in H. destruct (score_get s id) as [score |]; [| discriminate].
    destruct (negb (score_user_id score =? user) && negb adm) eqn:Hf; [discriminate |].
    destruct (quiz_get s (score_quiz_id score)); [| discriminate].
    destruct (get_answers score); [| discriminate].
    injection H as <- _ _ _. split; [reflexivity |]. exists user, adm. split; [reflexivity |].
    apply andb_false_iff in Hf as [Hf | Hf].
    + left. apply negb_false_iff, Z.eqb_eq in Hf. exact Hf.
    + right. now apply negb_false_iff in Hf.
  - intros user sc -> Hs Hn. unfold results. rewrite Hs.
    apply Z.eqb_neq in Hn. now rewrite Hn.
  - now intros ->.
Qed.

Lemma results_only_for_owner_or_admin_witness :
  results store_taken (Member 8 false) 1 = ResultsForbidden.
Proof.
  apply (proj1 (proj2 (results_only_for_owner_or_admin store_taken (Member 8 false) 1))
           8 (score_of 1 1 7 1 2)).
  - reflexivity.
  - reflexivity.
  - simpl. discriminate.
Defined.

Lemma quiz_get_id s id q : quiz_get s id = Some q -> quiz_id q = id.
Proof. unfold quiz_get. intros H. apply find_some in H as [_ H]. now apply Z.eqb_eq. Qed.

Lemma score_get_new s sc :
  score_id sc = next_score_id s -> score_get (add_score s sc) (score_id sc) = Some sc.
Proof.
  intros Hid. unfold score_get, add_score. simpl. rewrite find_app_none.
  - simpl. now rewrite Z.eqb_refl.
  - destruct (find _ (scores s)) as [sc' |] eqn:E; [| reflexivity].
    apply find_some in E as [Hin He]. apply Z.eqb_eq in He.
    apply score_id_below_next in Hin. lia.
Qed.

Lemma attempt_quiz_submitted_quiz s today now user quiz req s' id :
  attempt_quiz s today now user quiz req = (s', Submitted id) ->
  exists q, quiz_get s quiz = Some q /\ date_of_quiz q <= today.
Proof.
  unfold attempt_quiz.
  destruct (attempt_check s today user quiz) as [r | qs] eqn:Hk.
  - intros [= <- ->]. rewrite attempt_check_table in Hk.
    destruct (quiz_get s quiz) as [q |]; [| discriminate].
    destruct (date_of_quiz q >? today); [discriminate |].
    destruct (existing_score s quiz user); [discriminate |].
    destruct (questions_of s quiz); discriminate.
  - intros _. now apply attempt_check_cleared in Hk as (Hq & _).
Qed.

(** After a submission that succeeds, with a form whose values are text,
    the results page of the identifier returned shows the user the Score
    just created, the quiz, its questions, and the answer map as grading built
    it: for every question the answer posted, or [None]. *)
Theorem results_after_submission s today now user quiz req s' id is_admin :
  form_text (form req) ->
  attempt_quiz s today now user quiz req = (s', Submitted id) ->
  exists sc q answers,
    results s' (Member user is_admin) id = ResultsPage sc q (questions_of s quiz) answers
    /\ In sc (scores s') /\ score_id sc = id /\ score_user_id sc = user
    /\ quiz_get s quiz = Some q
    /\ forall qn, In qn (questions_of s quiz) ->
         dict_get answers (answer_key qn) = Some (posted_answer (form req) qn).
Proof.
  intros Hf H.
  destruct (attempt_quiz_submitted_quiz _ _ _ _ _ _ _ _ H) as (q & Hq & _).
  apply attempt_quiz_submitted in H as (ts & d & Hg & Hid & ->).
  apply grade_returns in Hg as [_ ->].
  destruct (recorded_answers_text (form req) (questions_of s quiz) [] Hf) as [Ht Hn];
    [constructor | constructor |].
  set (d := fold_left (record_answer (form req)) (questions_of s quiz) []) in *.
  set (sc := {| score_id := id; score_quiz_id := quiz; score_user_id := user;
                time_stamp := now; total_scored := ts;
                total_questions := Z.of_nat (List.length (questions_of s quiz));
                answers := Some (Json.dumps d) |}).
  exists sc, q, d. split; [| split; [| split; [| split; [| split]]]].
  - unfold results.
    change id with (score_id sc) at 1. rewrite score_get_new by exact Hid.
    cbn [score_user_id score_quiz_id sc]. rewrite Z.eqb_refl. cbn [negb andb].
    change (quiz_get (add_score s sc) quiz) with (quiz_get s quiz). rewrite Hq.
    rewrite (quiz_get_id s quiz q Hq).
    change (questions_of (add_score s sc) quiz) with (questions_of s quiz).
    unfold get_answers. cbn [answers sc]. unfold Json.dumps at 1. cbn [truthy].
    now rewrite loads_dumps.
  - unfold add_score. simpl. apply in_or_app. right. now left.
  - reflexivity.
  - reflexivity.
  - exact Hq.
  - intros qn Hin. now apply recorded_answers_get.
Qed.

Lemma results_after_submission_witness :
  exists sc q answers,
    results (fst (serve store0 call_a)) (Member 7 false) 1
    = ResultsPage sc q (questions_of store0 1) answers
    /\ In sc (scores (fst (serve store0 call_a))) /\ score_id sc = 1 /\ score_user_id sc = 7
    /\ quiz_get store0 1 = Some q
    /\ forall qn, In qn (questions_of store0 1) ->
         dict_get answers (answer_key qn)
         = Some (posted_answer (form (call_request call_a)) qn).
Proof.
  apply (results_after_submission store0 10 0 7 1 (call_request call_a)
           (fst (serve store0 call_a)) 1 false).
  - repeat (constructor; [apply text_of_string |]). constructor.
  - reflexivity.
Defined.
(** ** Answers as the radio buttons post them *)

Lemma py_int_of_option k :
  1 <= k <= 4 ->
  exists c t, py_str_int k = c :: t /\ py_int (c :: t) = Some k.
Proof.
  intros H. exists (Z.to_N (48 + k)), [].
  assert (k = 1 \/ k = 2 \/ k = 3 \/ k = 4) as [-> | [-> | [-> | ->]]] by lia;
    split; vm_compute; reflexivity.
Qed.

Lemma posts_choice_scored f choice q :
  posts_choice f choice q ->
  unreadable f q = false /\ answered_correctly f q = chose_correct choice q.
Proof.
  unfold posts_choice, unreadable, answered_correctly, chose_correct.
  destruct (choice q) as [k |].
  - intros [Hk ->]. destruct (py_int_of_option k Hk) as (c & t & -> & ->). auto.
  - intros ->. auto.
Qed.

(** When every question of the quiz is answered as the radio buttons do,
    with the decimal text of an option from 1 to 4 or not at all, grading does
    not fail, and the score is the number of questions whose chosen option is
    the correct one. *)
Theorem radio_answers_scored_by_equality f qs choice :
  (forall q, In q qs -> posts_choice f choice q) ->
  exists d,
    grade f qs 0 [] = Return (Z.of_nat (List.length (filter (chose_correct choice) qs)), d).
Proof.
  intros H.
  assert (existsb (unreadable f) qs = false) as Hu.
  { apply not_true_is_false. intros He. apply existsb_exists in He as (q & Hin & Hq).
    destruct (posts_choice_scored f choice q (H q Hin)) as [Hn _]. congruence. }
  destruct (grade_raises_or_returns f qs 0 []) as [[U _] | [_ (ts & d & E)]]; [congruence |].
  exists d. rewrite E. f_equal. f_equal. apply grade_score in E. rewrite E. simpl. f_equal.
  f_equal. clear E Hu. induction qs as [| q qs IH]; [reflexivity |].
  cbn [filter]. destruct (posts_choice_scored f choice q (H q (or_introl eq_refl))) as [_ ->].
  rewrite IH by (intros; apply H; now right). reflexivity.
Qed.

Lemma radio_answers_scored_by_equality_witness :
  exists d,
    grade (form (call_request call_a)) (questions store0) 0 []
    = Return (Z.of_nat (List.length
                          (filter (chose_correct (fun q => Some (question_id q)))
                                  (questions store0))), d).
Proof.
  apply (radio_answers_scored_by_equality (form (call_request call_a)) (questions store0)
           (fun q => Some (question_id q))).
  intros q [<- | [<- | []]]; (split; [simpl; lia | reflexivity]).
Defined.

(** ** The dashboard: the five quizzes shown *)

Lemma sorted_app_ordered {A} (R : A -> A -> Prop) l1 : forall l2,
  StronglySorted R (l1 ++ l2) -> forall a b, In a l1 -> In b l2 -> R a b.
Proof.
  induction l1 as [| x l1 IH]; intros l2 Hs a b Ha Hb; [destruct Ha |].
  simpl in Hs. inversion Hs as [| ? ? Hs' Hall]; subst.
  destruct Ha as [<- | Ha].
  - rewrite Forall_forall in Hall. apply Hall. apply in_or_app. now right.
  - now apply (IH l2).
Qed.

(** The dashboard shows the most attempted quizzes: the statistics of all
    quizzes split into the ones shown and the ones left out, no quiz left out
    has more attempts than a quiz shown, and nothing is left out when there
    are at most five quizzes. *)
Theorem dashboard_shows_most_attempted s :
  exists d stats hidden,
    get_dashboard_stats s = Return d
    /\ Forall2 (quiz_stat_of s) (quizzes s) stats
    /\ Permutation (quiz_stats d ++ hidden) stats
    /\ (forall a b, In a (quiz_stats d) -> In b hidden -> attempts a >= attempts b)
    /\ List.length (quiz_stats d) = Nat.min 5 (List.length (quizzes s))
    /\ ((List.length (quizzes s) <= 5)%nat -> hidden = []).
Proof.
  destruct (quiz_stats_return s (quizzes s)) as (stats & Hm & Hall).
  unfold get_dashboard_stats. rewrite Hm. cbn [bind].
  eexists. exists stats, (skipn 5 (sort_desc attempts stats)).
  split; [reflexivity |]. cbn [quiz_stats].
  assert (List.length (sort_desc attempts stats) = List.length (quizzes s)) as Hl.
  { rewrite (Permutation_length (sort_desc_perm attempts stats)).
    symmetry. eapply Forall2_length, Hall. }
  split; [exact Hall |]. split; [| split; [| split]].
  - rewrite firstn_skipn. apply sort_desc_perm.
  - apply (sorted_app_ordered (descending attempts)).
    rewrite firstn_skipn. apply sort_desc_sorted.
  - rewrite length_firstn, Hl. reflexivity.
  - intros Hle. apply skipn_all2. lia.
Qed.

Lemma dashboard_shows_most_attempted_witness :
  exists d stats hidden,
    get_dashboard_stats store_four = Return d
    /\ Forall2 (quiz_stat_of store_four) (quizzes store_four) stats
    /\ Permutation (quiz_stats d ++ hidden) stats
    /\ (forall a b, In a (quiz_stats d) -> In b hidden -> attempts a >= attempts b)
    /\ List.length (quiz_stats d) = Nat.min 5 (List.length (quizzes store_four))
    /\ ((List.length (quizzes store_four) <= 5)%nat -> hidden = []).
Proof. exact (dashboard_shows_most_attempted store_four). Defined.

(** ** The statistics of a user *)

Lemma percentage_percent sc : percentage sc = Return (percent sc).
Proof. unfold percent. destruct (percentage_returns sc) as (v & -> & _). reflexivity. Qed.

Lemma map_percentage scs : map_outcome percentage scs = Return (map percent scs).
Proof.
  induction scs as [| sc scs IH]; [reflexivity |].
  cbn [map_outcome map]. now rewrite percentage_percent, IH.
Qed.

Lemma subject_loop_step s score rest acc :
  subject_loop s (score :: rest) acc
  = (subject <- subject_of s score ;;
     let data :=
       match dict_get acc (subject_name subject) with
       | Some d => d
       | None => {| data_total := PyInt 0; data_count := 0 |}
       end in
     subject_loop s rest
       (dict_set acc (subject_name subject)
          {| data_total := py_add (data_total data) (percent score);
             data_count := data_count data + 1 |})).
Proof.
  cbn [subject_loop]. unfold subject_of.
  destruct (attr (quiz_get s (score_quiz_id score))) as [quiz | e]; [| reflexivity].
  cbn [bind]. destruct (attr (chapter_get s (quiz_chapter_id quiz))) as [ch | e]; [| reflexivity].
  cbn [bind]. destruct (attr (subject_get s (chapter_subject_id ch))) as [subj | e];
    [| reflexivity].
  cbn [bind]. now rewrite percentage_percent.
Qed.

Lemma subject_of_raises s score e : subject_of s score = Raise e -> e = AttributeError.
Proof.
  unfold subject_of, attr.
  destruct (quiz_get s _) as [quiz |]; cbn [bind]; [| now intros [= <-]].
  destruct (chapter_get s _) as [ch |]; cbn [bind]; [| now intros [= <-]].
  destruct (subject_get s _); [discriminate | now intros [= <-]].
Qed.

Lemma subject_loop_outcome s scs : forall acc,
  (forallb (linked s) scs = true /\ exists final, subject_loop s scs acc = Return final)
  \/ (forallb (linked s) scs = false /\ subject_loop s scs acc = Raise AttributeError).
Proof.
  induction scs as [| sc scs IH]; intros acc; [left; simpl; eauto |].
  rewrite subject_loop_step. cbn [forallb]. unfold linked at 1 3.
  destruct (subject_of s sc) as [subj | e] eqn:E; cbn [bind andb].
  - apply IH.
  - right. apply subject_of_raises in E as ->. auto.
Qed.

Lemma subject_average_returns data : exists v, subject_average data = Return v.
Proof.
  unfold subject_average. destruct (data_count data >? 0) eqn:E; [| eauto].
  destruct (py_truediv_by_int (data_total data) (data_count data)) as [x ->]; [| simpl; eauto].
  apply Z.gtb_lt in E. lia.
Qed.

Lemma user_average_returns scs :
  exists v,
    match scs with
    | [] => Return (PyInt 0)
    | _ :: _ =>
        ps <- map_outcome percentage scs ;;
        py_truediv (py_sum ps) (PyInt (Z.of_nat (List.length scs)))
    end = Return v.
Proof.
  destruct scs as [| sc scs]; [eauto |].
  rewrite map_percentage. cbn [bind].
  destruct (py_truediv_by_int (py_sum (map percent (sc :: scs)))
              (Z.of_nat (List.length (sc :: scs)))) as [x ->]; [simpl; lia | eauto].
Qed.

Lemma completion_rate_returns completed total :
  exists v,
    (if total >? 0 then
       ratio <- py_truediv (PyInt completed) (PyInt total) ;;
       Return (py_round2 (py_mul ratio (PyInt 100)))
     else Return (PyInt 0)) = Return v.
Proof.
  destruct (total >? 0) eqn:E; [| eauto]. apply Z.gtb_lt in E.
  rewrite py_truediv_ints by lia. simpl. eauto.
Qed.

(** [get_user_stats] returns exactly when every Score of the user leads to a
    quiz, a chapter of that quiz and a subject of that chapter that exist; when
    one does not, the attribute read on [None] raises [AttributeError]. *)
Theorem user_stats_return_iff_linked s user :
  ((exists us, get_user_stats s user = Return us)
   <-> forallb (linked s) (scores_of_user s user) = true)
  /\ (get_user_stats s user = Raise AttributeError
      <-> forallb (linked s) (scores_of_user s user) = false).
Proof.
  unfold get_user_stats.
  destruct (user_average_returns (scores_of_user s user)) as [avg ->]. cbn [bind].
  destruct (subject_loop_outcome s (scores_of_user s user) []) as [[L (final & ->)] | [L ->]];
    rewrite L; cbn [bind].
  - destruct (map_outcome_returns
                (fun kv : pystr * SubjectData =>
                   a <- subject_average (snd kv) ;; Return (fst kv, a)) final) as [avs ->].
    { intros kv _. destruct (subject_average_returns (snd kv)) as [v ->]. simpl. eauto. }
    cbn [bind].
    destruct (completion_rate_returns (Z.of_nat (List.length (scores_of_user s user)))
                (Z.of_nat (List.length (quizzes s)))) as [rate ->].
    cbn [bind]. split; split; intros H; try discriminate; eauto.
  - split; split; intros H; try discriminate; try reflexivity.
    destruct H as [us H]. discriminate.
Qed.

(** For a user without a Score [get_user_stats] returns average 0, no
    quiz completed, no subject average, and a completion rate of 0: the
    integer 0 when there is no quiz, the float 0.0 otherwise. *)
Theorem user_stats_without_scores s user :
  scores_of_user s user = [] ->
  get_user_stats s user
  = Return {| avg_percentage := PyInt 0;
              completed_quizzes := 0;
              completion_rate :=
                match quizzes s with
                | [] => PyInt 0
                | _ :: _ => PyFloat (S754_zero false)
                end;
              subject_avg := [] |}.
Proof.
  intros H. unfold get_user_stats. rewrite H. cbn [bind subject_loop map_outcome List.length].
  destruct (quizzes s) as [| q qs]; [reflexivity |].
  replace (Z.of_nat (List.length (q :: qs)) >? 0) with true
    by (symmetry; apply Z.gtb_lt; simpl; lia).
  rewrite py_truediv_ints by (simpl; lia). cbn [bind].
  unfold int_quotient. cbn [Z.of_nat].
  replace (Z.of_nat (List.length (q :: qs)) <? 0) with false
    by (symmetry; apply Z.ltb_ge; lia).
  reflexivity.
Qed.

Lemma user_stats_without_scores_witness :
  get_user_stats store0 7
  = Return {| avg_percentage := PyInt 0; completed_quizzes := 0;
              completion_rate := PyFloat (S754_zero false); subject_avg := [] |}.
Proof. apply (user_stats_without_scores store0 7). reflexivity. Defined.

(** *** Averages by subject *)

Lemma py_sum_snoc ps p : py_sum (ps ++ [p]) = py_add (py_sum ps) p.
Proof. unfold py_sum. now rewrite fold_left_app. Qed.

Lemma in_subject_linked s name sc : in_subject s name sc = true -> linked s sc = true.
Proof. unfold in_subject, linked. now destruct (subject_of s sc). Qed.

Lemma subject_data_snoc s done sc subj name :
  subject_of s sc = Return subj ->
  subject_data s (done ++ [sc]) name
  = if pystr_eqb (subject_name subj) name then
      Some (let data := match subject_data s done name with
                        | Some d => d
                        | None => {| data_total := PyInt 0; data_count := 0 |}
                        end in
            {| data_total := py_add (data_total data) (percent sc);
               data_count := data_count data + 1 |})
    else subject_data s done name.
Proof.
  intros Hs. unfold subject_data. rewrite filter_app. cbn [filter].
  unfold in_subject at 2. rewrite Hs.
  destruct (pystr_eqb (subject_name subj) name).
  - destruct (filter (in_subject s name) done) as [| x l] eqn:E.
    + reflexivity.
    + cbv zeta. cbn [data_total data_count app]. f_equal. f_equal.
      * change (x :: l ++ [sc]) with ((x :: l) ++ [sc]). rewrite map_app. apply py_sum_snoc.
      * change (x :: l ++ [sc]) with ((x :: l) ++ [sc]). rewrite length_app.
        cbn [List.length]. lia.
  - now rewrite app_nil_r.
Qed.

Lemma subject_loop_accumulates s todo : forall done acc final,
  NoDup (dict_keys acc) ->
  (forall name, dict_get acc name = subject_data s done name) ->
  subject_loop s todo acc = Return final ->
  NoDup (dict_keys final)
  /\ (forall name, dict_get final name = subject_data s (done ++ todo) name).
Proof.
  induction todo as [| sc todo IH]; intros done acc final Hn Hacc H.
  - injection H as <-. rewrite app_nil_r. auto.
  - rewrite subject_loop_step in H.
    destruct (subject_of s sc) as [subj | e] eqn:Hs; [| discriminate].
    cbn [bind] in H. cbv zeta in H.
    replace (done ++ sc :: todo) with ((done ++ [sc]) ++ todo)
      by (now rewrite <- app_assoc).
    apply (IH (done ++ [sc])) in H; [exact H | now apply dict_set_keys_nodup |].
    intros name. rewrite (subject_data_snoc s done sc subj name Hs).
    destruct (pystr_eqb (subject_name subj) name) eqn:E.
    + apply pystr_eqb_eq in E. subst name. rewrite dict_get_set_same.
      cbv zeta. now rewrite Hacc.
    + rewrite dict_get_set_other; [apply Hacc |].
      intros ->. now rewrite pystr_eqb_refl in E.
Qed.

Lemma dict_get_in {V} (d : pydict V) k v :
  NoDup (dict_keys d) -> In (k, v) d -> dict_get d k = Some v.
Proof.
  induction d as [| [k' v'] d IH]; intros Hn Hin; [destruct Hin |].
  inversion Hn as [| ? ? Hk Hn']; subst. cbn [dict_get].
  destruct Hin as [[= -> ->] | Hin]; [now rewrite pystr_eqb_refl |].
  destruct (pystr_eqb k' k) eqn:E; [| now apply IH].
  apply pystr_eqb_eq in E. subst k'. exfalso. apply Hk.
  apply in_map_iff. exists (k, v). auto.
Qed.

Lemma dict_get_some_in {V} (d : pydict V) k v : dict_get d k = Some v -> In (k, v) d.
Proof.
  induction d as [| [k' v'] d IH]; [discriminate |]. cbn [dict_get].
  destruct (pystr_eqb k' k) eqn:E.
  - apply pystr_eqb_eq in E. intros [= ->]. subst. now left.
  - intros H. right. now apply IH.
Qed.

Lemma subject_averages_entries (d : pydict SubjectData) : forall averages,
  map_outcome (fun kv => a <- subject_average (snd kv) ;; Return (fst kv, a)) d
  = Return averages ->
  dict_keys averages = dict_keys d
  /\ forall name v, In (name, v) averages ->
       exists data, In (name, data) d /\ subject_average data = Return v.
Proof.
  induction d as [| [k data] d IH]; intros averages H.
  - injection H as <-. split; [reflexivity | intros ? ? []].
  - cbn [map_outcome fst snd] in H.
    destruct (subject_average data) as [a | e] eqn:Ha; [| discriminate]. cbn [bind] in H.
    destruct (map_outcome _ d) as [rest | e]; [| discriminate]. cbn [bind] in H.
    injection H as <-. destruct (IH rest eq_refl) as [Hk Hv]. split.
    + unfold dict_keys in *. simpl. now rewrite Hk.
    + intros name v [[= <- <-] | Hin].
      * exists data. split; [now left | exact Ha].
      * destruct (Hv name v Hin) as (data' & Hin' & Ha'). exists data'. split; [now right | auto].
Qed.

Lemma subject_averages_of_user s user us :
  get_user_stats s user = Return us ->
  NoDup (dict_keys (subject_avg us))
  /\ (forall sc, In sc (scores_of_user s user) ->
        exists subject, subject_of s sc = Return subject
                        /\ In (subject_name subject) (dict_keys (subject_avg us)))
  /\ (forall name v, In (name, v) (subject_avg us) ->
        exists ps avg,
          map_outcome percentage (filter (in_subject s name) (scores_of_user s user))
          = Return ps
          /\ ps <> [] /\ mean ps = Return avg /\ v = py_round2 avg).
Proof.
  unfold get_user_stats. intros H.
  apply bind_returns in H as (avg & _ & H).
  apply bind_returns in H as (subs & Hloop & H).
  apply bind_returns in H as (averages & Hs & H).
  apply bind_returns in H as (rate & _ & H).
  injection H as <-. cbn [subject_avg].
  assert (forallb (linked s) (scores_of_user s user) = true) as Hl.
  { destruct (subject_loop_outcome s (scores_of_user s user) []) as [[L _] | [_ E]];
      [exact L | congruence]. }
  apply (subject_loop_accumulates s _ []) in Hloop as [Hn Hget];
    [| constructor | reflexivity].
  cbn [app] in Hget.
  apply subject_averages_entries in Hs as [Hk Hv].
  split; [now rewrite Hk |]. split.
  - intros sc Hin. rewrite forallb_forall in Hl. specialize (Hl sc Hin). unfold linked in Hl.
    destruct (subject_of s sc) as [subj | e] eqn:E; [| discriminate].
    exists subj. split; [reflexivity |]. rewrite Hk.
    specialize (Hget (subject_name subj)). unfold subject_data in Hget.
    destruct (filter (in_subject s (subject_name subj)) (scores_of_user s user)) as [| x l] eqn:F.
    + exfalso. assert (In sc []) as [].
      rewrite <- F. apply filter_In. split; [exact Hin |].
      unfold in_subject. rewrite E. apply pystr_eqb_refl.
    + apply dict_get_some_in in Hget. apply in_map_iff. eexists. split; [| exact Hget].
      reflexivity.
  - intros name v Hin. destruct (Hv name v Hin) as (data & Hd & Ha).
    apply dict_get_in in Hd; [| exact Hn]. rewrite Hget in Hd. unfold subject_data in Hd.
    rewrite map_percentage.
    destruct (filter (in_subject s name) (scores_of_user s user)) as [| x l]; [discriminate |].
    injection Hd as <-. unfold subject_average in Ha. cbn [data_count data_total] in Ha.
    replace (Z.of_nat (List.length (x :: l)) >? 0) with true in Ha
      by (symmetry; apply Z.gtb_lt; simpl; lia).
    apply bind_returns in Ha as (a & Ha & Hr). injection Hr as <-.
    exists (map percent (x :: l)), a. split; [reflexivity |]. split; [discriminate |].
    split; [| reflexivity]. unfold mean. now rewrite length_map.
Qed.

(** The per-subject averages of [get_user_stats]: one entry for each subject
    name that a Score of the user leads to, and its value is the mean of the
    percentages of the user's Scores that lead to a subject of that name,
    taken in the order of the Scores and rounded by [round(_, 2)]. *)
Theorem subject_average_is_mean_of_subject_scores s user us :
  get_user_stats s user = Return us ->
  NoDup (dict_keys (subject_avg us))
  /\ (forall sc, In sc (scores_of_user s user) ->
        exists subject, subject_of s sc = Return subject
                        /\ In (subject_name subject) (dict_keys (subject_avg us)))
  /\ (forall name v, In (name, v) (subject_avg us) ->
        exists ps avg,
          map_outcome percentage (filter (in_subject s name) (scores_of_user s user))
          = Return ps
          /\ ps <> [] /\ mean ps = Return avg /\ v = py_round2 avg).
Proof. apply subject_averages_of_user. Qed.

Lemma subject_average_is_mean_of_subject_scores_witness :
  NoDup (dict_keys [(pystr_of_string "Maths", PyFloat (float_of_int 50))])
  /\ (forall sc, In sc (scores_of_user store_taken 7) ->
        exists subject,
          subject_of store_taken sc = Return subject
          /\ In (subject_name subject)
                (dict_keys [(pystr_of_string "Maths", PyFloat (float_of_int 50))]))
  /\ (forall name v, In (name, v) [(pystr_of_string "Maths", PyFloat (float_of_int 50))] ->
        exists ps avg,
          map_outcome percentage (filter (in_subject store_taken name)
                                         (scores_of_user store_taken 7))
          = Return ps
          /\ ps <> [] /\ mean ps = Return avg /\ v = py_round2 avg).
Proof.
  exact (subject_average_is_mean_of_subject_scores store_taken 7 _ eq_refl).
Defined.

(** ** Deleting: the cascade *)

Lemma find_filter_kept {A} (p keep : A -> bool) l :
  (forall x, p x = true -> keep x = true) -> find p (filter keep l) = find p l.
Proof.
  intros H. induction l as [| x l IH]; [reflexivity |]. cbn [filter find].
  destruct (keep x) eqn:K; cbn [find].
  - now rewrite IH.
  - destruct (p x) eqn:P; [| exact IH]. apply H in P. congruence.
Qed.

Lemma find_filter_dropped {A} (p keep : A -> bool) l :
  (forall x, p x = true -> keep x = false) -> find p (filter keep l) = None.
Proof.
  intros H. induction l as [| x l IH]; [reflexivity |]. cbn [filter].
  destruct (keep x) eqn:K; [| exact IH]. cbn [find].
  destruct (p x) eqn:P; [| exact IH]. apply H in P. congruence.
Qed.

Lemma negb_eqb_kept a b c : (a =? b) = true -> b <> c -> negb (a =? c) = true.
Proof. intros H Hn. apply Z.eqb_eq in H. subst. apply negb_true_iff, Z.eqb_neq, Hn. Qed.

Lemma drop_quiz_get_other s id id' :
  id' <> id -> quiz_get (drop_quiz s id) id' = quiz_get s id'.
Proof.
  intros Hn. unfold quiz_get, drop_quiz. cbn [quizzes]. apply find_filter_kept.
  intros q Hq. now apply negb_eqb_kept with id'.
Qed.

Lemma drop_quiz_get_same s id : quiz_get (drop_quiz s id) id = None.
Proof.
  unfold quiz_get, drop_quiz. cbn [quizzes]. apply find_filter_dropped.
  intros q Hq. now rewrite Hq.
Qed.

Lemma drop_quiz_linked s id : well_linked s -> well_linked (drop_quiz s id).
Proof.
  intros (Hq & Hs & Hc & Hsub). unfold well_linked.
  rewrite !Forall_forall in *. repeat split.
  - intros q Hin. apply filter_In in Hin as [Hin Hk]. apply negb_true_iff, Z.eqb_neq in Hk.
    rewrite drop_quiz_get_other by exact Hk. now apply Hq.
  - intros sc Hin. apply filter_In in Hin as [Hin Hk]. apply negb_true_iff, Z.eqb_neq in Hk.
    rewrite drop_quiz_get_other by exact Hk. now apply Hs.
  - intros q Hin. apply filter_In in Hin as [Hin _]. now apply Hc.
  - exact Hsub.
Qed.

Lemma filter_not_among {A} (key : A -> Z) a ids l :
  filter (fun x => negb (among ids (key x))) (filter (fun x => negb (key x =? a)) l)
  = filter (fun x => negb (among (a :: ids) (key x))) l.
Proof.
  induction l as [| x l IH]; [reflexivity |]. cbn [filter among existsb].
  destruct (key x =? a); cbn [negb orb filter]; [exact IH |].
  fold (among ids (key x)). destruct (among ids (key x)); cbn [negb]; now rewrite IH.
Qed.

Lemma filter_all {A} (l : list A) : filter (fun _ => true) l = l.
Proof. induction l as [| x l IH]; [reflexivity |]. simpl. now rewrite IH. Qed.

Lemma drop_quizzes_rows ids : forall s,
  let s' := fold_left drop_quiz ids s in
  users s' = users s /\ subjects s' = subjects s /\ chapters s' = chapters s
  /\ quizzes s' = filter (fun q => negb (among ids (quiz_id q))) (quizzes s)
  /\ questions s' = filter (fun q => negb (among ids (question_quiz_id q))) (questions s)
  /\ scores s' = filter (fun sc => negb (among ids (score_quiz_id sc))) (scores s).
Proof.
  induction ids as [| a ids IH]; intros s; cbv zeta.
  - cbn [fold_left among existsb negb]. now rewrite !filter_all.
  - cbn [fold_left]. destruct (IH (drop_quiz s a)) as (Hu & Hsub & Hc & Hq & Hqs & Hsc).
    rewrite Hu, Hsub, Hc, Hq, Hqs, Hsc. unfold drop_quiz.
    cbn [users subjects chapters quizzes questions scores].
    now rewrite !filter_not_among.
Qed.

Lemma drop_quizzes_linked ids : forall s,
  well_linked s -> well_linked (fold_left drop_quiz ids s).
Proof.
  induction ids as [| a ids IH]; intros s H; [exact H |].
  cbn [fold_left]. apply IH. now apply drop_quiz_linked.
Qed.

Lemma among_in ids id : among ids id = true <-> In id ids.
Proof.
  unfold among. rewrite existsb_exists. split.
  - intros (x & Hin & He). apply Z.eqb_eq in He. now subst.
  - intros H. exists id. split; [exact H | apply Z.eqb_refl].
Qed.

(** After the cascade of a chapter no quiz of the chapter is left. *)
Lemma drop_chapter_rows s id :
  let s' := drop_chapter s id in
  users s' = users s /\ subjects s' = subjects s
  /\ chapters s' = filter (fun c => negb (chapter_id c =? id)) (chapters s)
  /\ (exists keep, quizzes s' = filter keep (quizzes s))
  /\ (exists keep, questions s' = filter keep (questions s))
  /\ (exists keep, scores s' = filter keep (scores s))
  /\ Forall (fun q => quiz_chapter_id q <> id) (quizzes s').
Proof.
  cbv zeta. unfold drop_chapter.
  set (ids := map quiz_id (filter (fun q => quiz_chapter_id q =? id) (quizzes s))).
  destruct (drop_quizzes_rows ids s) as (Hu & Hsub & Hc & Hq & Hqs & Hsc).
  cbn [users subjects chapters quizzes questions scores].
  rewrite Hu, Hsub, Hc, Hq, Hqs, Hsc. repeat split; eauto.
  apply Forall_forall. intros q Hin. apply filter_In in Hin as [Hin Hk].
  intros Hch. apply negb_true_iff in Hk.
  assert (among ids (quiz_id q) = true) as Ha; [| congruence].
  apply among_in. unfold ids. apply in_map. apply filter_In. split; [exact Hin |].
  now apply Z.eqb_eq.
Qed.

Lemma chapter_get_filter_other (l : list Chapter) id id' :
  id' <> id ->
  find (fun c => chapter_id c =? id') (filter (fun c => negb (chapter_id c =? id)) l)
  = find (fun c => chapter_id c =? id') l.
Proof.
  intros Hn. apply find_filter_kept. intros c Hc. now apply negb_eqb_kept with id'.
Qed.

Lemma drop_chapter_linked s id : well_linked s -> well_linked (drop_chapter s id).
Proof.
  intros H.
  pose proof (drop_quizzes_linked
                (map quiz_id (filter (fun q => quiz_chapter_id q =? id) (quizzes s))) s H)
    as (Hq & Hs & Hc & Hsub).
  destruct (drop_chapter_rows s id) as (_ & _ & _ & _ & _ & _ & Hgone).
  unfold drop_chapter in *. cbv zeta in *.
  set (s1 := fold_left drop_quiz _ s) in *.
  unfold well_linked, quiz_get, chapter_get, subject_get in *.
  cbn [users subjects chapters quizzes questions scores] in *.
  repeat split; try assumption.
  - rewrite Forall_forall in *. intros q Hin.
    rewrite chapter_get_filter_other by (now apply Hgone). now apply Hc.
  - rewrite Forall_forall in *. intros c Hin. apply filter_In in Hin as [Hin _].
    now apply Hsub.
Qed.

Lemma filter_filter {A} (f g : A -> bool) l :
  filter f (filter g l) = filter (fun x => g x && f x) l.
Proof.
  induction l as [| x l IH]; [reflexivity |]. cbn [filter].
  destruct (g x); cbn [filter andb]; [destruct (f x) |]; now rewrite IH.
Qed.

Lemma drop_chapters_rows ids : forall s,
  let s' := fold_left drop_chapter ids s in
  users s' = users s /\ subjects s' = subjects s
  /\ chapters s' = filter (fun c => negb (among ids (chapter_id c))) (chapters s)
  /\ (exists keep, quizzes s' = filter keep (quizzes s))
  /\ (exists keep, questions s' = filter keep (questions s))
  /\ (exists keep, scores s' = filter keep (scores s)).
Proof.
  induction ids as [| a ids IH]; intros s; cbv zeta.
  - cbn [fold_left among existsb negb]. rewrite filter_all.
    repeat split; exists (fun _ => true); now rewrite filter_all.
  - cbn [fold_left].
    destruct (IH (drop_chapter s a)) as (Hu & Hsub & Hc & (k1 & Hq) & (k2 & Hqs) & (k3 & Hsc)).
    destruct (drop_chapter_rows s a)
      as (Hu' & Hsub' & Hc' & (k1' & Hq') & (k2' & Hqs') & (k3' & Hsc') & _).
    rewrite Hu, Hsub, Hc, Hq, Hqs, Hsc, Hu', Hsub', Hc', Hq', Hqs', Hsc'.
    rewrite filter_not_among, !filter_filter. repeat split; eauto.
Qed.

Lemma drop_chapters_linked ids : forall s,
  well_linked s -> well_linked (fold_left drop_chapter ids s).
Proof.
  induction ids as [| a ids IH]; intros s H; [exact H |].
  cbn [fold_left]. apply IH. now apply drop_chapter_linked.
Qed.

Lemma drop_subject_rows s id :
  let s' := drop_subject s id in
  users s' = users s
  /\ subjects s' = filter (fun x => negb (subject_id x =? id)) (subjects s)
  /\ (exists keep, chapters s' = filter keep (chapters s))
  /\ (exists keep, quizzes s' = filter keep (quizzes s))
  /\ (exists keep, questions s' = filter keep (questions s))
  /\ (exists keep, scores s' = filter keep (scores s))
  /\ Forall (fun c => chapter_subject_id c <> id) (chapters s').
Proof.
  cbv zeta. unfold drop_subject.
  set (ids := map chapter_id (filter (fun c => chapter_subject_id c =? id) (chapters s))).
  destruct (drop_chapters_rows ids s) as (Hu & Hsub & Hc & Hq & Hqs & Hsc).
  cbn [users subjects chapters quizzes questions scores].
  rewrite Hu, Hsub, Hc. repeat split; eauto.
  apply Forall_forall. intros c Hin. apply filter_In in Hin as [Hin Hk].
  intros Hch. apply negb_true_iff in Hk.
  assert (among ids (chapter_id c) = true) as Ha; [| congruence].
  apply among_in. unfold ids. apply in_map. apply filter_In. split; [exact Hin |].
  now apply Z.eqb_eq.
Qed.

Lemma drop_subject_linked s id : well_linked s -> well_linked (drop_subject s id).
Proof.
  intros H.
  pose proof (drop_chapters_linked
                (map chapter_id (filter (fun c => chapter_subject_id c =? id) (chapters s)))
                s H) as (Hq & Hs & Hc & Hsub).
  destruct (drop_subject_rows s id) as (_ & _ & _ & _ & _ & _ & Hgone).
  unfold drop_subject in *. cbv zeta in *.
  set (s1 := fold_left drop_chapter _ s) in *.
  unfold well_linked, quiz_get, chapter_get, subject_get in *.
  cbn [users subjects chapters quizzes questions scores] in *.
  repeat split; try assumption.
  rewrite Forall_forall in *. intros c Hin.
  rewrite find_filter_kept; [now apply Hsub |].
  intros x Hx. apply negb_eqb_kept with (chapter_subject_id c); [exact Hx |].
  now apply Hgone.
Qed.

Lemma drop_question_linked s id : well_linked s -> well_linked (drop_question s id).
Proof.
  intros (Hq & Hs & Hc & Hsub). unfold well_linked, quiz_get, chapter_get, subject_get in *.
  cbn [users subjects chapters quizzes questions scores drop_question].
  repeat split; try assumption.
  rewrite Forall_forall in *. intros q Hin. apply filter_In in Hin as [Hin _]. now apply Hq.
Qed.

Lemma guarded_cases s v view :
  login_required v s (admin_required v s view) = view
  \/ fst (login_required v s (admin_required v s view)) = s.
Proof. destruct v as [| id [|]]; simpl; auto. Qed.

(** The delete routes keep the links between the tables whole: when every
    question and Score refers to a quiz that exists, every quiz to a chapter
    and every chapter to a subject, the same holds after deleting a question,
    a quiz, a chapter or a subject, because the deletion cascades. *)
Theorem deletes_keep_links s v id :
  well_linked s ->
  well_linked (fst (delete_question s v id))
  /\ well_linked (fst (delete_quiz s v id))
  /\ well_linked (fst (delete_chapter s v id))
  /\ well_linked (fst (delete_subject s v id)).
Proof.
  intros H. unfold delete_question, delete_quiz, delete_chapter, delete_subject.
  split; [| split; [| split]];
    (match goal with
     | |- well_linked (fst (login_required v s (admin_required v s ?view))) =>
         destruct (guarded_cases s v view) as [-> | ->]; [| exact H]
     end).
  - destruct (question_get s id); [now apply drop_question_linked | exact H].
  - destruct (quiz_get s id); [now apply drop_quiz_linked | exact H].
  - destruct (chapter_get s id); [now apply drop_chapter_linked | exact H].
  - destruct (subject_get s id); [now apply drop_subject_linked | exact H].
Qed.

Lemma store_taken_linked : well_linked store_taken.
Proof. repeat split; repeat constructor; simpl; discriminate. Qed.

Lemma deletes_keep_links_witness :
  well_linked (fst (delete_question store_taken (Member 1 true) 1))
  /\ well_linked (fst (delete_quiz store_taken (Member 1 true) 1))
  /\ well_linked (fst (delete_chapter store_taken (Member 1 true) 1))
  /\ well_linked (fst (delete_subject store_taken (Member 1 true) 1)).
Proof. apply (deletes_keep_links store_taken (Member 1 true) 1). exact store_taken_linked. Defined.

(** Deleting a quiz.  The route answers that it is done exactly for an
    administrator and a quiz that exists; with any other answer (a visitor
    who is not an administrator, an unknown identifier) the store is left as
    it was; and for an administrator and a quiz that exists the quiz, its
    questions and its Scores are gone, and every other quiz keeps its row,
    its questions and its Scores, as do the users, subjects and chapters. *)
Theorem delete_quiz_removes_that_quiz_only s v id :
  let s' := fst (delete_quiz s v id) in
  (snd (delete_quiz s v id) = AdminDone
   <-> (exists user, v = Member user true) /\ quiz_get s id <> None)
  /\ (snd (delete_quiz s v id) <> AdminDone -> s' = s)
  /\ ((exists user, v = Member user true) -> quiz_get s id <> None ->
      snd (delete_quiz s v id) = AdminDone
      /\ quiz_get s' id = None /\ questions_of s' id = [] /\ scores_of_quiz s' id = []
      /\ users s' = users s /\ subjects s' = subjects s /\ chapters s' = chapters s
      /\ forall other, other <> id ->
           quiz_get s' other = quiz_get s other
           /\ questions_of s' other = questions_of s other
           /\ scores_of_quiz s' other = scores_of_quiz s other).
Proof.
  cbv zeta. unfold delete_quiz.
  destruct v as [| user [|]]; cbn [login_required admin_required fst snd].
  1, 3: (split; [split; [discriminate | intros [[u [=]] _]] |];
         split; [reflexivity | intros [u [=]]]).
  destruct (quiz_get s id) as [q |] eqn:Hq.
  2: { cbn [fst snd]. split; [split; [discriminate | intros [_ H]; congruence] |].
       split; [reflexivity | congruence]. }
  rewrite (quiz_get_id s id q Hq). cbn [fst snd].
  split; [split; [intros _; split; [eauto | discriminate] | reflexivity] |].
  split; [congruence |]. intros _ _. split; [reflexivity |].
  split; [apply drop_quiz_get_same |].
  unfold questions_of, scores_of_quiz, drop_quiz.
  cbn [users subjects chapters quizzes questions scores].
  rewrite !filter_filter.
  split; [| split; [| repeat split]].
  - induction (questions s) as [| x l IH]; [reflexivity |]. cbn [filter].
    destruct (question_quiz_id x =? id); cbn [negb andb]; exact IH.
  - induction (scores s) as [| x l IH]; [reflexivity |]. cbn [filter].
    destruct (score_quiz_id x =? id); cbn [negb andb]; exact IH.
  - now apply drop_quiz_get_other.
  - rewrite filter_filter. apply filter_ext_in. intros x _.
    destruct (question_quiz_id x =? id) eqn:E1, (question_quiz_id x =? other) eqn:E2;
      try reflexivity.
    apply Z.eqb_eq in E1, E2. congruence.
  - rewrite filter_filter. apply filter_ext_in. intros x _.
    destruct (score_quiz_id x =? id) eqn:E1, (score_quiz_id x =? other) eqn:E2;
      try reflexivity.
    apply Z.eqb_eq in E1, E2. congruence.
Qed.

Lemma delete_quiz_removes_that_quiz_only_witness :
  (snd (delete_quiz store_taken (Member 1 true) 1) = AdminDone
   /\ quiz_get (fst (delete_quiz store_taken (Member 1 true) 1)) 1 = None
   /\ questions_of (fst (delete_quiz store_taken (Member 1 true) 1)) 1 = []
   /\ scores_of_quiz (fst (delete_quiz store_taken (Member 1 true) 1)) 1 = []
   /\ users (fst (delete_quiz store_taken (Member 1 true) 1)) = users store_taken
   /\ subjects (fst (delete_quiz store_taken (Member 1 true) 1)) = subjects store_taken
   /\ chapters (fst (delete_quiz store_taken (Member 1 true) 1)) = chapters store_taken
   /\ forall other, other <> 1 ->
        quiz_get (fst (delete_quiz store_taken (Member 1 true) 1)) other
        = quiz_get store_taken other
        /\ questions_of (fst (delete_quiz store_taken (Member 1 true) 1)) other
           = questions_of store_taken other
        /\ scores_of_quiz (fst (delete_quiz store_taken (Member 1 true) 1)) other
           = scores_of_quiz store_taken other)
  /\ fst (delete_quiz store_taken (Member 7 false) 1) = store_taken.
Proof.
  split.
  - apply (proj2 (proj2 (delete_quiz_removes_that_quiz_only store_taken (Member 1 true) 1))).
    + now exists 1.
    + discriminate.
  - apply (proj1 (proj2 (delete_quiz_removes_that_quiz_only store_taken (Member 7 false) 1))).
    discriminate.
Defined.

Lemma filter_length_le {A} (f : A -> bool) l : (List.length (filter f l) <= List.length l)%nat.
Proof.
  induction l as [| x l IH]; [apply le_n |]. cbn [filter].
  destruct (f x); cbn [List.length]; lia.
Qed.

Lemma delete_routes_filter_scores s v id :
  (exists keep, scores (fst (delete_question s v id)) = filter keep (scores s))
  /\ (exists keep, scores (fst (delete_quiz s v id)) = filter keep (scores s))
  /\ (exists keep, scores (fst (delete_chapter s v id)) = filter keep (scores s))
  /\ (exists keep, scores (fst (delete_subject s v id)) = filter keep (scores s)).
Proof.
  assert (exists keep, scores s = filter keep (scores s)) as Hsame
    by (exists (fun _ => true); now rewrite filter_all).
  unfold delete_question, delete_quiz, delete_chapter, delete_subject.
  split; [| split; [| split]];
    (match goal with
     | |- exists _, scores (fst (login_required v s (admin_required v s ?view))) = _ =>
         destruct (guarded_cases s v view) as [-> | ->]; [| exact Hsame]
     end).
  - destruct (question_get s id); [| exact Hsame]. exact Hsame.
  - destruct (quiz_get s id); [| exact Hsame]. simpl. eauto.
  - destruct (chapter_get s id) as [c |]; [| exact Hsame]. cbn [fst].
    now destruct (drop_chapter_rows s (chapter_id c)) as (_ & _ & _ & _ & _ & H & _).
  - destruct (subject_get s id) as [x |]; [| exact Hsame]. cbn [fst].
    now destruct (drop_subject_rows s (subject_id x)) as (_ & _ & _ & _ & _ & H & _).
Qed.

Lemma filtered_scores_keep_invariants s s' keep :
  scores s' = filter keep (scores s) ->
  (at_most_one_score s -> at_most_one_score s')
  /\ (score_ids_distinct s -> score_ids_distinct s').
Proof.
  intros H. split.
  - intros Hs user quiz. specialize (Hs user quiz). unfold scores_for in *.
    rewrite H.
    assert (filter (score_for quiz user) (filter keep (scores s))
            = filter keep (filter (score_for quiz user) (scores s))) as ->.
    { rewrite !filter_filter. apply filter_ext. intros x. apply andb_comm. }
    pose proof (filter_length_le keep (filter (score_for quiz user) (scores s))). lia.
  - unfold score_ids_distinct. rewrite H. apply NoDup_map_filter.
Qed.

(** The delete routes keep the Score table sound: a store with at most one
    Score for every user and quiz, or with distinct Score identifiers, has the
    same property after deleting a question, a quiz, a chapter or a
    subject. *)
Theorem deletes_keep_score_invariants s v id :
  let after := [fst (delete_question s v id); fst (delete_quiz s v id);
                fst (delete_chapter s v id); fst (delete_subject s v id)] in
  (at_most_one_score s -> Forall at_most_one_score after)
  /\ (score_ids_distinct s -> Forall score_ids_distinct after).
Proof.
  cbv zeta.
  destruct (delete_routes_filter_scores s v id) as ((k1 & H1) & (k2 & H2) & (k3 & H3) & (k4 & H4)).
  apply (filtered_scores_keep_invariants s) in H1, H2, H3, H4.
  split; intros H; repeat (apply Forall_cons; [tauto |]); apply Forall_nil.
Qed.

Lemma deletes_keep_score_invariants_witness :
  Forall at_most_one_score
    [fst (delete_question store_taken (Member 1 true) 1);
     fst (delete_quiz store_taken (Member 1 true) 1);
     fst (delete_chapter store_taken (Member 1 true) 1);
     fst (delete_subject store_taken (Member 1 true) 1)].
Proof.
  apply (proj1 (deletes_keep_score_invariants store_taken (Member 1 true) 1)).
  intros user quiz. unfold scores_for. simpl.
  destruct (score_for quiz user (score_of 1 1 7 1 2)); simpl; lia.
Defined.

(** ** Links and the statistics *)

Lemma attempt_keeps_links s today now user quiz req :
  well_linked s -> well_linked (fst (attempt_quiz s today now user quiz req)).
Proof.
  intros H.
  destruct (attempt_quiz s today now user quiz req) as [s' r] eqn:E.
  destruct r; try (assert (s' = s) as ->;
    [ pose proof (serve_cases s {| call_today := today; call_now := now; call_user := user;
                                   call_quiz := quiz; call_request := req |}) as Hc;
      unfold serve in Hc; cbn [call_today call_now call_user call_quiz call_request] in Hc;
      rewrite E in Hc; cbn [fst snd] in Hc;
      destruct Hc as [[Hc _] | (sc & Hc & _)]; [exact Hc | discriminate]
    | exact H ]).
  destruct (attempt_quiz_submitted_quiz _ _ _ _ _ _ _ _ E) as (q & Hq & _).
  apply attempt_quiz_submitted in E as (ts & d & _ & _ & ->).
  destruct H as (H1 & H2 & H3 & H4). unfold well_linked, add_score, quiz_get in *.
  cbn [users subjects chapters quizzes questions scores with_scores] in *.
  repeat split; try assumption.
  apply Forall_app. split; [exact H2 |]. constructor; [| constructor].
  cbn [fst with_scores quizzes score_quiz_id]. rewrite Hq. discriminate.
Qed.

(** Serving any sequence of calls of the attempt route keeps the links
    between the tables whole: every Score it creates is of a quiz that
    exists. *)
Theorem attempts_keep_links cs : forall s,
  well_linked s -> well_linked (fst (run s cs)).
Proof.
  induction cs as [| c cs IH]; intros s H; [exact H |].
  rewrite run_cons. cbn [fst]. apply IH. unfold serve. now apply attempt_keeps_links.
Qed.

Lemma attempts_keep_links_witness : well_linked (fst (run store_taken [call_a; call_a])).
Proof. apply (attempts_keep_links [call_a; call_a] store_taken). exact store_taken_linked. Defined.

Lemma find_not_none_in {A} (p : A -> bool) l :
  find p l <> None -> exists x, find p l = Some x /\ In x l.
Proof.
  destruct (find p l) as [x |] eqn:E; [| congruence].
  intros _. exists x. split; [reflexivity |]. now apply find_some in E.
Qed.

Lemma linked_on_linked_store s sc :
  well_linked s -> In sc (scores s) -> linked s sc = true.
Proof.
  intros (_ & Hs & Hq & Hc) Hin. rewrite Forall_forall in *.
  unfold linked, subject_of, attr, quiz_get, chapter_get, subject_get in *.
  destruct (find_not_none_in _ _ (Hs sc Hin)) as (q & -> & Hqin). cbn [bind].
  destruct (find_not_none_in _ _ (Hq q Hqin)) as (c & -> & Hcin). cbn [bind].
  destruct (find_not_none_in _ _ (Hc c Hcin)) as (x & -> & _). reflexivity.
Qed.

Lemma get_user_stats_linked s user :
  well_linked s -> exists us, get_user_stats s user = Return us.
Proof.
  intros H.
  assert (forallb (linked s) (scores_of_user s user) = true) as Hl.
  { apply forallb_forall. intros sc Hin. apply filter_In in Hin as [Hin _].
    now apply linked_on_linked_store. }
  unfold get_user_stats.
  destruct (user_average_returns (scores_of_user s user)) as [avg ->]. cbn [bind].
  destruct (subject_loop_outcome s (scores_of_user s user) []) as [[_ (final & ->)] | [L _]];
    [| congruence]. cbn [bind].
  destruct (map_outcome_returns
              (fun kv : pystr * SubjectData =>
                 a <- subject_average (snd kv) ;; Return (fst kv, a)) final) as [avs ->].
  { intros kv _. destruct (subject_average_returns (snd kv)) as [v ->]. simpl. eauto. }
  cbn [bind].
  destruct (completion_rate_returns (Z.of_nat (List.length (scores_of_user s user)))
              (Z.of_nat (List.length (quizzes s)))) as [rate ->].
  cbn [bind]. eauto.
Qed.

(** On a store whose links are whole, [get_user_stats] returns for every
    user: no Score leads to a missing quiz, chapter or subject, so no
    attribute is read on [None]. *)
Theorem user_stats_return_on_linked_store s user :
  well_linked s -> exists us, get_user_stats s user = Return us.
Proof. apply get_user_stats_linked. Qed.

Lemma user_stats_return_on_linked_store_witness :
  exists us, get_user_stats store_taken 7 = Return us.
Proof. apply (user_stats_return_on_linked_store store_taken 7). exact store_taken_linked. Defined.

(** ** The forms of the administrator *)

Lemma quiz_form_validate_true today choices f :
  quiz_form_validate today choices f = true ->
  In (quiz_form_chapter_id f) choices
  /\ today <= quiz_form_date f
  /\ 1 <= quiz_form_duration f <= 180.
Proof.
  unfold quiz_form_validate, validate_date_of_quiz, validate_time_duration.
  intros H. apply andb_prop in H as [H Hd]. apply andb_prop in H as [H Ht].
  apply andb_prop in H as [_ Hc]. apply among_in in Hc.
  destruct (quiz_form_date f <? today) eqn:E1; [discriminate |].
  destruct (quiz_form_duration f <? 1) eqn:E2; [discriminate |].
  destruct (quiz_form_duration f >? 180) eqn:E3; [discriminate |].
  split; [exact Hc |]. lia.
Qed.

Lemma question_form_validate_true f :
  question_form_validate f = true -> 1 <= question_form_correct_option f <= 4.
Proof.
  unfold question_form_validate. intros H. apply andb_prop in H as [_ H].
  apply among_in in H. unfold correct_option_choices in H. simpl in H. lia.
Qed.

Lemma chapter_choices_ids s choices :
  chapter_choices s = Return choices -> choices = map chapter_id (chapters s).
Proof.
  unfold chapter_choices. intros H. apply map_outcome_each in H.
  induction H as [| c y l ys Hc _ IH]; [reflexivity |].
  simpl. rewrite IH. f_equal.
  destruct (attr (subject_get s (chapter_subject_id c))); simpl in Hc; congruence.
Qed.

Lemma chapter_choices_return s :
  well_linked s -> exists choices, chapter_choices s = Return choices.
Proof.
  intros (_ & _ & _ & Hc). rewrite Forall_forall in Hc.
  apply map_outcome_returns. intros c Hin.
  destruct (subject_get s (chapter_subject_id c)) eqn:E; [| now apply Hc in Hin].
  simpl. eauto.
Qed.

Lemma find_key_in {A} (key : A -> Z) l x :
  In x l -> find (fun y => key y =? key x) l <> None.
Proof.
  intros Hin Hn. apply (find_none _ _ Hn) in Hin. rewrite Z.eqb_refl in Hin. discriminate.
Qed.

Lemma chosen_chapter_exists s choices id :
  chapter_choices s = Return choices -> In id choices -> chapter_get s id <> None.
Proof.
  intros Hc Hin. apply chapter_choices_ids in Hc. subst choices.
  apply in_map_iff in Hin as (c & <- & Hin). now apply (find_key_in chapter_id).
Qed.

Lemma find_map_same_key {A} (key : A -> Z) (upd : A -> A) id l :
  (forall x, key (upd x) = key x) ->
  find (fun x => key x =? id) (map upd l) = option_map upd (find (fun x => key x =? id) l).
Proof.
  intros Hk. induction l as [| x l IH]; [reflexivity |].
  simpl. rewrite Hk. destruct (key x =? id); [reflexivity | exact IH].
Qed.

Lemma find_map_not_none {A} (key : A -> Z) (upd : A -> A) id l :
  (forall x, key (upd x) = key x) ->
  find (fun x => key x =? id) l <> None ->
  find (fun x => key x =? id) (map upd l) <> None.
Proof.
  intros Hk. rewrite (find_map_same_key key upd id l Hk).
  destruct (find _ l); simpl; congruence.
Qed.

Lemma find_app_not_none {A} (p : A -> bool) l l' :
  find p l <> None -> find p (l ++ l') <> None.
Proof.
  destruct (find p l) as [x |] eqn:E; [| congruence].
  intros _. now rewrite (find_app_some _ _ _ _ E).
Qed.

Lemma quiz_id_below_next s q : In q (quizzes s) -> quiz_id q < next_quiz_id s.
Proof.
  unfold next_quiz_id. intros H. apply (in_map quiz_id) in H.
  induction (map quiz_id (quizzes s)) as [| x l IH]; [destruct H |].
  cbn [fold_right]. destruct H as [-> | H]; [lia | specialize (IH H); lia].
Qed.

(** A property of the store that holds before a guarded view and after the
    view itself holds after the guarded view. *)
Lemma guarded_keeps (P : Store -> Prop) s v view :
  P s -> P (fst view) -> P (fst (login_required v s (admin_required v s view))).
Proof. intros Hs Hv. destruct (guarded_cases s v view) as [-> | ->]; assumption. Qed.

(** What the two quiz routes do to the store: nothing, or one quiz appended,
    or the row of one quiz rewritten; in the latter cases the form was
    accepted. *)
Lemma quizzes_route_cases s v today f :
  fst (quizzes_route s v today f) = s
  \/ exists choices,
       chapter_choices s = Return choices
       /\ quiz_form_validate today choices f = true
       /\ quizzes_route s v today f
          = (with_quizzes s (quizzes s ++ [quiz_of_form (next_quiz_id s) f]), AdminDone).
Proof.
  unfold quizzes_route.
  match goal with |- fst (login_required v s (admin_required v s ?view)) = s \/ _ =>
    destruct (guarded_cases s v view) as [-> | H]; [| now left] end.
  destruct (chapter_choices s) as [choices | e]; [| now left].
  destruct (quiz_form_validate today choices f) eqn:E; [| now left].
  right. eauto.
Qed.

Lemma edit_quiz_cases s v today id f :
  fst (edit_quiz s v today id f) = s
  \/ exists quiz choices,
       quiz_get s id = Some quiz
       /\ chapter_choices s = Return choices
       /\ quiz_form_validate today choices f = true
       /\ edit_quiz s v today id f
          = (with_quizzes s
               (map (fun q => if quiz_id q =? id then quiz_of_form (quiz_id q) f else q)
                    (quizzes s)),
             AdminDone).
Proof.
  unfold edit_quiz.
  match goal with |- fst (login_required v s (admin_required v s ?view)) = s \/ _ =>
    destruct (guarded_cases s v view) as [-> | H]; [| now left] end.
  destruct (quiz_get s id) as [quiz |] eqn:Hq; [| now left].
  destruct (chapter_choices s) as [choices | e]; [| now left].
  destruct (quiz_form_validate today choices f) eqn:E; [| now left].
  right. exists quiz, choices. rewrite (quiz_get_id _ _ _ Hq). auto.
Qed.

Lemma quizzes_route_durations s v today f :
  durations_in_range s -> durations_in_range (fst (quizzes_route s v today f)).
Proof.
  unfold durations_in_range. intros H.
  destruct (quizzes_route_cases s v today f) as [-> | (choices & _ & Hv & ->)]; [exact H |].
  apply quiz_form_validate_true in Hv as (_ & _ & Hd).
  cbn [fst with_quizzes quizzes]. apply Forall_app. split; [exact H |].
  constructor; [exact Hd | constructor].
Qed.

Lemma edit_quiz_durations s v today id f :
  durations_in_range s -> durations_in_range (fst (edit_quiz s v today id f)).
Proof.
  unfold durations_in_range. intros H.
  destruct (edit_quiz_cases s v today id f) as [-> | (quiz & choices & _ & _ & Hv & ->)];
    [exact H |].
  apply quiz_form_validate_true in Hv as (_ & _ & Hd).
  cbn [fst with_quizzes quizzes]. rewrite Forall_map.
  eapply Forall_impl; [| exact H]. intros q Hq. cbn beta.
  destruct (quiz_id q =? id); [exact Hd | exact Hq].
Qed.

(** The two forms that write quizzes keep every duration between 1 and 180
    minutes: a quiz is created or rewritten only from a form whose duration
    passed [validate_time_duration]. *)
Theorem quiz_forms_keep_durations_in_range s v today id f :
  durations_in_range s ->
  durations_in_range (fst (quizzes_route s v today f))
  /\ durations_in_range (fst (edit_quiz s v today id f)).
Proof.
  intros H. split; [now apply quizzes_route_durations | now apply edit_quiz_durations].
Qed.

Lemma store_taken_durations : durations_in_range store_taken.
Proof. repeat constructor; simpl; lia. Qed.

Lemma quiz_forms_keep_durations_in_range_witness :
  durations_in_range (fst (quizzes_route store_taken admin 10 quiz_form_20))
  /\ durations_in_range (fst (edit_quiz store_taken admin 10 1 quiz_form_20)).
Proof.
  apply (quiz_forms_keep_durations_in_range store_taken admin 10 1 quiz_form_20).
  exact store_taken_durations.
Defined.

Lemma quizzes_route_linked s v today f :
  well_linked s -> well_linked (fst (quizzes_route s v today f)).
Proof.
  intros H.
  destruct (quizzes_route_cases s v today f) as [-> | (choices & Hc & Hv & ->)]; [exact H |].
  apply quiz_form_validate_true in Hv as (Hin & _).
  pose proof (chosen_chapter_exists _ _ _ Hc Hin) as Hch.
  destruct H as (Hq & Hs & Hz & Hcs). cbn [fst].
  split; [| split; [| split]]; unfold quiz_get, chapter_get, subject_get in *;
    cbn [with_quizzes quizzes questions scores chapters subjects].
  - eapply Forall_impl; [| exact Hq]. intros q. apply find_app_not_none.
  - eapply Forall_impl; [| exact Hs]. intros q. apply find_app_not_none.
  - apply Forall_app. split; [exact Hz |]. constructor; [exact Hch | constructor].
  - exact Hcs.
Qed.

Lemma edit_quiz_linked s v today id f :
  well_linked s -> well_linked (fst (edit_quiz s v today id f)).
Proof.
  intros H.
  destruct (edit_quiz_cases s v today id f) as [-> | (quiz & choices & _ & Hc & Hv & ->)];
    [exact H |].
  apply quiz_form_validate_true in Hv as (Hin & _).
  pose proof (chosen_chapter_exists _ _ _ Hc Hin) as Hch.
  destruct H as (Hq & Hs & Hz & Hcs). cbn [fst].
  assert (forall x, quiz_id (if quiz_id x =? id then quiz_of_form (quiz_id x) f else x)
                    = quiz_id x) as Hk
    by (intros x; now destruct (quiz_id x =? id)).
  split; [| split; [| split]]; unfold quiz_get, chapter_get, subject_get in *;
    cbn [with_quizzes quizzes questions scores chapters subjects].
  - eapply Forall_impl; [| exact Hq]. intros q. now apply (find_map_not_none quiz_id).
  - eapply Forall_impl; [| exact Hs]. intros q. now apply (find_map_not_none quiz_id).
  - rewrite Forall_map. eapply Forall_impl; [| exact Hz]. intros q Hqc. cbn beta.
    destruct (quiz_id q =? id); [exact Hch | exact Hqc].
  - exact Hcs.
Qed.

(** On a store whose links are whole, the two forms that write quizzes never
    fail while building the list of chapters, and they keep the links whole:
    the chapter of a created or rewritten quiz is one of the choices, which
    are the chapters that exist. *)
Theorem quiz_forms_keep_links s v today id f :
  well_linked s ->
  well_linked (fst (quizzes_route s v today f))
  /\ well_linked (fst (edit_quiz s v today id f))
  /\ (forall e, snd (quizzes_route s v today f) <> AdminError e)
  /\ (forall e, snd (edit_quiz s v today id f) <> AdminError e).
Proof.
  intros H. split; [| split; [| split]].
  - now apply quizzes_route_linked.
  - now apply edit_quiz_linked.
  - intros e. destruct (chapter_choices_return s H) as [choices Hc].
    unfold quizzes_route. rewrite Hc.
    destruct v as [| u [|]]; simpl; try discriminate.
    destruct (quiz_form_validate today choices f); discriminate.
  - intros e. destruct (chapter_choices_return s H) as [choices Hc].
    unfold edit_quiz. rewrite Hc.
    destruct v as [| u [|]]; simpl; try discriminate.
    destruct (quiz_get s id); [| discriminate].
    destruct (quiz_form_validate today choices f); discriminate.
Qed.

Lemma quiz_forms_keep_links_witness :
  well_linked (fst (quizzes_route store_taken admin 10 quiz_form_20))
  /\ well_linked (fst (edit_quiz store_taken admin 10 1 quiz_form_20))
  /\ (forall e, snd (quizzes_route store_taken admin 10 quiz_form_20) <> AdminError e)
  /\ (forall e, snd (edit_quiz store_taken admin 10 1 quiz_form_20) <> AdminError e).
Proof.
  apply (quiz_forms_keep_links store_taken admin 10 1 quiz_form_20). exact store_taken_linked.
Defined.

(** When [edit_quiz] accepts a form, the Scores of the quiz stay, the new
    date is not before the day of the edit, and until that date every attempt
    of the quiz, also by a user who has a Score for it, is answered with the
    message that the quiz is not available yet. *)
Theorem rescheduled_quiz_closed_until_its_date s v today id f s' :
  edit_quiz s v today id f = (s', AdminDone) ->
  scores s' = scores s
  /\ today <= quiz_form_date f
  /\ forall t now user req,
       t < quiz_form_date f -> attempt_quiz s' t now user id req = (s', NotAvailable).
Proof.
  unfold edit_quiz. destruct v as [| u [|]]; simpl; try discriminate.
  destruct (quiz_get s id) as [quiz |] eqn:Hq; [| discriminate].
  destruct (chapter_choices s) as [choices | e]; [| discriminate].
  destruct (quiz_form_validate today choices f) eqn:Hv; [| discriminate].
  intros [= <-]. rewrite (quiz_get_id _ _ _ Hq).
  apply quiz_form_validate_true in Hv as (_ & Hd & _).
  split; [reflexivity |]. split; [exact Hd |].
  intros t now user req Ht. unfold attempt_quiz. rewrite attempt_check_table.
  unfold quiz_get. cbn [with_quizzes quizzes].
  rewrite (find_map_same_key quiz_id).
  - unfold quiz_get in Hq. rewrite Hq. cbn [option_map].
    rewrite (quiz_get_id s id quiz Hq), Z.eqb_refl. cbn [quiz_of_form date_of_quiz].
    destruct (quiz_form_date f >? t) eqn:Hgt; [reflexivity | lia].
  - intros x. now destruct (quiz_id x =? id).
Qed.

Lemma rescheduled_quiz_closed_until_its_date_witness :
  scores (fst (edit_quiz store_taken admin 10 1 quiz_form_20)) = scores store_taken
  /\ 10 <= quiz_form_date quiz_form_20
  /\ forall t now user req,
       t < quiz_form_date quiz_form_20 ->
       attempt_quiz (fst (edit_quiz store_taken admin 10 1 quiz_form_20)) t now user 1 req
       = (fst (edit_quiz store_taken admin 10 1 quiz_form_20), NotAvailable).
Proof.
  apply (rescheduled_quiz_closed_until_its_date store_taken admin 10 1 quiz_form_20).
  reflexivity.
Defined.

Lemma find_all_false {A} (p : A -> bool) l :
  (forall x, In x l -> p x = false) -> find p l = None.
Proof.
  induction l as [| x l IH]; [reflexivity |]. intros H. simpl.
  rewrite (H x (or_introl eq_refl)). apply IH. intros y Hy. apply H. now right.
Qed.

Lemma quiz_get_next s : quiz_get s (next_quiz_id s) = None.
Proof.
  unfold quiz_get. apply find_all_false. intros q Hin.
  apply quiz_id_below_next in Hin. lia.
Qed.

(** On a store whose links are whole, a quiz just created by [quizzes]
    has no question and no Score, so every attempt of it is answered, without
    a change of the store, with the message that it is not available yet,
    before its date, and that it has no questions, from its date on. *)
Theorem created_quiz_waits_for_questions s v today f s' :
  well_linked s ->
  quizzes_route s v today f = (s', AdminDone) ->
  quiz_get s' (next_quiz_id s) = Some (quiz_of_form (next_quiz_id s) f)
  /\ today <= quiz_form_date f
  /\ questions_of s' (next_quiz_id s) = []
  /\ forall t now user req,
       attempt_quiz s' t now user (next_quiz_id s) req
       = (s', if quiz_form_date f >? t then NotAvailable else NoQuestions).
Proof.
  intros (Hq & Hs & _ & _). rewrite Forall_forall in Hq, Hs.
  unfold quizzes_route. destruct v as [| u [|]]; simpl; try discriminate.
  destruct (chapter_choices s) as [choices | e]; [| discriminate].
  destruct (quiz_form_validate today choices f) eqn:Hv; [| discriminate].
  intros [= <-]. apply quiz_form_validate_true in Hv as (_ & Hd & _).
  assert (quiz_get (with_quizzes s (quizzes s ++ [quiz_of_form (next_quiz_id s) f]))
            (next_quiz_id s) = Some (quiz_of_form (next_quiz_id s) f)) as Hget.
  { unfold quiz_get. cbn [with_quizzes quizzes]. rewrite find_app_none.
    - simpl. now rewrite Z.eqb_refl.
    - apply quiz_get_next. }
  assert (questions_of (with_quizzes s (quizzes s ++ [quiz_of_form (next_quiz_id s) f]))
            (next_quiz_id s) = []) as Hnone.
  { unfold questions_of. cbn [with_quizzes questions]. apply find_none_filter.
    apply find_all_false. intros q Hin. apply Z.eqb_neq. intros Heq.
    apply (Hq q Hin). rewrite Heq. apply quiz_get_next. }
  split; [exact Hget |]. split; [exact Hd |]. split; [exact Hnone |].
  intros t now user req. unfold attempt_quiz. rewrite attempt_check_table, Hget, Hnone.
  cbn [quiz_of_form date_of_quiz].
  destruct (quiz_form_date f >? t); [reflexivity |].
  unfold existing_score. cbn [with_quizzes scores]. rewrite find_all_false; [reflexivity |].
  intros sc Hin. unfold score_for. apply andb_false_intro1. apply Z.eqb_neq. intros Heq.
  apply (Hs sc Hin). rewrite Heq. apply quiz_get_next.
Qed.

Lemma created_quiz_waits_for_questions_witness :
  quiz_get (fst (quizzes_route store_taken admin 10 quiz_form_20)) (next_quiz_id store_taken)
  = Some (quiz_of_form (next_quiz_id store_taken) quiz_form_20)
  /\ 10 <= quiz_form_date quiz_form_20
  /\ questions_of (fst (quizzes_route store_taken admin 10 quiz_form_20))
       (next_quiz_id store_taken) = []
  /\ forall t now user req,
       attempt_quiz (fst (quizzes_route store_taken admin 10 quiz_form_20)) t now user
         (next_quiz_id store_taken) req
       = (fst (quizzes_route store_taken admin 10 quiz_form_20),
          if quiz_form_date quiz_form_20 >? t then NotAvailable else NoQuestions).
Proof.
  apply (created_quiz_waits_for_questions store_taken admin 10 quiz_form_20).
  - exact store_taken_linked.
  - reflexivity.
Defined.

Lemma question_id_below_next s q : In q (questions s) -> question_id q < next_question_id s.
Proof.
  unfold next_question_id. intros H. apply (in_map question_id) in H.
  induction (map question_id (questions s)) as [| x l IH]; [destruct H |].
  cbn [fold_right]. destruct H as [-> | H]; [lia | specialize (IH H); lia].
Qed.

Lemma questions_route_cases s v id f :
  fst (questions_route s v id f) = s
  \/ exists quiz,
       quiz_get s id = Some quiz
       /\ question_form_validate f = true
       /\ fst (questions_route s v id f)
          = with_questions s
              (questions s ++
               [{| question_id := next_question_id s; question_quiz_id := id;
                   correct_option := question_form_correct_option f |}]).
Proof.
  unfold questions_route.
  match goal with |- fst (login_required v s (admin_required v s ?view)) = s \/ _ =>
    destruct (guarded_cases s v view) as [-> | H]; [| now left] end.
  destruct (quiz_get s id) as [quiz |] eqn:Hq; [| now left].
  destruct (question_form_validate f) eqn:E; [| now left].
  right. exists quiz. rewrite (quiz_get_id _ _ _ Hq). auto.
Qed.

Lemma edit_question_cases s v id f :
  fst (edit_question s v id f) = s
  \/ exists question,
       question_get s id = Some question
       /\ question_form_validate f = true
       /\ fst (edit_question s v id f)
          = with_questions s
              (map (fun q => if question_id q =? id
                             then {| question_id := question_id q;
                                     question_quiz_id := question_quiz_id q;
                                     correct_option := question_form_correct_option f |}
                             else q)
                   (questions s)).
Proof.
  unfold edit_question.
  match goal with |- fst (login_required v s (admin_required v s ?view)) = s \/ _ =>
    destruct (guarded_cases s v view) as [-> | H]; [| now left] end.
  destruct (question_get s id) as [question |] eqn:Hq; [| now left].
  destruct (question_form_validate f) eqn:E; [| now left].
  right. exists question. split; [reflexivity |]. split; [reflexivity |].
  unfold question_get in Hq. apply find_some in Hq as [_ Hq]. apply Z.eqb_eq in Hq.
  now rewrite Hq.
Qed.

Lemma with_questions_linked s l :
  well_linked s ->
  Forall (fun q => quiz_get s (question_quiz_id q) <> None) l ->
  well_linked (with_questions s l).
Proof.
  intros (_ & Hs & Hz & Hc) Hq. split; [| split; [| split]]; assumption.
Qed.

Lemma questions_route_options s v id f :
  options_in_range s -> options_in_range (fst (questions_route s v id f)).
Proof.
  unfold options_in_range. intros Ho.
  destruct (questions_route_cases s v id f) as [-> | (quiz & _ & Hv & ->)]; [exact Ho |].
  apply question_form_validate_true in Hv.
  cbn [with_questions questions]. apply Forall_app. split; [exact Ho |].
  constructor; [exact Hv | constructor].
Qed.

Lemma questions_route_linked s v id f :
  well_linked s -> well_linked (fst (questions_route s v id f)).
Proof.
  intros Hl. pose proof Hl as (Hq & _).
  destruct (questions_route_cases s v id f) as [-> | (quiz & Hg & _ & ->)]; [exact Hl |].
  apply with_questions_linked; [exact Hl |]. apply Forall_app. split; [exact Hq |].
  constructor; [| constructor]. cbn [question_quiz_id]. congruence.
Qed.

Lemma edit_question_options s v id f :
  options_in_range s -> options_in_range (fst (edit_question s v id f)).
Proof.
  unfold options_in_range. intros Ho.
  destruct (edit_question_cases s v id f) as [-> | (question & _ & Hv & ->)]; [exact Ho |].
  apply question_form_validate_true in Hv.
  cbn [with_questions questions]. rewrite Forall_map.
  eapply Forall_impl; [| exact Ho]. intros q Hq'. cbn beta.
  destruct (question_id q =? id); [exact Hv | exact Hq'].
Qed.

Lemma edit_question_linked s v id f :
  well_linked s -> well_linked (fst (edit_question s v id f)).
Proof.
  intros Hl. pose proof Hl as (Hq & _).
  destruct (edit_question_cases s v id f) as [-> | (question & _ & _ & ->)]; [exact Hl |].
  apply with_questions_linked; [exact Hl |]. rewrite Forall_map.
  eapply Forall_impl; [| exact Hq]. intros q Hq'. cbn beta.
  now destruct (question_id q =? id).
Qed.




(** ** Subjects and chapters *)

Lemma subjects_route_linked s v f :
  well_linked s -> well_linked (fst (subjects_route s v f)).
Proof.
  intros H. unfold subjects_route. apply guarded_keeps; [exact H |].
  destruct (subject_form_validate f); [| exact H].
  destruct H as (Hq & Hs & Hz & Hc). cbn [fst].
  split; [| split; [| split]]; try assumption.
  unfold subject_get. cbn [with_subjects subjects chapters].
  eapply Forall_impl; [| exact Hc]. intros c. apply find_app_not_none.
Qed.

Lemma edit_subject_linked s v id f :
  well_linked s -> well_linked (fst (edit_subject s v id f)).
Proof.
  intros H. unfold edit_subject. apply guarded_keeps; [exact H |].
  destruct (subject_get s id) as [subject |]; [| exact H].
  destruct (subject_form_validate f); [| exact H].
  destruct H as (Hq & Hs & Hz & Hc). cbn [fst].
  split; [| split; [| split]]; try assumption.
  unfold subject_get. cbn [with_subjects subjects chapters].
  eapply Forall_impl; [| exact Hc]. intros c.
  apply (find_map_not_none subject_id). intros x.
  now destruct (subject_id x =? subject_id subject).
Qed.

Lemma chapter_form_validate_true s f :
  chapter_form_validate (subject_choices s) f = true ->
  subject_get s (chapter_form_subject_id f) <> None.
Proof.
  unfold chapter_form_validate, subject_choices. intros H.
  apply andb_prop in H as [_ H]. apply among_in in H.
  apply in_map_iff in H as (x & <- & Hin). now apply (find_key_in subject_id).
Qed.

Lemma chapters_route_linked s v f :
  well_linked s -> well_linked (fst (chapters_route s v f)).
Proof.
  intros H. unfold chapters_route. apply guarded_keeps; [exact H |].
  destruct (chapter_form_validate (subject_choices s) f) eqn:Hv; [| exact H].
  apply chapter_form_validate_true in Hv.
  destruct H as (Hq & Hs & Hz & Hc). cbn [fst].
  split; [| split; [| split]]; try assumption.
  - unfold chapter_get. cbn [with_chapters quizzes chapters].
    eapply Forall_impl; [| exact Hz]. intros q. apply find_app_not_none.
  - cbn [with_chapters chapters]. apply Forall_app. split; [exact Hc |].
    constructor; [exact Hv | constructor].
Qed.

Lemma edit_chapter_linked s v id f :
  well_linked s -> well_linked (fst (edit_chapter s v id f)).
Proof.
  intros H. unfold edit_chapter. apply guarded_keeps; [exact H |].
  destruct (chapter_get s id) as [chapter |]; [| exact H].
  destruct (chapter_form_validate (subject_choices s) f) eqn:Hv; [| exact H].
  apply chapter_form_validate_true in Hv.
  destruct H as (Hq & Hs & Hz & Hc). cbn [fst].
  split; [| split; [| split]]; try assumption.
  - unfold chapter_get. cbn [with_chapters quizzes chapters].
    eapply Forall_impl; [| exact Hz]. intros q.
    apply (find_map_not_none chapter_id). intros x.
    now destruct (chapter_id x =? chapter_id chapter).
  - cbn [with_chapters chapters]. rewrite Forall_map.
    eapply Forall_impl; [| exact Hc]. intros c Hcs. cbn beta.
    destruct (chapter_id c =? chapter_id chapter); [exact Hv | exact Hcs].
Qed.

(** ** Every request *)

Lemma perform_keeps_links s a : well_linked s -> well_linked (perform s a).
Proof.
  intros H. destruct a; cbn [perform].
  - unfold serve. now apply attempt_keeps_links.
  - now apply subjects_route_linked.
  - now apply edit_subject_linked.
  - unfold delete_subject. apply guarded_keeps; [exact H |].
    destruct (subject_get s id); [now apply drop_subject_linked | exact H].
  - now apply chapters_route_linked.
  - now apply edit_chapter_linked.
  - unfold delete_chapter. apply guarded_keeps; [exact H |].
    destruct (chapter_get s id); [now apply drop_chapter_linked | exact H].
  - now apply quizzes_route_linked.
  - now apply edit_quiz_linked.
  - unfold delete_quiz. apply guarded_keeps; [exact H |].
    destruct (quiz_get s id); [now apply drop_quiz_linked | exact H].
  - now apply questions_route_linked.
  - now apply edit_question_linked.
  - unfold delete_question. apply guarded_keeps; [exact H |].
    destruct (question_get s id); [now apply drop_question_linked | exact H].
Qed.

Lemma thinned_refl {A} (l : list A) : thinned l l.
Proof. exists (fun _ => true). now rewrite filter_all. Qed.

Lemma thinned_Forall {A} (P : A -> Prop) (before after : list A) :
  thinned before after -> Forall P before -> Forall P after.
Proof.
  intros [keep ->] H. rewrite Forall_forall in *. intros x Hin.
  apply filter_In in Hin as [Hin _]. now apply H.
Qed.

(** The parts of [drop_chapter_rows] and [drop_subject_rows] on the tables
    below. *)
Lemma drop_chapter_thins s id :
  thinned (quizzes s) (quizzes (drop_chapter s id))
  /\ thinned (questions s) (questions (drop_chapter s id))
  /\ thinned (scores s) (scores (drop_chapter s id)).
Proof. destruct (drop_chapter_rows s id) as (_ & _ & _ & H1 & H2 & H3 & _). auto. Qed.

Lemma drop_subject_thins s id :
  thinned (quizzes s) (quizzes (drop_subject s id))
  /\ thinned (questions s) (questions (drop_subject s id))
  /\ thinned (scores s) (scores (drop_subject s id)).
Proof. destruct (drop_subject_rows s id) as (_ & _ & _ & H1 & H2 & H3 & _). auto. Qed.

(** The requests other than an attempt only delete from the Score table. *)
Lemma perform_thins_scores s a :
  (forall c, a <> Attempt c) -> thinned (scores s) (scores (perform s a)).
Proof.
  intros Ha. destruct a; cbn [perform]; try (now destruct (Ha c));
    unfold subjects_route, edit_subject, delete_subject, chapters_route, edit_chapter,
      delete_chapter, quizzes_route, edit_quiz, delete_quiz, questions_route,
      edit_question, delete_question;
    apply (guarded_keeps (fun s' => thinned (scores s) (scores s')));
    try apply thinned_refl.
  - destruct (subject_form_validate f); apply thinned_refl.
  - destruct (subject_get s id); [| apply thinned_refl].
    destruct (subject_form_validate f); apply thinned_refl.
  - destruct (subject_get s id); [apply drop_subject_thins | apply thinned_refl].
  - destruct (chapter_form_validate (subject_choices s) f); apply thinned_refl.
  - destruct (chapter_get s id); [| apply thinned_refl].
    destruct (chapter_form_validate (subject_choices s) f); apply thinned_refl.
  - destruct (chapter_get s id); [apply drop_chapter_thins | apply thinned_refl].
  - destruct (chapter_choices s) as [choices |]; [| apply thinned_refl].
    destruct (quiz_form_validate today choices f); apply thinned_refl.
  - destruct (quiz_get s id); [| apply thinned_refl].
    destruct (chapter_choices s) as [choices |]; [| apply thinned_refl].
    destruct (quiz_form_validate today choices f); apply thinned_refl.
  - destruct (quiz_get s id); [| apply thinned_refl]. cbn [fst drop_quiz scores]. now eexists.
  - destruct (quiz_get s id); [| apply thinned_refl].
    destruct (question_form_validate f); apply thinned_refl.
  - destruct (question_get s id); [| apply thinned_refl].
    destruct (question_form_validate f); apply thinned_refl.
  - destruct (question_get s id); apply thinned_refl.
Qed.

Lemma serve_store s c :
  fst (serve s c) = s
  \/ exists sc, fst (serve s c) = add_score s sc /\ score_id sc = next_score_id s.
Proof.
  destruct (serve_cases s c) as [[H _] | (sc & H & _)]; [now left |].
  right. exists sc. split; [now rewrite H |].
  unfold serve in H. now apply attempt_quiz_submitted in H as (ts & d & _ & Hid & _).
Qed.

Lemma perform_thins_questions s a :
  (forall v id f, a <> PostQuestion v id f) -> (forall v id f, a <> EditQuestion v id f) ->
  thinned (questions s) (questions (perform s a)).
Proof.
  intros Hp He. destruct a; cbn [perform];
    try (now destruct (Hp v id f)); try (now destruct (He v id f)).
  - destruct (serve_store s c) as [-> | (sc & -> & _)]; apply thinned_refl.
  - unfold subjects_route.
    apply (guarded_keeps (fun s' => thinned (questions s) (questions s')));
      [apply thinned_refl |].
    destruct (subject_form_validate f); apply thinned_refl.
  - unfold edit_subject.
    apply (guarded_keeps (fun s' => thinned (questions s) (questions s')));
      [apply thinned_refl |].
    destruct (subject_get s id); [| apply thinned_refl].
    destruct (subject_form_validate f); apply thinned_refl.
  - unfold delete_subject.
    apply (guarded_keeps (fun s' => thinned (questions s) (questions s')));
      [apply thinned_refl |].
    destruct (subject_get s id); [apply drop_subject_thins | apply thinned_refl].
  - unfold chapters_route.
    apply (guarded_keeps (fun s' => thinned (questions s) (questions s')));
      [apply thinned_refl |].
    destruct (chapter_form_validate (subject_choices s) f); apply thinned_refl.
  - unfold edit_chapter.
    apply (guarded_keeps (fun s' => thinned (questions s) (questions s')));
      [apply thinned_refl |].
    destruct (chapter_get s id); [| apply thinned_refl].
    destruct (chapter_form_validate (subject_choices s) f); apply thinned_refl.
  - unfold delete_chapter.
    apply (guarded_keeps (fun s' => thinned (questions s) (questions s')));
      [apply thinned_refl |].
    destruct (chapter_get s id); [apply drop_chapter_thins | apply thinned_refl].
  - unfold quizzes_route.
    apply (guarded_keeps (fun s' => thinned (questions s) (questions s')));
      [apply thinned_refl |].
    destruct (chapter_choices s) as [choices |]; [| apply thinned_refl].
    destruct (quiz_form_validate today choices f); apply thinned_refl.
  - unfold edit_quiz.
    apply (guarded_keeps (fun s' => thinned (questions s) (questions s')));
      [apply thinned_refl |].
    destruct (quiz_get s id); [| apply thinned_refl].
    destruct (chapter_choices s) as [choices |]; [| apply thinned_refl].
    destruct (quiz_form_validate today choices f); apply thinned_refl.
  - unfold delete_quiz.
    apply (guarded_keeps (fun s' => thinned (questions s) (questions s')));
      [apply thinned_refl |].
    destruct (quiz_get s id); [| apply thinned_refl].
    cbn [fst drop_quiz questions]. now eexists.
  - unfold delete_question.
    apply (guarded_keeps (fun s' => thinned (questions s) (questions s')));
      [apply thinned_refl |].
    destruct (question_get s id); [| apply thinned_refl].
    cbn [fst drop_question questions]. now eexists.
Qed.

Lemma perform_thins_quizzes s a :
  (forall v today f, a <> PostQuiz v today f) ->
  (forall v today id f, a <> EditQuiz v today id f) ->
  thinned (quizzes s) (quizzes (perform s a)).
Proof.
  intros Hp He. destruct a; cbn [perform];
    try (now destruct (Hp v today f)); try (now destruct (He v today id f)).
  - destruct (serve_store s c) as [-> | (sc & -> & _)]; apply thinned_refl.
  - unfold subjects_route.
    apply (guarded_keeps (fun s' => thinned (quizzes s) (quizzes s')));
      [apply thinned_refl |].
    destruct (subject_form_validate f); apply thinned_refl.
  - unfold edit_subject.
    apply (guarded_keeps (fun s' => thinned (quizzes s) (quizzes s')));
      [apply thinned_refl |].
    destruct (subject_get s id); [| apply thinned_refl].
    destruct (subject_form_validate f); apply thinned_refl.
  - unfold delete_subject.
    apply (guarded_keeps (fun s' => thinned (quizzes s) (quizzes s')));
      [apply thinned_refl |].
    destruct (subject_get s id); [apply drop_subject_thins | apply thinned_refl].
  - unfold chapters_route.
    apply (guarded_keeps (fun s' => thinned (quizzes s) (quizzes s')));
      [apply thinned_refl |].
    destruct (chapter_form_validate (subject_choices s) f); apply thinned_refl.
  - unfold edit_chapter.
    apply (guarded_keeps (fun s' => thinned (quizzes s) (quizzes s')));
      [apply thinned_refl |].
    destruct (chapter_get s id); [| apply thinned_refl].
    destruct (chapter_form_validate (subject_choices s) f); apply thinned_refl.
  - unfold delete_chapter.
    apply (guarded_keeps (fun s' => thinned (quizzes s) (quizzes s')));
      [apply thinned_refl |].
    destruct (chapter_get s id); [apply drop_chapter_thins | apply thinned_refl].
  - unfold delete_quiz.
    apply (guarded_keeps (fun s' => thinned (quizzes s) (quizzes s')));
      [apply thinned_refl |].
    destruct (quiz_get s id); [| apply thinned_refl].
    cbn [fst drop_quiz quizzes]. now eexists.
  - unfold questions_route.
    apply (guarded_keeps (fun s' => thinned (quizzes s) (quizzes s')));
      [apply thinned_refl |].
    destruct (quiz_get s id); [| apply thinned_refl].
    destruct (question_form_validate f); apply thinned_refl.
  - unfold edit_question.
    apply (guarded_keeps (fun s' => thinned (quizzes s) (quizzes s')));
      [apply thinned_refl |].
    destruct (question_get s id); [| apply thinned_refl].
    destruct (question_form_validate f); apply thinned_refl.
  - unfold delete_question.
    apply (guarded_keeps (fun s' => thinned (quizzes s) (quizzes s')));
      [apply thinned_refl |].
    destruct (question_get s id); apply thinned_refl.
Qed.

Lemma perform_keeps_one_score s a : at_most_one_score s -> at_most_one_score (perform s a).
Proof.
  intros H.
  assert ((exists c, a = Attempt c) \/ forall c, a <> Attempt c) as [[c ->] | Ha]
    by (destruct a; (now left; eexists) || (right; discriminate)).
  - now apply serve_keeps_one_score.
  - destruct (perform_thins_scores s a Ha) as [keep Hk].
    now apply (filtered_scores_keep_invariants s (perform s a) keep).
Qed.

Lemma perform_keeps_score_ids s a : score_ids_distinct s -> score_ids_distinct (perform s a).
Proof.
  intros H.
  assert ((exists c, a = Attempt c) \/ forall c, a <> Attempt c) as [[c ->] | Ha]
    by (destruct a; (now left; eexists) || (right; discriminate)).
  - cbn [perform]. destruct (serve_store s c) as [-> | (sc & -> & Hid)]; [exact H |].
    now apply add_score_ids_distinct.
  - destruct (perform_thins_scores s a Ha) as [keep Hk].
    now apply (filtered_scores_keep_invariants s (perform s a) keep).
Qed.

Lemma perform_keeps_options s a : options_in_range s -> options_in_range (perform s a).
Proof.
  intros H.
  assert ((exists v id f, a = PostQuestion v id f) \/ (exists v id f, a = EditQuestion v id f)
          \/ ((forall v id f, a <> PostQuestion v id f)
              /\ (forall v id f, a <> EditQuestion v id f)))
    as [(v & id & f & ->) | [(v & id & f & ->) | [Hp He]]]
    by (destruct a; try (right; right; split; discriminate);
        [left | right; left]; eauto).
  - now apply questions_route_options.
  - now apply edit_question_options.
  - unfold options_in_range. eapply thinned_Forall; [| exact H].
    now apply perform_thins_questions.
Qed.

Lemma perform_keeps_durations s a : durations_in_range s -> durations_in_range (perform s a).
Proof.
  intros H.
  assert ((exists v today f, a = PostQuiz v today f)
          \/ (exists v today id f, a = EditQuiz v today id f)
          \/ ((forall v today f, a <> PostQuiz v today f)
              /\ (forall v today id f, a <> EditQuiz v today id f)))
    as [(v & today & f & ->) | [(v & today & id & f & ->) | [Hp He]]]
    by (destruct a; try (right; right; split; discriminate);
        [left | right; left]; eauto).
  - now apply quizzes_route_durations.
  - now apply edit_quiz_durations.
  - unfold durations_in_range. eapply thinned_Forall; [| exact H].
    now apply perform_thins_quizzes.
Qed.

Lemma perform_all_cons s a l : perform_all s (a :: l) = perform_all (perform s a) l.
Proof. reflexivity. Qed.

(** Serving any sequence of the requests that write, by any visitors and
    with any forms, keeps each of these properties of the store: every row
    refers to a row that exists; no user has two Scores for a quiz; the Score
    identifiers are distinct; the correct option of every question is one of
    the four; the duration of every quiz is between 1 and 180 minutes. *)
Theorem requests_keep_the_store_sound l : forall s,
  (well_linked s -> well_linked (perform_all s l))
  /\ (at_most_one_score s -> at_most_one_score (perform_all s l))
  /\ (score_ids_distinct s -> score_ids_distinct (perform_all s l))
  /\ (options_in_range s -> options_in_range (perform_all s l))
  /\ (durations_in_range s -> durations_in_range (perform_all s l)).
Proof.
  induction l as [| a l IH]; intros s; [cbn; tauto |].
  rewrite perform_all_cons.
  destruct (IH (perform s a)) as (H1 & H2 & H3 & H4 & H5).
  split; [| split; [| split; [| split]]]; intros H.
  - now apply H1, perform_keeps_links.
  - now apply H2, perform_keeps_one_score.
  - now apply H3, perform_keeps_score_ids.
  - now apply H4, perform_keeps_options.
  - now apply H5, perform_keeps_durations.
Qed.

Lemma requests_keep_the_store_sound_witness :
  well_linked (perform_all store_taken session_end)
  /\ at_most_one_score (perform_all (new_store [7]) session_end).
Proof.
  split.
  - apply (requests_keep_the_store_sound session_end store_taken). exact store_taken_linked.
  - apply (requests_keep_the_store_sound session_end (new_store [7])).
    intros user quiz. apply le_0_n.
Defined.

Lemma new_store_linked us : well_linked (new_store us).
Proof. repeat split; constructor. Qed.

Lemma graded_answers_readable f qs ts d sc :
  form_text f -> grade f qs 0 [] = Return (ts, d) ->
  answers sc = Some (Json.dumps d) -> get_answers sc = Return d.
Proof.
  intros Hf Hg Ha. apply grade_returns in Hg as [_ ->].
  destruct (recorded_answers_text f qs [] Hf) as [Ht Hn]; [constructor | constructor |].
  unfold get_answers. rewrite Ha.
  unfold Json.dumps at 1. cbn [truthy].
  now rewrite loads_dumps.
Qed.

Lemma perform_keeps_readable s a :
  posts_text a -> answers_readable s -> answers_readable (perform s a).
Proof.
  intros Ht H.
  assert ((exists c, a = Attempt c) \/ forall c, a <> Attempt c) as [[c ->] | Ha]
    by (destruct a; (now left; eexists) || (right; discriminate)).
  - cbn [perform]. destruct (serve s c) as [s' r] eqn:E. cbn [fst].
    destruct (serve_cases s c) as [[Hs _] | (sc & Hsc & _)].
    + rewrite E in Hs. cbn [fst] in Hs. now subst s'.
    + rewrite E in Hsc. injection Hsc as -> ->. unfold serve in E.
      apply attempt_quiz_submitted in E as (ts & d & Hg & _ & E).
      unfold answers_readable. rewrite E. cbn [add_score with_scores scores].
      apply Forall_app. split; [exact H |]. constructor; [| constructor].
      exists d. cbn [posts_text] in Ht.
      apply (graded_answers_readable _ _ _ _ _ Ht Hg). reflexivity.
  - unfold answers_readable. eapply thinned_Forall; [| exact H].
    now apply perform_thins_scores.
Qed.

Lemma results_work s v id :
  well_linked s -> answers_readable s -> forall e, results s v id <> ResultsError e.
Proof.
  intros (_ & Hs & _) Hr e. unfold answers_readable in Hr. rewrite Forall_forall in Hs, Hr.
  unfold results. destruct v as [| user adm]; [discriminate |].
  destruct (score_get s id) as [score |] eqn:Hg; [| discriminate].
  destruct (negb (score_user_id score =? user) && negb adm); [discriminate |].
  unfold score_get in Hg. apply find_some in Hg as [Hin _].
  destruct (quiz_get s (score_quiz_id score)) eqn:Hq; [| now apply Hs in Hin].
  destruct (Hr score Hin) as [d ->]. discriminate.
Qed.

(** In an installation that starts with empty tables, whatever requests have
    been served one after the other, provided the forms that attempts post
    hold text: the statistics of every user are computed without an error,
    the two quiz forms build their list of chapters without an error, and the
    results page answers without an error. *)
Theorem pages_work_after_any_requests us l :
  Forall posts_text l ->
  let s := perform_all (new_store us) l in
  (forall user, exists stats, get_user_stats s user = Return stats)
  /\ (forall v today f e, snd (quizzes_route s v today f) <> AdminError e)
  /\ (forall v today id f e, snd (edit_quiz s v today id f) <> AdminError e)
  /\ (forall v id e, results s v id <> ResultsError e).
Proof.
  intros Ht. cbv zeta.
  assert (well_linked (perform_all (new_store us) l)
          /\ answers_readable (perform_all (new_store us) l)) as [Hl Hr].
  { assert (well_linked (new_store us) /\ answers_readable (new_store us)) as H0
      by (split; [apply new_store_linked | constructor]).
    revert H0. generalize (new_store us).
    induction Ht as [| a l Ha _ IH]; intros s [Hl Hr]; [now split |].
    rewrite perform_all_cons. apply IH. split.
    - now apply perform_keeps_links.
    - now apply perform_keeps_readable. }
  split; [| split; [| split]].
  - intros user. now apply get_user_stats_linked.
  - intros v today f e. destruct (chapter_choices_return _ Hl) as [choices Hc].
    unfold quizzes_route. rewrite Hc.
    destruct v as [| u [|]]; simpl; try discriminate.
    destruct (quiz_form_validate today choices f); discriminate.
  - intros v today id f e. destruct (chapter_choices_return _ Hl) as [choices Hc].
    unfold edit_quiz. rewrite Hc.
    destruct v as [| u [|]]; simpl; try discriminate.
    destruct (quiz_get _ id); [| discriminate].
    destruct (quiz_form_validate today choices f); discriminate.
  - intros v id e. now apply results_work.
Qed.

Lemma session_posts_text : Forall posts_text session.
Proof.
  repeat (apply Forall_cons; [exact I || (repeat constructor; cbn; lia) |]). apply Forall_nil.
Qed.

Lemma pages_work_after_any_requests_witness :
  let s := perform_all (new_store [7]) session in
  (forall user, exists stats, get_user_stats s user = Return stats)
  /\ (forall v today f e, snd (quizzes_route s v today f) <> AdminError e)
  /\ (forall v today id f e, snd (edit_quiz s v today id f) <> AdminError e)
  /\ (forall v id e, results s v id <> ResultsError e).
Proof.
  apply (pages_work_after_any_requests [7] session). exact session_posts_text.
Defined.

(** ** Registration *)

(** [validate_dob] accepts a date of birth exactly from the sixteenth
    birthday to the day before the hundred-and-first one. *)
Theorem dob_accepted_between_birthdays today d :
  validate_dob today (Some d) = true
  <-> date_le (years_later 16 d) today /\ ~ date_le (years_later 101 d) today.
Proof.
  unfold validate_dob, age, tuple_lt, date_le, years_later, int_of_bool.
  cbn [year month day fst snd].
  destruct (month today <? month d) eqn:E1; destruct (month today =? month d) eqn:E2;
    destruct (day today <? day d) eqn:E3; cbn [orb andb];
    match goal with |- context [if ?a <? 16 then _ else _] =>
      destruct (a <? 16) eqn:E4; [| destruct (a >? 100) eqn:E5] end;
    split; try discriminate; try lia; intros; exfalso; lia.
Qed.

Lemma validate_email_true accounts e :
  validate_email accounts e = true -> ~ In e (map user_email accounts).
Proof.
  unfold validate_email. destruct (find _ accounts) eqn:E; [discriminate |].
  intros _ Hin. apply in_map_iff in Hin as (u & <- & Hin).
  apply (find_none _ _ E) in Hin. unfold pystr_eqb in Hin.
  now destruct (list_eq_dec N.eq_dec (user_email u) (user_email u)).
Qed.

Lemma validate_username_true accounts n :
  validate_username accounts n = true -> ~ In n (map user_username accounts).
Proof.
  unfold validate_username. destruct (find _ accounts) eqn:E; [discriminate |].
  intros _ Hin. apply in_map_iff in Hin as (u & <- & Hin).
  apply (find_none _ _ E) in Hin. unfold pystr_eqb in Hin.
  now destruct (list_eq_dec N.eq_dec (user_username u) (user_username u)).
Qed.

Lemma NoDup_snoc {A} (l : list A) x : NoDup l -> ~ In x l -> NoDup (l ++ [x]).
Proof.
  intros Hl Hx. apply NoDup_app; [exact Hl | repeat constructor; auto |].
  intros y Hy [<- | []]. auto.
Qed.

(** [register] keeps the email addresses and the usernames of the accounts
    distinct, never changes an account that exists, and never adds an
    administrator; a logged-in visitor adds no account at all. *)
Theorem register_keeps_accounts_unique accounts is_authenticated today f :
  NoDup (map user_email accounts) -> NoDup (map user_username accounts) ->
  let accounts' := fst (register accounts is_authenticated today f) in
  NoDup (map user_email accounts') /\ NoDup (map user_username accounts')
  /\ (exists added, accounts' = accounts ++ added
                    /\ Forall (fun u => user_is_admin u = false) added
                    /\ (is_authenticated = true -> added = [])).
Proof.
  intros He Hn. cbv zeta. unfold register.
  destruct is_authenticated.
  { cbn [fst]. repeat split; try assumption. exists []. now rewrite app_nil_r. }
  destruct (registration_validate today accounts f) eqn:Hv.
  - unfold registration_validate in Hv.
    apply andb_prop in Hv as [Hv _]. apply andb_prop in Hv as [Hv Hu].
    apply andb_prop in Hv as [_ Hm].
    apply validate_email_true in Hm. apply validate_username_true in Hu.
    cbn [fst]. rewrite !map_app. cbn [map user_email user_username].
    split; [now apply NoDup_snoc |]. split; [now apply NoDup_snoc |].
    eexists. split; [reflexivity |]. split; [| discriminate].
    constructor; [reflexivity | constructor].
  - cbn [fst]. repeat split; try assumption. exists []. split; [now rewrite app_nil_r |].
    split; [constructor | reflexivity].
Qed.

Lemma register_keeps_accounts_unique_witness :
  let accounts' :=
    fst (register [] false registration_day
           (registration_of "ada" {| year := 2010; month := 11; day := 3 |})) in
  NoDup (map user_email accounts') /\ NoDup (map user_username accounts')
  /\ (exists added, accounts' = [] ++ added
                    /\ Forall (fun u => user_is_admin u = false) added
                    /\ (false = true -> added = [])).
Proof.
  apply (register_keeps_accounts_unique [] false registration_day
           (registration_of "ada" {| year := 2010; month := 11; day := 3 |}));
    constructor.
Defined.

(** ** Percentages of the extremes *)

Lemma int_quotient_same p :
  int_quotient (Z.pos p) (Z.pos p) = S754_finite false 4503599627370496 (-52).
Proof.
  unfold int_quotient, float_div. cbn [Z.ltb Z.compare Z.abs Z.to_pos].
  unfold SFdiv. cbn [xorb].
  unfold SFdiv_core_binary.
  replace (Zdigits2 (Z.pos p) + 0 - (Zdigits2 (Z.pos p) + 0)) with 0 by lia.
  change (Z.min (fexp prec emax 0) (0 - 0)) with (-53).
  change (0 - 0 - -53) with 53.
  cbv iota.
  assert (Z.div_eucl (Z.shiftl (Z.pos p) 53) (Z.pos p) = (2 ^ 53, 0)) as ->.
  { rewrite Z.shiftl_mul_pow2 by discriminate.
    assert (forall a b, Z.div_eucl a b = (a / b, a mod b)) as ->
      by (intros a b; unfold Z.div, Z.modulo; now destruct (Z.div_eucl a b)).
    rewrite (Z.mul_comm (Z.pos p)), Z.div_mul, Z.mod_mul by discriminate. reflexivity. }
  assert (new_location (Z.pos p) 0 = loc_Exact) as ->.
  { unfold new_location, new_location_even, new_location_odd.
    destruct (Z.even (Z.pos p)); reflexivity. }
  vm_compute. reflexivity.
Qed.

(** Of a Score with questions, [percentage] is exactly 0.0 when no answer was
    correct and exactly 100.0 when all were: the quotient of a number by
    itself is the [float] 1.0, whatever the number. *)
Theorem percentage_of_the_extremes sc :
  0 < total_questions sc ->
  (total_scored sc = 0 -> percentage sc = Return (PyFloat float_zero))
  /\ (total_scored sc = total_questions sc -> percentage sc = Return (PyFloat float_hundred)).
Proof.
  intros Hq. rewrite percentage_nonzero by lia. split; intros ->.
  - destruct (total_questions sc) as [| p | p]; try lia. reflexivity.
  - destruct (total_questions sc) as [| p | p]; try lia.
    rewrite int_quotient_same. vm_compute. reflexivity.
Qed.

Lemma percentage_of_the_extremes_witness :
  (total_scored (score_of 1 1 7 2 2) = 0 ->
   percentage (score_of 1 1 7 2 2) = Return (PyFloat float_zero))
  /\ (total_scored (score_of 1 1 7 2 2) = total_questions (score_of 1 1 7 2 2) ->
      percentage (score_of 1 1 7 2 2) = Return (PyFloat float_hundred)).
Proof. apply (percentage_of_the_extremes (score_of 1 1 7 2 2)). reflexivity. Defined.

(** Whatever answer map of text [set_answers] is given, [get_answers] reads
    the same map back, and [set_answers] changes none of the six other
    columns of the Score. *)
Theorem answers_round_trip sc d :
  dict_text d -> NoDup (dict_keys d) ->
  get_answers (set_answers sc d) = Return d
  /\ score_id (set_answers sc d) = score_id sc
  /\ score_quiz_id (set_answers sc d) = score_quiz_id sc
  /\ score_user_id (set_answers sc d) = score_user_id sc
  /\ time_stamp (set_answers sc d) = time_stamp sc
  /\ total_scored (set_answers sc d) = total_scored sc
  /\ total_questions (set_answers sc d) = total_questions sc.
Proof.
  intros Ht Hn. split; [| repeat split].
  unfold get_answers, set_answers, with_answers. cbn [answers].
  unfold Json.dumps at 1. cbn [truthy]. now rewrite loads_dumps.
Qed.

Lemma answers_round_trip_witness :
  get_answers (set_answers (score_of 1 1 7 1 2)
                 [(pystr_of_string "1", Some (pystr_of_string "2"))])
  = Return [(pystr_of_string "1", Some (pystr_of_string "2"))]
  /\ score_id (set_answers (score_of 1 1 7 1 2)
                 [(pystr_of_string "1", Some (pystr_of_string "2"))]) = 1
  /\ score_quiz_id (set_answers (score_of 1 1 7 1 2)
                      [(pystr_of_string "1", Some (pystr_of_string "2"))]) = 1
  /\ score_user_id (set_answers (score_of 1 1 7 1 2)
                      [(pystr_of_string "1", Some (pystr_of_string "2"))]) = 7
  /\ time_stamp (set_answers (score_of 1 1 7 1 2)
                   [(pystr_of_string "1", Some (pystr_of_string "2"))]) = 0
  /\ total_scored (set_answers (score_of 1 1 7 1 2)
                     [(pystr_of_string "1", Some (pystr_of_string "2"))]) = 1
  /\ total_questions (set_answers (score_of 1 1 7 1 2)
                        [(pystr_of_string "1", Some (pystr_of_string "2"))]) = 2.
Proof.
  apply (answers_round_trip (score_of 1 1 7 1 2)
           [(pystr_of_string "1", Some (pystr_of_string "2"))]).
  - repeat constructor; cbn; lia.
  - repeat constructor. simpl. tauto.
Defined.

(** ** The administrator *)

Lemma register_appends accounts is_authenticated today f :
  exists added,
    fst (register accounts is_authenticated today f) = accounts ++ added
    /\ Forall (fun u => user_is_admin u = false) added.
Proof.
  unfold register. destruct is_authenticated.
  { exists []. now rewrite app_nil_r. }
  destruct (registration_validate today accounts f).
  - eexists. split; [reflexivity |]. constructor; [reflexivity | constructor].
  - exists []. now rewrite app_nil_r.
Qed.

Lemma filter_none {A} (p : A -> bool) l : Forall (fun x => p x = false) l -> filter p l = [].
Proof.
  induction 1 as [| x l Hx _ IH]; [reflexivity |]. cbn [filter]. now rewrite Hx.
Qed.

Lemma register_all_admins l : forall accounts,
  filter user_is_admin (register_all accounts l) = filter user_is_admin accounts.
Proof.
  induction l as [| [[a t] f] l IH]; intros accounts; [reflexivity |].
  unfold register_all. cbn [fold_left fst snd]. fold (register_all (fst (register accounts a t f)) l).
  rewrite IH. destruct (register_appends accounts a t f) as (added & -> & Ha).
  rewrite filter_app, (filter_none _ _ Ha). apply app_nil_r.
Qed.

(** An installation starts with the administrator as the only account.
    Whatever registrations are then served, that account stays the only
    administrator, and the next start-up finds it: it neither fails nor adds
    an account. *)
Theorem one_administrator_after_registrations l :
  create_admin [] = Started [admin_account 1]
  /\ filter user_is_admin (register_all [admin_account 1] l) = [admin_account 1]
  /\ create_admin (register_all [admin_account 1] l)
     = Started (register_all [admin_account 1] l).
Proof.
  split; [reflexivity |].
  pose proof (register_all_admins l [admin_account 1]) as H.
  change (filter user_is_admin [admin_account 1]) with [admin_account 1] in H.
  split; [exact H |].
  unfold create_admin.
  destruct (find user_is_admin (register_all [admin_account 1] l)) eqn:E; [reflexivity |].
  exfalso. assert (In (admin_account 1) (filter user_is_admin (register_all [admin_account 1] l)))
    as Hin by (rewrite H; now left).
  apply filter_In in Hin as [Hin Ha]. apply (find_none _ _ E) in Hin. congruence.
Qed.

(** ** Rounding of the percentages *)

Lemma percentage_ratio_rounded sc :
  exists v, percentage sc = Return v
            /\ ratio_rounded (total_scored sc) (total_questions sc) v.
Proof.
  unfold ratio_rounded. destruct (total_questions sc =? 0) eqn:E.
  - exists (PyInt 0). split; [| reflexivity]. unfold percentage. now rewrite E.
  - apply Z.eqb_neq in E. eexists. split; [now apply percentage_nonzero | reflexivity].
Qed.

Lemma quiz_stat_mean_rounded s quiz st :
  quiz_stat_of s quiz st ->
  mean_rounded (scores_of_quiz s (quiz_id (stat_quiz st))) (avg_score st).
Proof.
  intros (-> & _ & H). unfold mean_rounded.
  destruct (scores_of_quiz s (quiz_id quiz)) as [| sc scs]; [exact H |].
  destruct H as (ps & avg & Hps & Hm & ->). exists ps. split; [exact Hps |].
  pose proof Hm as Hf. apply py_truediv_float in Hf as [x ->].
  exists x. split; [exact Hm | reflexivity].
Qed.

Lemma dashboard_means_rounded s :
  exists d,
    get_dashboard_stats s = Return d
    /\ Forall (fun st => mean_rounded (scores_of_quiz s (quiz_id (stat_quiz st))) (avg_score st))
         (quiz_stats d).
Proof.
  destruct (quiz_stats_return s (quizzes s)) as (stats & Hm & Hall).
  unfold get_dashboard_stats. rewrite Hm. cbn [bind].
  eexists. split; [reflexivity |]. cbn [quiz_stats].
  assert (Forall (fun st => mean_rounded (scores_of_quiz s (quiz_id (stat_quiz st)))
                              (avg_score st)) stats) as Hs.
  { clear Hm. induction Hall as [| q st qs stats Hq _ IH]; constructor; [| exact IH].
    eapply quiz_stat_mean_rounded, Hq. }
  apply Forall_forall. intros st Hin.
  rewrite Forall_forall in Hs. apply Hs.
  apply (Permutation_in _ (sort_desc_perm attempts stats)).
  rewrite <- (firstn_skipn 5 (sort_desc attempts stats)). apply in_or_app. now left.
Qed.

Lemma user_stats_means_rounded s user us :
  get_user_stats s user = Return us ->
  mean_rounded (scores_of_user s user) (avg_percentage us)
  /\ ratio_rounded (Z.of_nat (List.length (scores_of_user s user)))
       (Z.of_nat (List.length (quizzes s))) (completion_rate us)
  /\ (forall name v, In (name, v) (subject_avg us) ->
        filter (in_subject s name) (scores_of_user s user) <> []
        /\ mean_rounded (filter (in_subject s name) (scores_of_user s user)) v).
Proof.
  intros H. pose proof (subject_averages_of_user s user us H) as (_ & _ & Hsub).
  split; [| split].
  - unfold get_user_stats in H.
    apply bind_returns in H as (avg & Ha & H).
    apply bind_returns in H as (subs & _ & H).
    apply bind_returns in H as (averages & _ & H).
    apply bind_returns in H as (rate & _ & H).
    injection H as <-. cbn [avg_percentage]. unfold mean_rounded.
    destruct (scores_of_user s user) as [| sc scs]; [now injection Ha as <- |].
    apply bind_returns in Ha as (ps & Hps & Ha). exists ps. split; [exact Hps |].
    assert (List.length ps = List.length (sc :: scs)) as Hl.
    { apply map_outcome_each in Hps. symmetry. revert Hps. apply Forall2_length. }
    pose proof Ha as Hf. apply py_truediv_float in Hf as [x ->].
    exists x. split; [| reflexivity]. unfold mean. now rewrite Hl.
  - unfold get_user_stats in H.
    apply bind_returns in H as (avg & _ & H).
    apply bind_returns in H as (subs & _ & H).
    apply bind_returns in H as (averages & _ & H).
    apply bind_returns in H as (rate & Hr & H).
    injection H as <-. cbn [completion_rate]. unfold ratio_rounded.
    destruct (Z.of_nat (List.length (quizzes s)) =? 0) eqn:E.
    + apply Z.eqb_eq in E. rewrite E in Hr. cbn in Hr. now injection Hr as <-.
    + apply Z.eqb_neq in E.
      replace (Z.of_nat (List.length (quizzes s)) >? 0) with true in Hr
        by (symmetry; apply Z.gtb_lt; lia).
      rewrite py_truediv_ints in Hr by exact E. cbn [bind] in Hr.
      now injection Hr as <-.
  - intros name v Hin. destruct (Hsub name v Hin) as (ps & avg & Hps & Hne & Hm & ->).
    assert (filter (in_subject s name) (scores_of_user s user) <> []) as Hf.
    { intros E. rewrite E in Hps. cbn in Hps. injection Hps as <-. now apply Hne. }
    split; [exact Hf |]. unfold mean_rounded.
    destruct (filter (in_subject s name) (scores_of_user s user)) as [| sc scs];
      [congruence |].
    exists ps. split; [exact Hps |].
    pose proof Hm as Hx. apply py_truediv_float in Hx as [x ->].
    exists x. split; [exact Hm | reflexivity].
Qed.

(** C4, as the code has it: every percentage reported is the integer 0 of
    an empty case or [round(q, 2)] of the quantity [q] computed for it.  For
    [percentage] and for the completion rate, [q] is the ratio times 100; for
    the per-quiz averages of the dashboard, and for the average and the
    per-subject averages of the user statistics, [q] is the sum of the
    percentages of the Scores concerned divided by their number.  And
    [round(_, 2)] takes the integer number of hundredths nearest to the exact
    value of its argument, the even one when two are equally near, and
    returns the [float] nearest to that many hundredths. *)
Theorem percentages_rounded_half_even :
  (forall sc, exists v,
      percentage sc = Return v
      /\ ratio_rounded (total_scored sc) (total_questions sc) v)
  /\ (forall s, exists d,
         get_dashboard_stats s = Return d
         /\ Forall (fun st =>
                      mean_rounded (scores_of_quiz s (quiz_id (stat_quiz st))) (avg_score st))
              (quiz_stats d))
  /\ (forall s user us,
         get_user_stats s user = Return us ->
         mean_rounded (scores_of_user s user) (avg_percentage us)
         /\ ratio_rounded (Z.of_nat (List.length (scores_of_user s user)))
              (Z.of_nat (List.length (quizzes s))) (completion_rate us)
         /\ (forall name v, In (name, v) (subject_avg us) ->
               filter (in_subject s name) (scores_of_user s user) <> []
               /\ mean_rounded (filter (in_subject s name) (scores_of_user s user)) v))
  /\ (forall sign m e,
         float_round2 (S754_finite sign m e) = float_of_hundredths sign (hundredths m e)
         /\ nearest_hundredth_even m e (hundredths m e)).
Proof.
  split; [exact percentage_ratio_rounded |].
  split; [exact dashboard_means_rounded |].
  split; [exact user_stats_means_rounded |].
  intros sign m e. split; [reflexivity | apply hundredths_nearest].
Qed.

Lemma percentages_rounded_half_even_witness :
  mean_rounded (scores_of_user store_taken 7) (PyFloat (float_of_int 50))
  /\ ratio_rounded (Z.of_nat (List.length (scores_of_user store_taken 7)))
       (Z.of_nat (List.length (quizzes store_taken))) (PyFloat (float_of_int 100))
  /\ (forall name v, In (name, v) [(pystr_of_string "Maths", PyFloat (float_of_int 50))] ->
        filter (in_subject store_taken name) (scores_of_user store_taken 7) <> []
        /\ mean_rounded (filter (in_subject store_taken name) (scores_of_user store_taken 7)) v).
Proof.
  exact (proj1 (proj2 (proj2 percentages_rounded_half_even)) store_taken 7 _ eq_refl).
Defined.
